(** * GitLab integration of the Claude action: trigger detection, comment
    categorisation, trigger reconciliation, reply creation, context parsing
    and the comment watcher.

    The development embeds the TypeScript sources of [gitlab/src]
    ([context.ts], [api.ts], [comment-watcher.ts], [types.ts]) as Rocq
    functions and proves the properties of the design document about them.

    Conventions of the embedding:
    - a JavaScript string is a [string]; the model covers ASCII text, on
      which [toLowerCase] acts character by character;
    - a property that can be absent on a JSON object is an [option];
    - [process.env] is a finite map from names to strings;
    - an asynchronous method is a tree of requests to the outside world
      ([Async]), so that the requests a method issues can be observed;
    - the interval of the watcher is a state machine over the turns of the
      event loop ([turn]), so that callbacks in flight together can be
      observed. *)

From Stdlib Require Import ZArith Ascii String DecimalString DecimalNat.
From stdpp Require Import base option list strings gmap.

Local Open Scope string_scope.
Local Open Scope list_scope.

(** ** JavaScript string primitives *)

Module Js.

(** Code units ['A'] .. ['Z']. *)
Definition isUpper (c : ascii) : bool :=
  (65 <=? nat_of_ascii c)%nat && (nat_of_ascii c <=? 90)%nat.

Definition toLowerChar (c : ascii) : ascii :=
  if isUpper c then ascii_of_nat (nat_of_ascii c + 32) else c.

(** [String.prototype.toLowerCase] on ASCII text: the letters A to Z
    become a to z and every other character is kept. On text with other
    code units the built-in applies the case mappings of Unicode, which
    depend on more than the character at hand (see [Greek.toLowerCase]);
    what is stated of the detector itself is stated for ASCII text
    ([asciiText]). *)
Fixpoint toLowerCase (s : string) : string :=
  match s with
  | EmptyString => EmptyString
  | String c s' => String (toLowerChar c) (toLowerCase s')
  end.

(** [String.prototype.startsWith]: [startsWith s p] is [s.startsWith(p)]. *)
Fixpoint startsWith (s p : string) : bool :=
  match p, s with
  | EmptyString, _ => true
  | String _ _, EmptyString => false
  | String a p', String b s' => if ascii_dec a b then startsWith s' p' else false
  end.

(** [String.prototype.includes]: [includes s t] is [s.includes(t)]. *)
Fixpoint includes (s t : string) : bool :=
  startsWith s t ||
  match s with
  | EmptyString => false
  | String _ s' => includes s' t
  end.

(** Truthiness of a string value: only the empty string is falsy. *)
Definition truthy (s : string) : bool :=
  match s with EmptyString => false | String _ _ => true end.

(** [a || b] on strings. *)
Definition or_else (a b : string) : string := if truthy a then a else b.

(** Truthiness of a possibly absent string ([undefined] is falsy). *)
Definition truthy_opt (o : option string) : bool :=
  match o with Some s => truthy s | None => false end.

(** [o || d] where [o] may be [undefined]. *)
Definition or_default (o : option string) (d : string) : string :=
  match o with Some s => or_else s d | None => d end.

(** [s.substring(n)] *)
Fixpoint substringFrom (n : nat) (s : string) : string :=
  match n, s with
  | O, _ => s
  | S n', String _ s' => substringFrom n' s'
  | S _, EmptyString => EmptyString
  end.

(** [s.replace(pattern, replacement)] with a string pattern: the first
    occurrence is replaced. *)
Fixpoint replace (pattern replacement s : string) : string :=
  if startsWith s pattern
  then String.append replacement (substringFrom (String.length pattern) s)
  else match s with
       | EmptyString => EmptyString
       | String c s' => String c (replace pattern replacement s')
       end.

End Js.

(** ** Case-insensitive occurrence, as the design document words it *)

(** Two characters are the same letter up to case. *)
Definition same_letter (a b : ascii) : Prop :=
  a = b
  \/ (Js.isUpper a = true /\ nat_of_ascii b = nat_of_ascii a + 32)
  \/ (Js.isUpper b = true /\ nat_of_ascii a = nat_of_ascii b + 32).

Inductive eq_ignoring_case : string -> string -> Prop :=
| eic_nil : eq_ignoring_case EmptyString EmptyString
| eic_cons a b s t :
    same_letter a b -> eq_ignoring_case s t ->
    eq_ignoring_case (String a s) (String b t).

(** [phrase] occurs in [body] as a case-insensitive substring: some
    contiguous piece of [body] equals [phrase] up to the case of letters. *)
Definition occurs_ignoring_case (phrase body : string) : Prop :=
  exists pre mid post,
    body = pre +:+ mid +:+ post /\ eq_ignoring_case mid phrase.

(** ** JavaScript numbers and [parseInt] *)

(** A JavaScript number as produced by [parseInt]: [NaN] or an integer
    (the rounding of very large integers to doubles is not modelled; it
    never turns a non-zero integer into zero). *)
Inductive JsNumber : Type :=
| NaN
| Num (z : Z).

Module JsNum.

(** [!n]: a number is falsy when it is [NaN] or zero. *)
Definition falsy (n : JsNumber) : bool :=
  match n with NaN => true | Num z => (z =? 0)%Z end.

(** [n !== 0] *)
Definition strict_neq_zero (n : JsNumber) : bool :=
  match n with NaN => true | Num z => negb (z =? 0)%Z end.

(** White space skipped by [parseInt]: TAB, LF, VT, FF, CR and SPACE. *)
Definition isWhiteSpace (c : ascii) : bool :=
  let n := nat_of_ascii c in
  ((9 <=? n)%nat && (n <=? 13)%nat) || (n =? 32)%nat.

Fixpoint trimStart (s : string) : string :=
  match s with
  | EmptyString => EmptyString
  | String c s' => if isWhiteSpace c then trimStart s' else s
  end.

(** The value of a digit in radix up to 36. *)
Definition digitValue (c : ascii) : option Z :=
  let n := nat_of_ascii c in
  if (48 <=? n)%nat && (n <=? 57)%nat then Some (Z.of_nat n - 48)%Z
  else if (97 <=? n)%nat && (n <=? 122)%nat then Some (Z.of_nat n - 87)%Z
  else if (65 <=? n)%nat && (n <=? 90)%nat then Some (Z.of_nat n - 55)%Z
  else None.

(** The longest prefix of radix-[R] digits, accumulated; [None] while no
    digit has been read. *)
Fixpoint parseDigits (R : Z) (s : string) (acc : option Z) : option Z :=
  match s with
  | EmptyString => acc
  | String c s' =>
      match digitValue c with
      | Some d =>
          if (d <? R)%Z then parseDigits R s' (Some (R * default 0 acc + d))%Z
          else acc
      | None => acc
      end
  end.

(** [parseInt(s)] with no radix argument (ECMA-262, 19.2.5): leading
    white space, an optional sign, an optional [0x] prefix selecting
    radix 16, then the longest run of digits; [NaN] when that run is
    empty. The white space is that of ASCII text, and the value is the
    exact integer: it is the number of the built-in for safe integers
    (beyond them the built-in rounds to a double), and it is [NaN]
    exactly when the built-in gives [NaN]. *)
Definition parseInt (s : string) : JsNumber :=
  let trimmed := trimStart s in
  let '(sign, unsigned) :=
    match trimmed with
    | String "-"%char r => ((-1)%Z, r)
    | String "+"%char r => (1%Z, r)
    | _ => (1%Z, trimmed)
    end in
  let '(R, digits) :=
    match unsigned with
    | String "0"%char (String "x"%char r) => (16%Z, r)
    | String "0"%char (String "X"%char r) => (16%Z, r)
    | _ => (10%Z, unsigned)
    end in
  match parseDigits R digits None with
  | None => NaN
  | Some v => Num (sign * v)
  end.

(** [String(n)] for an array length. *)
Definition lengthToString (n : nat) : string :=
  NilEmpty.string_of_uint (Nat.to_uint n).

End JsNum.

(** Line feed, written [\n] in the sources. *)
Definition LF : string := String "010"%char EmptyString.

(** ** [types.ts] *)

(** The fields of [GitLabContext]. *)
Record GitLabContext : Type := mkContext {
  projectId : string;
  projectPath : string;
  projectUrl : string;
  webUrl : string;
  isMR : bool;
  iid : JsNumber;
  triggerUser : string;
  triggerUsername : string;
  triggerPhrase : string;
  defaultBranch : string;
  sourceBranch : option string;
  targetBranch : option string;
  jobId : string;
  jobUrl : string;
  pipelineId : string;
  pipelineUrl : string;
  token : string;
  apiUrl : string
}.

(** The objects below are what the host returns as JSON; the functions
    guard their reads ([note.author && ...], [note.body && ...],
    [discussion.notes || []]), so a guarded property is an [option]:
    [None] stands for an absent (or null, or wrongly typed) property. *)

Module GitLabUser.
Record t : Type := mk {
  id : Z;
  username : option string;
  name : string;
  avatar_url : option string;
  web_url : string
}.
End GitLabUser.

Inductive NoteableType : Type := MergeRequest | Issue.

Module GitLabNote.
Record t : Type := mk {
  id : Z;
  body : option string;
  author : option GitLabUser.t;
  created_at : string;
  updated_at : string;
  system : bool;
  noteable_id : Z;
  noteable_type : NoteableType;
  noteable_iid : Z
}.
End GitLabNote.

Module GitLabDiscussion.
Record t : Type := mk {
  id : string;
  individual_note : bool;
  notes : option (list GitLabNote.t);
  resolved : option bool
}.
End GitLabDiscussion.

(** Of a merge request and of an issue, the fields that [checkTrigger]
    reads, with the iid, the title and the URL. *)
Module GitLabMergeRequest.
Record t : Type := mk {
  iid : Z;
  title : string;
  assignee : option GitLabUser.t;
  assignees : option (list GitLabUser.t);
  labels : option (list string);
  web_url : string
}.
End GitLabMergeRequest.

Module GitLabIssue.
Record t : Type := mk {
  iid : Z;
  title : string;
  labels : option (list string);
  web_url : string
}.
End GitLabIssue.

Module TriggerComment.
Record t : Type := mk {
  note : GitLabNote.t;
  discussionId : string;
  hasClaudeReply : bool
}.
End TriggerComment.

Inductive TriggerType : Type := comment | assignment | label.

Module TriggerCheckResult.
Record t : Type := mk {
  shouldRun : bool;
  reason : string;
  triggerType : option TriggerType;
  triggerComments : list TriggerComment.t;
  hasExistingResponse : bool
}.
End TriggerCheckResult.

Module CategorizedComments.
Record t : Type := mk {
  triggerComments : list GitLabNote.t;
  contextComments : list GitLabNote.t;
  resolvedComments : list GitLabNote.t;
  claudeReplies : list GitLabNote.t
}.
End CategorizedComments.

Module CreateCommentParams.
Record t : Type := mk {
  projectId : string;
  isMR : bool;
  iid : JsNumber;
  body : string
}.
End CreateCommentParams.

Module CreateReplyParams.
Record t : Type := mk {
  projectId : string;
  isMR : bool;
  iid : JsNumber;
  discussionId : string;
  noteId : Z;
  body : string
}.
End CreateReplyParams.

Module UpdateCommentParams.
Record t : Type := mk {
  projectId : string;
  isMR : bool;
  iid : JsNumber;
  body : string;
  noteId : JsNumber
}.
End UpdateCommentParams.

(** ** [context.ts] *)

(** The completion of a synchronous function: a value or a thrown
    [Error] with its message. *)
Inductive Completion (A : Type) : Type :=
| Returns (a : A)
| Throws (message : string).
Arguments Returns {A} a.
Arguments Throws {A} message.

(** The string handed to [parseInt]:
    [isMR ? env.CI_MERGE_REQUEST_IID! : env.CI_ISSUE_IID || '0']. *)
Definition iidSource (env : gmap string string) : string :=
  if Js.truthy_opt (env !! "CI_MERGE_REQUEST_IID")
  then default EmptyString (env !! "CI_MERGE_REQUEST_IID")
  else Js.or_default (env !! "CI_ISSUE_IID") "0".

(** [env.GITLAB_TOKEN || env.CLAUDE_BOT_TOKEN || env.CI_JOB_TOKEN || ''] *)
Definition envToken (env : gmap string string) : string :=
  Js.or_default (env !! "GITLAB_TOKEN")
    (Js.or_default (env !! "CLAUDE_BOT_TOKEN")
       (Js.or_default (env !! "CI_JOB_TOKEN") EmptyString)).

(** The object built under [// Build context object]. *)
Definition buildContext (env : gmap string string) (isMR' : bool)
    (iid' : JsNumber) (token' : string) : GitLabContext := {|
  projectId := Js.or_default (env !! "CI_PROJECT_ID") EmptyString;
  projectPath := Js.or_default (env !! "CI_PROJECT_PATH") EmptyString;
  projectUrl := Js.or_default (env !! "CI_PROJECT_URL") EmptyString;
  webUrl := Js.or_default (env !! "CI_PROJECT_URL") EmptyString;
  isMR := isMR';
  iid := iid';
  triggerUser :=
    Js.or_default (env !! "GITLAB_USER_LOGIN")
      (Js.or_default (env !! "CI_COMMIT_AUTHOR") EmptyString);
  triggerUsername :=
    Js.or_default (env !! "GITLAB_USER_LOGIN")
      (Js.or_default (env !! "CI_COMMIT_AUTHOR") EmptyString);
  triggerPhrase := Js.or_default (env !! "CLAUDE_TRIGGER_PHRASE") "@claude";
  defaultBranch := Js.or_default (env !! "CI_DEFAULT_BRANCH") "main";
  sourceBranch := env !! "CI_MERGE_REQUEST_SOURCE_BRANCH_NAME";
  targetBranch := env !! "CI_MERGE_REQUEST_TARGET_BRANCH_NAME";
  jobId := Js.or_default (env !! "CI_JOB_ID") EmptyString;
  jobUrl := Js.or_default (env !! "CI_JOB_URL") EmptyString;
  pipelineId := Js.or_default (env !! "CI_PIPELINE_ID") EmptyString;
  pipelineUrl := Js.or_default (env !! "CI_PIPELINE_URL") EmptyString;
  token := token';
  apiUrl := Js.or_default (env !! "CI_API_V4_URL") "https://gitlab.com/api/v4"
|}.

Definition parseGitLabContext (env : gmap string string)
  : Completion GitLabContext :=
  let isMR' := Js.truthy_opt (env !! "CI_MERGE_REQUEST_IID") in
  let iid' := JsNum.parseInt (iidSource env) in
  let token' := envToken env in
  if negb (Js.truthy token') then
    Throws "No GitLab token found. Please set CLAUDE_BOT_TOKEN or GITLAB_TOKEN in CI/CD variables."
  else
    let context := buildContext env isMR' iid' token' in
    if negb (Js.truthy (projectId context)) then
      Throws "CI_PROJECT_ID environment variable is required"
    else if JsNum.falsy (iid context) && JsNum.strict_neq_zero (iid context) then
      Throws "No MR or Issue IID found. Ensure CI_MERGE_REQUEST_IID or CI_ISSUE_IID is set."
    else Returns context.

(** [text.toLowerCase().includes(context.triggerPhrase.toLowerCase())] *)
Definition isValidTrigger (text : string) (context : GitLabContext) : bool :=
  Js.includes (Js.toLowerCase text) (Js.toLowerCase (triggerPhrase context)).

(** ** Asynchronous code: requests to the host and to the file system *)

(** What a promise settles to. *)
Inductive Outcome (A : Type) : Type :=
| Resolved (a : A)
| Rejected (error : string).
Arguments Resolved {A} a.
Arguments Rejected {A} error.

(** The calls the modelled methods make on the gitbeaker client and on
    [fs/promises], indexed by the type of what they resolve to. *)
Inductive Request : Type -> Type :=
| MergeRequestDiscussions_all (projectId : string) (iid : JsNumber)
  : Request (option (list GitLabDiscussion.t))
| IssueDiscussions_all (projectId : string) (iid : JsNumber)
  : Request (option (list GitLabDiscussion.t))
| MergeRequests_show (projectId : string) (iid : JsNumber)
  : Request GitLabMergeRequest.t
| Issues_show (projectId : string) (iid : JsNumber)
  : Request GitLabIssue.t
| MergeRequestNotes_create (projectId : string) (iid : JsNumber) (body : string)
  : Request GitLabNote.t
| IssueNotes_create (projectId : string) (iid : JsNumber) (body : string)
  : Request GitLabNote.t
| MergeRequestNotes_edit (projectId : string) (iid : JsNumber)
    (noteId : JsNumber) (body : string)
  : Request GitLabNote.t
| IssueNotes_edit (projectId : string) (iid : JsNumber)
    (noteId : JsNumber) (body : string)
  : Request GitLabNote.t
| readFile (path : string) (encoding : string)
  : Request string.

(** An asynchronous computation: it returns, throws, or awaits a request
    and continues with what the request settled to. *)
Inductive Async (A : Type) : Type :=
| Return (a : A)
| Throw (error : string)
| Await {T : Type} (r : Request T) (k : Outcome T -> Async A).
Arguments Return {A} a.
Arguments Throw {A} error.
Arguments Await {A T} r k.

(** [await r]: a rejection is rethrown at the await. *)
Definition await {T : Type} (r : Request T) : Async T :=
  Await r (fun o => match o with Resolved t => Return t | Rejected e => Throw e end).

Fixpoint bind {A B : Type} (p : Async A) (f : A -> Async B) : Async B :=
  match p with
  | Return a => f a
  | Throw e => Throw e
  | Await r k => Await r (fun o => bind (k o) f)
  end.

(** [try { p } catch (error) { h error }] *)
Fixpoint try_catch {A : Type} (p : Async A) (h : string -> Async A) : Async A :=
  match p with
  | Return a => Return a
  | Throw e => h e
  | Await r k => Await r (fun o => try_catch (k o) h)
  end.

Notation "'let*' x ':=' p 'in' q" := (bind p (fun x => q))
  (at level 10, x pattern, p at level 100, q at level 200).

(** A request that was issued, with its result type forgotten. *)
Inductive Event : Type :=
| Issued {T : Type} (r : Request T).

Section Run.

Context {World : Type}.
Variable host : forall T : Type, Request T -> World -> Outcome T * World.

(** Running a computation against a host that answers each request and
    moves to a new state; the requests issued are recorded in order. *)
Fixpoint run {A : Type} (p : Async A) (w : World)
  : Outcome A * World * list Event :=
  match p with
  | Return a => (Resolved a, w, [])
  | Throw e => (Rejected e, w, [])
  | Await r k =>
      let '(o, w1) := host _ r w in
      let '(res, w2, evs) := run (k o) w1 in
      (res, w2, Issued r :: evs)
  end.

End Run.

(** ** [api.ts] *)

(** The state of a [GitLabAPI] object: the client settings and the
    project the object was built for. *)
Record GitLabAPI : Type := mkGitLabAPI {
  gitlab_token : string;
  gitlab_host : string;
  this_projectId : string
}.

(** [new GitLabAPI(token, apiUrl, projectId)] *)
Definition newGitLabAPI (token apiUrl projectId : string) : GitLabAPI :=
  mkGitLabAPI token (Js.replace "/api/v4" EmptyString apiUrl) projectId.

(** *** The bot pattern [/claude[- ]?bot/i] *)

(** [s] starts with [p], letters of [s] compared up to case ([p] is in
    lower case); the rest of [s] is returned. *)
Fixpoint stripPrefixIgnoreCase (p s : string) : option string :=
  match p, s with
  | EmptyString, _ => Some s
  | String _ _, EmptyString => None
  | String a p', String b s' =>
      if ascii_dec a (Js.toLowerChar b) then stripPrefixIgnoreCase p' s' else None
  end.

(** The optional class [[- ]?]. Taking the separator whenever it is
    there is exact: what follows must start with [b], which is not a
    separator. *)
Definition skipSeparator (s : string) : string :=
  match s with
  | String c s' =>
      if ascii_dec c "-" then s' else if ascii_dec c " " then s' else s
  | EmptyString => s
  end.

(** The pattern matched at the start of [s]. *)
Definition claudeBotPattern_here (s : string) : bool :=
  match stripPrefixIgnoreCase "claude" s with
  | Some rest => bool_decide (is_Some (stripPrefixIgnoreCase "bot" (skipSeparator rest)))
  | None => false
  end.

(** [claudeBotPattern.test(s)]: the pattern matches somewhere in [s]. *)
Fixpoint claudeBotPattern_test (s : string) : bool :=
  claudeBotPattern_here s ||
  match s with
  | EmptyString => false
  | String _ s' => claudeBotPattern_test s'
  end.

(** [note.author && typeof note.author === 'object' && 'username' in
    note.author && typeof note.author.username === 'string' &&
    claudeBotPattern.test(note.author.username)] *)
Definition isClaudeAuthor (note : GitLabNote.t) : bool :=
  match GitLabNote.author note with
  | Some author =>
      match GitLabUser.username author with
      | Some username => claudeBotPattern_test username
      | None => false
      end
  | None => false
  end.

(** [note.body && isValidTrigger(note.body, context)] *)
Definition isTriggerNote (context : GitLabContext) (note : GitLabNote.t) : bool :=
  match GitLabNote.body note with
  | Some body => Js.truthy body && isValidTrigger body context
  | None => false
  end.

(** *** [checkTrigger] *)

(** The body of [for (const note of notes)]: the state is
    [hasClaudeReply] and [triggerNotesInDiscussion]. *)
Definition scanNote (context : GitLabContext)
    (st : bool * list GitLabNote.t) (note : GitLabNote.t)
  : bool * list GitLabNote.t :=
  let '(hasClaudeReply, triggerNotesInDiscussion) := st in
  let hasClaudeReply := if isClaudeAuthor note then true else hasClaudeReply in
  let triggerNotesInDiscussion :=
    if isTriggerNote context note
    then triggerNotesInDiscussion ++ [note]
    else triggerNotesInDiscussion in
  (hasClaudeReply, triggerNotesInDiscussion).

(** The body of [for (const discussion of discussions)]. *)
Definition scanDiscussion (context : GitLabContext)
    (triggerComments : list TriggerComment.t) (discussion : GitLabDiscussion.t)
  : list TriggerComment.t :=
  let notes := default [] (GitLabDiscussion.notes discussion) in
  let '(hasClaudeReply, triggerNotesInDiscussion) :=
    fold_left (scanNote context) notes (false, []) in
  fold_left
    (fun acc triggerNote =>
       acc ++ [TriggerComment.mk triggerNote (GitLabDiscussion.id discussion)
                 hasClaudeReply])
    triggerNotesInDiscussion triggerComments.

(** [triggerComments] after the scan of all discussions. *)
Definition collectTriggerComments (context : GitLabContext)
    (discussions : option (list GitLabDiscussion.t)) : list TriggerComment.t :=
  match discussions with
  | Some ds =>
      if (0 <? length ds)%nat then fold_left (scanDiscussion context) ds [] else []
  | None => []
  end.

(** [triggerComments.filter(t => !t.hasClaudeReply)] *)
Definition newTriggers (triggerComments : list TriggerComment.t)
  : list TriggerComment.t :=
  List.filter (fun t => negb (TriggerComment.hasClaudeReply t)) triggerComments.

(** [u.username === 'claude-bot'] *)
Definition isClaudeBotUser (u : GitLabUser.t) : bool :=
  bool_decide (GitLabUser.username u = Some "claude-bot").

(** [mr.assignee?.username === 'claude-bot' ||
     mr.assignees?.some(a => a.username === 'claude-bot')] *)
Definition claudeBotAssigned (mr : GitLabMergeRequest.t) : bool :=
  match GitLabMergeRequest.assignee mr with
  | Some u => isClaudeBotUser u
  | None => false
  end ||
  match GitLabMergeRequest.assignees mr with
  | Some us => List.existsb isClaudeBotUser us
  | None => false
  end.

(** [labels?.includes('claude')] *)
Definition hasClaudeLabel (labels : option (list string)) : bool :=
  match labels with
  | Some ls => List.existsb (fun l => bool_decide (l = "claude")) ls
  | None => false
  end.

(** The request for all discussions of the merge request or issue. *)
Definition discussionsRequest (this : GitLabAPI) (context : GitLabContext)
  : Request (option (list GitLabDiscussion.t)) :=
  if isMR context
  then MergeRequestDiscussions_all (this_projectId this) (iid context)
  else IssueDiscussions_all (this_projectId this) (iid context).

Definition checkTrigger (this : GitLabAPI) (context : GitLabContext)
  : Async TriggerCheckResult.t :=
  try_catch
    (let* discussions := await (discussionsRequest this context) in
     let triggerComments := collectTriggerComments context discussions in
     let newTriggers := newTriggers triggerComments in
     if (0 <? length newTriggers)%nat then
       Return (TriggerCheckResult.mk true
                 ("Found " +:+ JsNum.lengthToString (length newTriggers)
                    +:+ " new trigger comment(s) without Claude replies")
                 (Some comment) newTriggers
                 (List.existsb TriggerComment.hasClaudeReply triggerComments))
     else if (0 <? length triggerComments)%nat then
       Return (TriggerCheckResult.mk false
                 "All trigger comments already have Claude replies"
                 (Some comment) [] true)
     else
       let* assigned :=
         (if isMR context then
            let* mr := await (MergeRequests_show (this_projectId this) (iid context)) in
            Return (claudeBotAssigned mr)
          else Return false) in
       if (assigned : bool) then
         Return (TriggerCheckResult.mk true "Claude bot is assigned"
                   (Some assignment) [] false)
       else
         let* labels :=
           (if isMR context then
              let* entity := await (MergeRequests_show (this_projectId this) (iid context)) in
              Return (GitLabMergeRequest.labels entity)
            else
              let* entity := await (Issues_show (this_projectId this) (iid context)) in
              Return (GitLabIssue.labels entity)) in
         if hasClaudeLabel labels then
           Return (TriggerCheckResult.mk true "Found claude label"
                     (Some label) [] false)
         else
           Return (TriggerCheckResult.mk false "No trigger found" None [] false))
    (fun error =>
       Return (TriggerCheckResult.mk false ("Error checking trigger: " +:+ error)
                 None [] false)).

(** *** [categorizeComments] *)

(** First pass over the notes of a discussion: the state is
    [claudeReplies] and [hasClaudeReply]. *)
Definition firstPass (st : list GitLabNote.t * bool) (note : GitLabNote.t)
  : list GitLabNote.t * bool :=
  let '(claudeReplies, hasClaudeReply) := st in
  if isClaudeAuthor note then (claudeReplies ++ [note], true)
  else (claudeReplies, hasClaudeReply).

(** Second pass: the state is [triggerComments], [contextComments] and
    [resolvedComments]. *)
Definition secondPass (context : GitLabContext) (isResolved : bool)
    (st : list GitLabNote.t * list GitLabNote.t * list GitLabNote.t)
    (note : GitLabNote.t)
  : list GitLabNote.t * list GitLabNote.t * list GitLabNote.t :=
  let '(triggerComments, contextComments, resolvedComments) := st in
  if isClaudeAuthor note then st
  else if isTriggerNote context note then
    (triggerComments ++ [note], contextComments, resolvedComments)
  else if isResolved then
    (triggerComments, contextComments, resolvedComments ++ [note])
  else
    (triggerComments, contextComments ++ [note], resolvedComments).

(** The body of [for (const discussion of discussions)]. *)
Definition categorizeDiscussion (context : GitLabContext)
    (acc : CategorizedComments.t) (discussion : GitLabDiscussion.t)
  : CategorizedComments.t :=
  let notes := default [] (GitLabDiscussion.notes discussion) in
  let isResolved := default false (GitLabDiscussion.resolved discussion) in
  let '(claudeReplies, _) :=
    fold_left firstPass notes (CategorizedComments.claudeReplies acc, false) in
  let '(triggerComments, contextComments, resolvedComments) :=
    fold_left (secondPass context isResolved) notes
      (CategorizedComments.triggerComments acc,
       CategorizedComments.contextComments acc,
       CategorizedComments.resolvedComments acc) in
  CategorizedComments.mk triggerComments contextComments resolvedComments
    claudeReplies.

Definition categorizeComments (discussions : list GitLabDiscussion.t)
    (context : GitLabContext) : CategorizedComments.t :=
  fold_left (categorizeDiscussion context) discussions
    (CategorizedComments.mk [] [] [] []).

(** *** [createComment], [createReply], [updateComment] *)

Definition createComment (this : GitLabAPI) (params : CreateCommentParams.t)
  : Async GitLabNote.t :=
  if CreateCommentParams.isMR params then
    await (MergeRequestNotes_create (CreateCommentParams.projectId params)
             (CreateCommentParams.iid params) (CreateCommentParams.body params))
  else
    await (IssueNotes_create (CreateCommentParams.projectId params)
             (CreateCommentParams.iid params) (CreateCommentParams.body params)).

Definition createReply (this : GitLabAPI) (params : CreateReplyParams.t)
  : Async GitLabNote.t :=
  let replyBody :=
    "> In reply to discussion " +:+ CreateReplyParams.discussionId params
      +:+ LF +:+ LF +:+ CreateReplyParams.body params in
  if CreateReplyParams.isMR params then
    await (MergeRequestNotes_create (CreateReplyParams.projectId params)
             (CreateReplyParams.iid params) replyBody)
  else
    await (IssueNotes_create (CreateReplyParams.projectId params)
             (CreateReplyParams.iid params) replyBody).

Definition updateComment (this : GitLabAPI) (params : UpdateCommentParams.t)
  : Async GitLabNote.t :=
  if UpdateCommentParams.isMR params then
    await (MergeRequestNotes_edit (UpdateCommentParams.projectId params)
             (UpdateCommentParams.iid params) (UpdateCommentParams.noteId params)
             (UpdateCommentParams.body params))
  else
    await (IssueNotes_edit (UpdateCommentParams.projectId params)
             (UpdateCommentParams.iid params) (UpdateCommentParams.noteId params)
             (UpdateCommentParams.body params)).

(** ** [comment-watcher.ts] *)

Definition UPDATE_FILE : string := "/tmp/gitlab-comment-update.md".

(** The constants [watchForUpdates] reads from [process.env] before it
    starts the interval. *)
Record Watcher : Type := mkWatcher {
  w_api : GitLabAPI;
  w_commentId : string;
  w_projectId : string;
  w_isMR : bool;
  w_iid : JsNumber
}.

(** The head of [watchForUpdates]: [None] when a required variable is
    missing and the process exits with code 1. *)
Definition watcherOfEnv (env : gmap string string) : option Watcher :=
  let commentId := env !! "CLAUDE_COMMENT_ID" in
  let projectId := env !! "GITLAB_PROJECT_ID" in
  let token := env !! "GITLAB_TOKEN" in
  let apiUrl := env !! "GITLAB_API_URL" in
  let isMR := bool_decide (env !! "GITLAB_IS_MR" = Some "true") in
  let iid := JsNum.parseInt (Js.or_default (env !! "GITLAB_IID") "0") in
  if negb (Js.truthy_opt commentId) || negb (Js.truthy_opt projectId)
     || negb (Js.truthy_opt token) || negb (Js.truthy_opt apiUrl)
  then None
  else
    Some {| w_api := newGitLabAPI (default EmptyString token)
                       (default EmptyString apiUrl)
                       (default EmptyString projectId);
            w_commentId := default EmptyString commentId;
            w_projectId := default EmptyString projectId;
            w_isMR := isMR;
            w_iid := iid |}.

(** One run of the interval callback. The closure variable [lastContent]
    is passed in and its value after the callback is returned. The model
    takes callbacks one after the other: a callback has settled before the
    next one starts. *)
Definition onInterval (w : Watcher) (lastContent : string) : Async string :=
  try_catch
    (let* content := await (readFile UPDATE_FILE "utf-8") in
     if Js.truthy content && negb (bool_decide (content = lastContent)) then
       let* _ := updateComment (w_api w)
                   (UpdateCommentParams.mk (w_projectId w) (w_isMR w) (w_iid w)
                      content (JsNum.parseInt (w_commentId w))) in
       Return content
     else Return lastContent)
    (fun _ => Return lastContent).

(** What one poll meets: the result of reading the channel file and
    whether an edit of the tracking note would succeed. *)
Record Poll : Type := mkPoll {
  channel : Outcome string;
  publishSucceeds : bool
}.

(** The note the host answers an edit with. *)
Definition editedNote (noteId : JsNumber) (body : string) : GitLabNote.t :=
  GitLabNote.mk (match noteId with Num z => z | NaN => 0%Z end) (Some body)
    None EmptyString EmptyString false 0 MergeRequest 0.

(** The host during one poll: it serves the channel content to
    [readFile] and accepts or rejects edits of the note. *)
Definition pollHost (p : Poll) (T : Type) (r : Request T) (w : unit)
  : Outcome T * unit :=
  match r in Request T0 return Outcome T0 * unit with
  | readFile _ _ => (channel p, w)
  | MergeRequestNotes_edit _ _ noteId body
  | IssueNotes_edit _ _ noteId body =>
      (if publishSucceeds p then Resolved (editedNote noteId body)
       else Rejected "edit failed", w)
  | _ => (Rejected "not served", w)
  end.

(** The bodies of the note edits among the requests issued. *)
Definition publishedBody (e : Event) : option string :=
  match e with
  | Issued (MergeRequestNotes_edit _ _ _ body) => Some body
  | Issued (IssueNotes_edit _ _ _ body) => Some body
  | Issued _ => None
  end.

Definition publications (evs : list Event) : list string :=
  omap publishedBody evs.

(** The watcher over successive polls, starting from [lastContent]: the
    value of [lastContent] at the end and the payloads published, in
    order. Each callback has settled before the next poll; [setInterval]
    itself does not wait for a callback, and [turn] below takes the
    callbacks in any interleaving. *)
Fixpoint watch (w : Watcher) (polls : list Poll) (lastContent : string)
  : string * list string :=
  match polls with
  | [] => (lastContent, [])
  | p :: polls' =>
      let '(res, _, evs) := run (pollHost p) (onInterval w lastContent) tt in
      let lastContent' :=
        match res with Resolved c => c | Rejected _ => lastContent end in
      let '(final, published) := watch w polls' lastContent' in
      (final, publications evs ++ published)
  end.


(** ** Vocabulary of the design document *)

(** The texts the bot pattern stands for, up to the case of letters:
    [claude] and [bot], joined directly, by a hyphen or by a space. *)
Definition botName (s : string) : Prop :=
  Js.toLowerCase s = "claudebot"
  \/ Js.toLowerCase s = "claude-bot"
  \/ Js.toLowerCase s = "claude bot".

(** [discussion.notes || []] *)
Definition notesOf (d : GitLabDiscussion.t) : list GitLabNote.t :=
  default [] (GitLabDiscussion.notes d).

(** [discussion.resolved || false] *)
Definition isResolved (d : GitLabDiscussion.t) : bool :=
  default false (GitLabDiscussion.resolved d).

(** All notes of a review unit, discussion after discussion. *)
Definition allNotes (ds : list GitLabDiscussion.t) : list GitLabNote.t :=
  flat_map notesOf ds.

(** The discussion contains a note authored by the agent identity. *)
Definition hasAgentNote (d : GitLabDiscussion.t) : bool :=
  List.existsb isClaudeAuthor (notesOf d).

(** The trigger notes of the discussions that hold no agent note, each
    with the id of its discussion. *)
Definition unansweredTriggers (context : GitLabContext)
    (ds : list GitLabDiscussion.t) : list TriggerComment.t :=
  flat_map
    (fun d =>
       if hasAgentNote d then []
       else List.map (fun n => TriggerComment.mk n (GitLabDiscussion.id d) false)
              (List.filter (isTriggerNote context) (notesOf d)))
    ds.

(** The four categories of the classifier. *)
Inductive Category : Type :=
| CatTrigger
| CatContext
| CatResolved
| CatClaudeReply.

Global Instance Category_eq_dec : EqDecision Category.
Proof. solve_decision. Defined.

(** The category of a note of discussion [d]: agent notes first, then
    triggers, then by the resolution state of the discussion. *)
Definition categoryOf (context : GitLabContext) (d : GitLabDiscussion.t)
    (n : GitLabNote.t) : Category :=
  if isClaudeAuthor n then CatClaudeReply
  else if isTriggerNote context n then CatTrigger
  else if isResolved d then CatResolved
  else CatContext.

(** The notes of category [k] in one discussion. *)
Definition selectCategory (context : GitLabContext) (k : Category)
    (d : GitLabDiscussion.t) (notes : list GitLabNote.t) : list GitLabNote.t :=
  List.filter (fun n => bool_decide (categoryOf context d n = k)) notes.

(** The notes of category [k], in traversal order. *)
Definition notesIn (context : GitLabContext) (k : Category)
    (ds : list GitLabDiscussion.t) : list GitLabNote.t :=
  flat_map (fun d => selectCategory context k d (notesOf d)) ds.


(** A poll that reads [content] and whose edits succeed. *)
Definition observed (content : string) : Poll := mkPoll (Resolved content) true.

(** ** A host with fixed answers, for concrete runs *)

Record Served : Type := mkServed {
  served_discussions : Outcome (option (list GitLabDiscussion.t));
  served_mergeRequest : Outcome GitLabMergeRequest.t;
  served_issue : Outcome GitLabIssue.t
}.

Definition staticHost (sv : Served) (T : Type) (r : Request T) (w : unit)
  : Outcome T * unit :=
  match r in Request T0 return Outcome T0 * unit with
  | MergeRequestDiscussions_all _ _ => (served_discussions sv, w)
  | IssueDiscussions_all _ _ => (served_discussions sv, w)
  | MergeRequests_show _ _ => (served_mergeRequest sv, w)
  | Issues_show _ _ => (served_issue sv, w)
  | MergeRequestNotes_create _ _ body
  | IssueNotes_create _ _ body => (Resolved (editedNote (Num 1) body), w)
  | MergeRequestNotes_edit _ _ noteId body
  | IssueNotes_edit _ _ noteId body => (Resolved (editedNote noteId body), w)
  | readFile _ _ => (Rejected "ENOENT", w)
  end.

Global Instance JsNumber_eq_dec : EqDecision JsNumber.
Proof. solve_decision. Defined.

Global Instance NoteableType_eq_dec : EqDecision NoteableType.
Proof. solve_decision. Defined.

Global Instance GitLabUser_eq_dec : EqDecision GitLabUser.t.
Proof. solve_decision. Defined.

Global Instance GitLabNote_eq_dec : EqDecision GitLabNote.t.
Proof. solve_decision. Defined.

(** The trigger comments one discussion contributes in [checkTrigger]. *)
Definition triggersOf (context : GitLabContext) (d : GitLabDiscussion.t)
  : list TriggerComment.t :=
  List.map
    (fun n => TriggerComment.mk n (GitLabDiscussion.id d) (hasAgentNote d))
    (List.filter (isTriggerNote context) (notesOf d)).

(** ** Sample data *)

(** The context of the unit tests of [isValidTrigger] and of the
    merge-request test of [parseGitLabContext]. *)
Definition exampleContext : GitLabContext :=
  mkContext "123" "group/project" "https://gitlab.com/group/project"
    "https://gitlab.com/group/project" true (Num 42) "testuser" "testuser"
    "@claude" "main" (Some "feature/test") (Some "main") "999" EmptyString
    "888" EmptyString "test-token" "https://gitlab.com/api/v4".

Definition exampleAPI : GitLabAPI :=
  newGitLabAPI "test-token" "https://gitlab.com/api/v4" "123".

Definition user (id : Z) (username : string) : GitLabUser.t :=
  GitLabUser.mk id (Some username) username None
    (String.append "https://gitlab.com/" username).

Definition noteBy (id : Z) (username body : string) : GitLabNote.t :=
  GitLabNote.mk id (Some body) (Some (user id username))
    "2024-01-01T00:00:00Z" "2024-01-01T00:00:00Z" false 4242 MergeRequest 42.

(** A discussion with a trigger and no answer. *)
Definition unansweredDiscussion : GitLabDiscussion.t :=
  GitLabDiscussion.mk "d1" false
    (Some [noteBy 1 "alice" "Hey @claude can you help?"]) (Some false).

(** A discussion with a trigger followed by a reply of the bot. *)
Definition answeredDiscussion : GitLabDiscussion.t :=
  GitLabDiscussion.mk "d2" false
    (Some [noteBy 2 "bob" "@Claude please review";
           noteBy 3 "claude-bot" "Done."]) (Some true).

(** A host that serves one answered discussion, and one that serves an
    unanswered and an answered discussion. *)
Definition servedAnswered : Served :=
  mkServed (Resolved (Some [answeredDiscussion]))
    (Rejected "not found") (Rejected "not found").

Definition servedBoth : Served :=
  mkServed (Resolved (Some [unansweredDiscussion; answeredDiscussion]))
    (Rejected "not found") (Rejected "not found").

(** Malformed notes: a trigger text without an author, and a note
    of the bot without a body, in a resolved discussion. *)
Definition authorlessTrigger : GitLabNote.t :=
  GitLabNote.mk 7 (Some "@claude what about this?") None
    "2024-01-02T00:00:00Z" "2024-01-02T00:00:00Z" false 4242 MergeRequest 42.

Definition bodilessBotNote : GitLabNote.t :=
  GitLabNote.mk 8 None (Some (user 8 "claude-bot"))
    "2024-01-02T00:00:00Z" "2024-01-02T00:00:00Z" false 4242 MergeRequest 42.

Definition bareNote : GitLabNote.t :=
  GitLabNote.mk 9 None None
    "2024-01-02T00:00:00Z" "2024-01-02T00:00:00Z" false 4242 MergeRequest 42.

Definition malformedDiscussion : GitLabDiscussion.t :=
  GitLabDiscussion.mk "d3" false
    (Some [authorlessTrigger; bodilessBotNote; bareNote]) (Some true).

(** The watcher of the sample merge request, tracking note 77. *)
Definition exampleWatcher : Watcher :=
  mkWatcher exampleAPI "77" "123" true (Num 42).

(** The environment of a job that carries a token and a project id but
    neither a merge request nor an issue. *)
Definition envWithoutIid : gmap string string :=
  <["CI_PROJECT_ID" := "123"]> (<["CLAUDE_BOT_TOKEN" := "test-token"]> ∅).

(** The message of the last validation of [parseGitLabContext]. *)
Definition noIidMessage : string :=
  "No MR or Issue IID found. Ensure CI_MERGE_REQUEST_IID or CI_ISSUE_IID is set.".

(** ** Further code: numbers as text *)

(** The integers that a JavaScript number holds exactly
    ([Number.MAX_SAFE_INTEGER] in magnitude); on them [toString] prints
    the decimal digits and [parseInt] reads them back exactly. *)
Definition safeInteger (z : Z) : Prop := (Z.abs z <= 9007199254740991)%Z.

(** [n.toString()] and the interpolation of a number in a template:
    [NaN], or the sign and the decimal digits of an integer. This is the
    text of the built-in for safe integers; the built-in rounds larger
    values to a double and prints an exponent from 1e21 on. *)
Definition numberToString (n : JsNumber) : string :=
  match n with
  | NaN => "NaN"
  | Num z =>
      (if (z <? 0)%Z then "-" else EmptyString)
        +:+ JsNum.lengthToString (Z.abs_nat z)
  end.

(** The value of a run of decimal digits read after [acc]. *)
Fixpoint digitsValue (acc : Z) (d : Decimal.uint) : Z :=
  match d with
  | Decimal.Nil => acc
  | Decimal.D0 d' => digitsValue (10 * acc + 0) d'
  | Decimal.D1 d' => digitsValue (10 * acc + 1) d'
  | Decimal.D2 d' => digitsValue (10 * acc + 2) d'
  | Decimal.D3 d' => digitsValue (10 * acc + 3) d'
  | Decimal.D4 d' => digitsValue (10 * acc + 4) d'
  | Decimal.D5 d' => digitsValue (10 * acc + 5) d'
  | Decimal.D6 d' => digitsValue (10 * acc + 6) d'
  | Decimal.D7 d' => digitsValue (10 * acc + 7) d'
  | Decimal.D8 d' => digitsValue (10 * acc + 8) d'
  | Decimal.D9 d' => digitsValue (10 * acc + 9) d'
  end.

(** ** Further code of [context.ts] *)

(** [getClaudeBranchName(context)]; [now] is the value of [Date.now()]. *)
Definition getClaudeBranchName (env : gmap string string) (now : Z)
    (context : GitLabContext) : string :=
  if isMR context && Js.truthy_opt (sourceBranch context) then
    default EmptyString (sourceBranch context)
  else
    let prefix := Js.or_default (env !! "CLAUDE_BRANCH_PREFIX") "claude/" in
    let timestamp := now in
    prefix +:+ "issue-" +:+ numberToString (iid context) +:+ "-"
      +:+ numberToString (Num timestamp).

(** [formatJobUrl(context)] *)
Definition formatJobUrl (context : GitLabContext) : string :=
  Js.or_else (jobUrl context)
    (pipelineUrl context +:+ "/-/jobs/" +:+ jobId context).

(** ** The stub of [validateEnvironmentVariables] *)

Definition validateEnvironmentVariables (env : gmap string string)
  : Completion unit :=
  if negb (Js.truthy_opt (env !! "ANTHROPIC_API_KEY")) then
    Throws "ANTHROPIC_API_KEY is required"
  else if negb (Js.truthy_opt (env !! "GITLAB_TOKEN"))
          && negb (Js.truthy_opt (env !! "CLAUDE_BOT_TOKEN")) then
    Throws "GITLAB_TOKEN or CLAUDE_BOT_TOKEN is required"
  else Returns tt.

(** ** Further code of [main.ts] *)

(** The assignments to [process.env] that hand the run over to the
    comment tools ([// Set environment variables for Claude execution]),
    in the order of the source. *)
Definition setClaudeEnvironment (context : GitLabContext)
    (trackingCommentId : Z) (env : gmap string string) : gmap string string :=
  <["GITLAB_IID" := numberToString (iid context)]>
    (<["GITLAB_IS_MR" := if isMR context then "true" else "false"]>
       (<["GITLAB_API_URL" := apiUrl context]>
          (<["GITLAB_TOKEN" := token context]>
             (<["GITLAB_PROJECT_ID" := projectId context]>
                (<["CLAUDE_COMMENT_ID" := numberToString (Num trackingCommentId)]>
                   env))))).

(** [createInitialCommentBody(context)] of [formatter.ts] (the version
    with the task list). *)
Definition createInitialCommentBody (context : GitLabContext) : string :=
  let entityType := if isMR context then "merge request" else "issue" in
  "Claude Code is working…" +:+ LF +:+ LF
    +:+ "---" +:+ LF +:+ LF
    +:+ "<details>" +:+ LF
    +:+ "<summary>Task List</summary>" +:+ LF +:+ LF
    +:+ "- [ ] Analyzing " +:+ entityType +:+ " #"
    +:+ numberToString (iid context) +:+ LF
    +:+ "- [ ] Understanding the request from @"
    +:+ Js.or_else (triggerUsername context) "user" +:+ LF
    +:+ "- [ ] Preparing response" +:+ LF
    +:+ "- [ ] Implementing changes (if needed)" +:+ LF +:+ LF
    +:+ "</details>".

(** How the head of [main] ends: the process has exited, or the tracking
    comment exists and the run goes on. *)
Inductive RunStart : Type :=
| Exited (code : Z)
| Tracking (context : GitLabContext) (api : GitLabAPI)
    (triggerCheck : TriggerCheckResult.t) (trackingComment : GitLabNote.t).

(** [main] from its start to the creation of the tracking comment (the
    rest of [main] is not modelled). An error thrown in this part reaches
    the [catch] of [main] while [trackingComment] is still undefined: the
    handler updates no comment and calls [process.exit(1)]. *)
Definition mainUntilTrackingComment (env : gmap string string)
  : Async RunStart :=
  match parseGitLabContext env with
  | Throws _ => Return (Exited 1)
  | Returns context =>
      let api := newGitLabAPI (token context) (apiUrl context) (projectId context) in
      try_catch
        (let* triggerCheck := checkTrigger api context in
         if negb (TriggerCheckResult.shouldRun triggerCheck) then
           Return (Exited 0)
         else
           match TriggerCheckResult.triggerComments triggerCheck,
                 TriggerCheckResult.triggerType triggerCheck with
           | firstTrigger :: _, Some comment =>
               let* trackingComment :=
                 createReply api
                   (CreateReplyParams.mk (projectId context) (isMR context)
                      (iid context)
                      (TriggerComment.discussionId firstTrigger)
                      (GitLabNote.id (TriggerComment.note firstTrigger))
                      (createInitialCommentBody context)) in
               Return (Tracking context api triggerCheck trackingComment)
           | _, _ =>
               let* trackingComment :=
                 createComment api
                   (CreateCommentParams.mk (projectId context) (isMR context)
                      (iid context) (createInitialCommentBody context)) in
               Return (Tracking context api triggerCheck trackingComment)
           end)
        (fun _ => Return (Exited 1))
  end.

(** ** [update-comment.ts] *)

(** The script that updates the tracking comment once: [argv2] is
    [process.argv[2]]; the result is the exit code ([0] when the script
    runs to its end). *)
Definition updateCommentScript (env : gmap string string)
    (argv2 : option string) : Async Z :=
  let commentId := env !! "CLAUDE_COMMENT_ID" in
  let projectId := env !! "GITLAB_PROJECT_ID" in
  let token := env !! "GITLAB_TOKEN" in
  let apiUrl := env !! "GITLAB_API_URL" in
  let isMR := bool_decide (env !! "GITLAB_IS_MR" = Some "true") in
  let iid := JsNum.parseInt (Js.or_default (env !! "GITLAB_IID") "0") in
  let body := Js.or_default argv2 EmptyString in
  if negb (Js.truthy_opt commentId) || negb (Js.truthy_opt projectId)
     || negb (Js.truthy_opt token) || negb (Js.truthy_opt apiUrl)
     || negb (Js.truthy body)
  then Return 1%Z
  else
    try_catch
      (let api := newGitLabAPI (default EmptyString token)
                    (default EmptyString apiUrl)
                    (default EmptyString projectId) in
       let* _ := updateComment api
                   (UpdateCommentParams.mk (default EmptyString projectId)
                      isMR iid body
                      (JsNum.parseInt (default EmptyString commentId))) in
       Return 0%Z)
      (fun _ => Return 1%Z).

(** ** Vocabulary for the further properties *)

(** A request that only reads from the host or the file system. *)
Definition isReadRequest (e : Event) : bool :=
  match e with
  | Issued (MergeRequestDiscussions_all _ _) => true
  | Issued (IssueDiscussions_all _ _) => true
  | Issued (MergeRequests_show _ _) => true
  | Issued (Issues_show _ _) => true
  | Issued (readFile _ _) => true
  | Issued _ => false
  end.

(** A request that creates a note. *)
Definition isCreateRequest (e : Event) : bool :=
  match e with
  | Issued (MergeRequestNotes_create _ _ _) => true
  | Issued (IssueNotes_create _ _ _) => true
  | Issued _ => false
  end.

(** The request that creates a note with [body] on the merge request or
    issue of the context. *)
Definition noteCreation (context : GitLabContext) (body : string)
  : Request GitLabNote.t :=
  if isMR context
  then MergeRequestNotes_create (projectId context) (iid context) body
  else IssueNotes_create (projectId context) (iid context) body.

(** The body of the tracking comment that [main] creates after the
    trigger check [triggerCheck]: the initial body, quoted as a reply when
    the run answers a trigger comment. *)
Definition trackingBody (context : GitLabContext)
    (triggerCheck : TriggerCheckResult.t) : string :=
  match TriggerCheckResult.triggerComments triggerCheck,
        TriggerCheckResult.triggerType triggerCheck with
  | firstTrigger :: _, Some comment =>
      "> In reply to discussion " +:+ TriggerComment.discussionId firstTrigger
        +:+ LF +:+ LF +:+ createInitialCommentBody context
  | _, _ => createInitialCommentBody context
  end.

(** The result [checkTrigger] turns a caught error into. *)
Definition errorResult (error : string) : TriggerCheckResult.t :=
  TriggerCheckResult.mk false ("Error checking trigger: " +:+ error)
    None [] false.

(** The last step of [checkTrigger], run from the state [w] after the
    requests [before]: the merge request or issue is fetched and its labels
    decide; a rejection becomes the error result. *)
Definition labelStep {World : Type}
    (host : forall T : Type, Request T -> World -> Outcome T * World)
    (this : GitLabAPI) (context : GitLabContext)
    (w : World) (before : list Event)
  : Outcome TriggerCheckResult.t * World * list Event :=
  if isMR context then
    let '(o, w') := host _ (MergeRequests_show (this_projectId this) (iid context)) w in
    (Resolved
       match o with
       | Rejected e => errorResult e
       | Resolved entity =>
           if hasClaudeLabel (GitLabMergeRequest.labels entity)
           then TriggerCheckResult.mk true "Found claude label" (Some label) [] false
           else TriggerCheckResult.mk false "No trigger found" None [] false
       end,
     w',
     before ++ [Issued (MergeRequests_show (this_projectId this) (iid context))])
  else
    let '(o, w') := host _ (Issues_show (this_projectId this) (iid context)) w in
    (Resolved
       match o with
       | Rejected e => errorResult e
       | Resolved entity =>
           if hasClaudeLabel (GitLabIssue.labels entity)
           then TriggerCheckResult.mk true "Found claude label" (Some label) [] false
           else TriggerCheckResult.mk false "No trigger found" None [] false
       end,
     w',
     before ++ [Issued (Issues_show (this_projectId this) (iid context))]).

(** Sample answers of the host: a merge request assigned to the bot, an
    issue that carries the label, and hosts that serve them with no
    discussion, or with a failing discussions request. *)
Definition assignedMergeRequest : GitLabMergeRequest.t :=
  GitLabMergeRequest.mk 42 "Add feature" None (Some [user 3 "claude-bot"])
    (Some ["backend"]) "https://gitlab.com/group/project/-/merge_requests/42".

Definition labelledIssue : GitLabIssue.t :=
  GitLabIssue.mk 10 "Fix bug" (Some ["bug"; "claude"])
    "https://gitlab.com/group/project/-/issues/10".

Definition servedAssigned : Served :=
  mkServed (Resolved (Some [])) (Resolved assignedMergeRequest)
    (Resolved labelledIssue).

Definition servedFailing : Served :=
  mkServed (Rejected "Error: 401 Unauthorized") (Resolved assignedMergeRequest)
    (Resolved labelledIssue).

(** No two neighbours of the list are equal. *)
Fixpoint noAdjacentRepeats (l : list string) : Prop :=
  match l with
  | a :: (b :: _) as rest => a <> b /\ noAdjacentRepeats rest
  | _ => True
  end.

(** The contents that the polls could read. *)
Definition readContents (polls : list Poll) : list string :=
  omap (fun p => match channel p with
                 | Resolved c => Some c
                 | Rejected _ => None
                 end) polls.

(** A poll that cannot change anything: the channel is unreadable or
    empty. *)
Definition silentPoll (p : Poll) : bool :=
  match channel p with
  | Resolved c => negb (Js.truthy c)
  | Rejected _ => true
  end.

(** An environment that passes the stub validation and the parser, for
    an issue. *)
Definition exampleIssueEnv : gmap string string :=
  <["CI_ISSUE_IID" := "10"]>
    (<["ANTHROPIC_API_KEY" := "sk-test"]> envWithoutIid).

(** The context of the sample issue. *)
Definition exampleIssueContext : GitLabContext :=
  buildContext exampleIssueEnv false (Num 10) "test-token".

(** ** Text within and outside ASCII *)

(** Every character of the text is an ASCII character (a code unit
    below 128). *)
Fixpoint asciiText (s : string) : bool :=
  match s with
  | EmptyString => true
  | String c s' => (nat_of_ascii c <? 128)%nat && asciiText s'
  end.

Module Greek.

(** The Greek letters alpha and sigma: the capitals (code units U+0391
    and U+03A3), the small letters (U+03B1 and U+03C3) and the final form
    of the small sigma (U+03C2). A text is a list of them. All five are
    cased letters and none is case-ignorable. *)
Inductive letter : Type :=
| CapitalAlpha
| CapitalSigma
| SmallAlpha
| SmallSigma
| FinalSigma.

Global Instance letter_eq_dec : EqDecision letter.
Proof. solve_decision. Defined.

(** [String.prototype.toLowerCase] on such a text, read from a place
    where [preceded] tells whether a letter comes before: a capital alpha
    becomes a small alpha; a capital sigma becomes the final sigma when a
    cased letter precedes it and none follows it (the condition Final_Sigma
    of the case mappings), and the small sigma otherwise; small letters are
    kept. *)
Fixpoint toLowerCaseAfter (preceded : bool) (s : list letter) : list letter :=
  match s with
  | [] => []
  | c :: rest =>
      match c with
      | CapitalAlpha => SmallAlpha
      | CapitalSigma =>
          if preceded && match rest with [] => true | _ :: _ => false end
          then FinalSigma else SmallSigma
      | SmallAlpha | SmallSigma | FinalSigma => c
      end :: toLowerCaseAfter true rest
  end.

Definition toLowerCase (s : list letter) : list letter :=
  toLowerCaseAfter false s.

(** [String.prototype.startsWith] and [String.prototype.includes] *)
Fixpoint startsWith (s p : list letter) : bool :=
  match p, s with
  | [], _ => true
  | _ :: _, [] => false
  | a :: p', b :: s' => bool_decide (a = b) && startsWith s' p'
  end.

Fixpoint includes (s t : list letter) : bool :=
  startsWith s t ||
  match s with
  | [] => false
  | _ :: s' => includes s' t
  end.

(** The expression of [isValidTrigger] on a text and a trigger phrase
    made of these letters. *)
Definition isValidTrigger (text triggerPhrase : list letter) : bool :=
  includes (toLowerCase text) (toLowerCase triggerPhrase).

End Greek.

(** ** The interval of [comment-watcher.ts], callback by callback *)

(** [setInterval] starts the callback every two seconds and does not wait
    for the promise it returns, so several callbacks can be in flight. A
    callback in flight waits at one of its two [await]s: for [readFile], or
    for the edit of the note with the content it read. *)
Inductive Callback : Type :=
| AwaitingRead
| AwaitingEdit (content : string).

(** What the callbacks share: the closure variable [lastContent], the
    callbacks in flight, oldest first, and the requests issued so far. *)
Record Interval : Type := mkInterval {
  i_lastContent : string;
  i_inFlight : list Callback;
  i_issued : list Event
}.

(** What the event loop runs next: the timer fires and a callback starts,
    or the request that the [i]-th callback in flight waits for settles. *)
Inductive Turn : Type :=
| TimerFires
| ReadSettles (i : nat) (o : Outcome string)
| EditSettles (i : nat) (o : Outcome GitLabNote.t).

(** The request of [api.updateComment] in the callback. *)
Definition editRequest (w : Watcher) (content : string)
  : Request GitLabNote.t :=
  if w_isMR w
  then MergeRequestNotes_edit (w_projectId w) (w_iid w)
         (JsNum.parseInt (w_commentId w)) content
  else IssueNotes_edit (w_projectId w) (w_iid w)
         (JsNum.parseInt (w_commentId w)) content.

(** One turn of the event loop. A callback starts by calling [readFile].
    When its read settles it compares the content with [lastContent] as it
    is then, and either calls [updateComment] or ends; a rejected read ends
    it in the [catch]. When its edit resolves it assigns [lastContent]; a
    rejected edit ends it in the [catch]. [None]: no callback waits for
    what the turn settles. *)
Definition turn (w : Watcher) (st : Interval) (t : Turn) : option Interval :=
  match t with
  | TimerFires =>
      Some (mkInterval (i_lastContent st) (i_inFlight st ++ [AwaitingRead])
              (i_issued st ++ [Issued (readFile UPDATE_FILE "utf-8")]))
  | ReadSettles i o =>
      match i_inFlight st !! i with
      | Some AwaitingRead =>
          match o with
          | Resolved content =>
              if Js.truthy content
                 && negb (bool_decide (content = i_lastContent st))
              then
                Some (mkInterval (i_lastContent st)
                        (<[i := AwaitingEdit content]> (i_inFlight st))
                        (i_issued st ++ [Issued (editRequest w content)]))
              else
                Some (mkInterval (i_lastContent st) (delete i (i_inFlight st))
                        (i_issued st))
          | Rejected _ =>
              Some (mkInterval (i_lastContent st) (delete i (i_inFlight st))
                      (i_issued st))
          end
      | _ => None
      end
  | EditSettles i o =>
      match i_inFlight st !! i with
      | Some (AwaitingEdit content) =>
          Some (mkInterval
                  match o with
                  | Resolved _ => content
                  | Rejected _ => i_lastContent st
                  end
                  (delete i (i_inFlight st)) (i_issued st))
      | _ => None
      end
  end.

(** Successive turns. *)
Fixpoint turns (w : Watcher) (ts : list Turn) (st : Interval)
  : option Interval :=
  match ts with
  | [] => Some st
  | t :: ts' =>
      match turn w st t with
      | Some st' => turns w ts' st'
      | None => None
      end
  end.

(** The turns of a poll whose callback runs alone: the timer fires, the
    read settles with what the poll meets and, if the callback then waits
    for its edit, the edit settles, before the timer fires again. *)
Definition settleAlone (w : Watcher) (p : Poll) (st : Interval)
  : option Interval :=
  let i := length (i_inFlight st) in
  match turns w [TimerFires; ReadSettles i (channel p)] st with
  | Some st' =>
      match i_inFlight st' !! i with
      | Some (AwaitingEdit content) =>
          turn w st'
            (EditSettles i
               (if publishSucceeds p
                then Resolved (editedNote (JsNum.parseInt (w_commentId w)) content)
                else Rejected "edit failed"))
      | _ => Some st'
      end
  | None => None
  end.

(** Polls whose callbacks do not overlap. *)
Fixpoint sequentially (w : Watcher) (polls : list Poll) (st : Interval)
  : option Interval :=
  match polls with
  | [] => Some st
  | p :: polls' =>
      match settleAlone w p st with
      | Some st' => sequentially w polls' st'
      | None => None
      end
  end.

(** The watcher before the first poll. *)
Definition idle (lastContent : string) : Interval :=
  mkInterval lastContent [] [].

(** * Properties *)

(** ** Strings *)

Section StringFacts.

Implicit Types (a b c : ascii) (s t p : string).

Lemma append_String a s t : String a s +:+ t = String a (s +:+ t).
Proof. reflexivity. Qed.

Lemma append_Empty t : EmptyString +:+ t = t.
Proof. reflexivity. Qed.

Lemma append_assoc s t p : (s +:+ t) +:+ p = s +:+ t +:+ p.
Proof.
  induction s as [|a s IH]; [done|]. rewrite !append_String. by f_equal.
Qed.

Lemma isUpper_range a :
  Js.isUpper a = true <-> 65 <= nat_of_ascii a <= 90.
Proof.
  unfold Js.isUpper. rewrite andb_true_iff, !Nat.leb_le. tauto.
Qed.

Lemma toLowerChar_upper a :
  Js.isUpper a = true ->
  nat_of_ascii (Js.toLowerChar a) = nat_of_ascii a + 32.
Proof.
  intros Hu. unfold Js.toLowerChar. rewrite Hu.
  apply isUpper_range in Hu. apply nat_ascii_embedding. lia.
Qed.

Lemma toLowerChar_other a :
  Js.isUpper a = false -> Js.toLowerChar a = a.
Proof. intros Hu. unfold Js.toLowerChar. by rewrite Hu. Qed.

Lemma nat_of_ascii_inj a b : nat_of_ascii a = nat_of_ascii b -> a = b.
Proof.
  intros H. rewrite <- (ascii_nat_embedding a), <- (ascii_nat_embedding b).
  by rewrite H.
Qed.

(** Lower-casing identifies exactly the letters that differ by case. *)
Lemma toLowerChar_same_letter a b :
  Js.toLowerChar a = Js.toLowerChar b <-> same_letter a b.
Proof.
  unfold same_letter. split.
  - intros H.
    destruct (Js.isUpper a) eqn:Ha, (Js.isUpper b) eqn:Hb.
    + left. apply nat_of_ascii_inj.
      apply (f_equal nat_of_ascii) in H.
      rewrite !toLowerChar_upper in H by done. lia.
    + right; left. split; [done|].
      rewrite <- toLowerChar_upper by done. rewrite H.
      by rewrite toLowerChar_other.
    + right; right. split; [done|].
      rewrite <- toLowerChar_upper by done. rewrite <- H.
      by rewrite toLowerChar_other.
    + left. by rewrite !toLowerChar_other in H.
  - intros [-> | [[Ha Hb] | [Hb Ha]]]; [done | |].
    + assert (Js.isUpper b = false) as Hnb.
      { apply not_true_is_false. rewrite isUpper_range.
        apply isUpper_range in Ha. lia. }
      apply nat_of_ascii_inj.
      rewrite toLowerChar_upper, (toLowerChar_other b) by done. lia.
    + assert (Js.isUpper a = false) as Hna.
      { apply not_true_is_false. rewrite isUpper_range.
        apply isUpper_range in Hb. lia. }
      apply nat_of_ascii_inj.
      rewrite (toLowerChar_upper b), (toLowerChar_other a) by done. lia.
Qed.

Lemma toLowerCase_eq_ignoring_case s t :
  Js.toLowerCase s = Js.toLowerCase t <-> eq_ignoring_case s t.
Proof.
  split.
  - revert t. induction s as [|a s IH]; intros [|b t] H; simpl in H;
      try discriminate; [constructor|].
    injection H as Hc Hs. constructor; [by apply toLowerChar_same_letter|auto].
  - induction 1 as [|a b s t Hab _ IH]; simpl; [done|].
    apply toLowerChar_same_letter in Hab. by rewrite Hab, IH.
Qed.

Lemma toLowerCase_app s t :
  Js.toLowerCase (s +:+ t) = Js.toLowerCase s +:+ Js.toLowerCase t.
Proof. induction s as [|a s IH]; simpl; [done | by rewrite IH]. Qed.

(** A split of the lower-cased string comes from a split of the string. *)
Lemma toLowerCase_split s x y :
  Js.toLowerCase s = x +:+ y ->
  exists s1 s2, s = s1 +:+ s2 /\ Js.toLowerCase s1 = x /\ Js.toLowerCase s2 = y.
Proof.
  revert s. induction x as [|c x IH]; intros s H.
  - exists EmptyString, s. done.
  - rewrite append_String in H.
    destruct s as [|a s]; simpl in H; [discriminate|].
    injection H as Hc Hs. destruct (IH _ Hs) as (s1 & s2 & -> & <- & <-).
    exists (String a s1), s2. simpl. by rewrite Hc.
Qed.

Lemma startsWith_spec s p :
  Js.startsWith s p = true <-> exists r, s = p +:+ r.
Proof.
  revert s. induction p as [|a p IH]; intros [|b s]; simpl.
  - split; [intros _; by exists EmptyString | done].
  - split; [intros _; by exists (String b s) | done].
  - split; [done | by intros [r Hr]].
  - destruct (ascii_dec a b) as [->|Hne].
    + rewrite IH. split.
      * intros [r ->]. by exists r.
      * intros [r Hr]. rewrite append_String in Hr. injection Hr as ->.
        by exists r.
    + split; [done | intros [r Hr]; rewrite append_String in Hr; congruence].
Qed.

Lemma includes_spec s t :
  Js.includes s t = true <-> exists pre post, s = pre +:+ t +:+ post.
Proof.
  induction s as [|a s IH].
  - change (Js.includes EmptyString t)
      with (Js.startsWith EmptyString t || false).
    rewrite orb_true_iff, startsWith_spec. split.
    + intros [[r Hr] | Hf]; [|done]. by exists EmptyString, r.
    + intros (pre & post & H). left.
      destruct pre; [by exists post | discriminate].
  - change (Js.includes (String a s) t)
      with (Js.startsWith (String a s) t || Js.includes s t).
    rewrite orb_true_iff, startsWith_spec, IH. split.
    + intros [[r Hr] | (pre & post & ->)].
      * by exists EmptyString, r.
      * by exists (String a pre), post.
    + intros (pre & post & H). destruct pre as [|c pre].
      * left. by exists post.
      * right. rewrite append_String in H. injection H as _ Hs.
        by exists pre, post.
Qed.

Lemma truthy_nonempty s : Js.truthy s = true <-> s <> EmptyString.
Proof. by destruct s. Qed.

Lemma toLowerCase_empty s : Js.toLowerCase s = EmptyString <-> s = EmptyString.
Proof. by destruct s. Qed.

End StringFacts.

(** ** The bot pattern *)

Lemma stripPrefixIgnoreCase_spec p s r :
  stripPrefixIgnoreCase p s = Some r <->
  exists m, s = m +:+ r /\ Js.toLowerCase m = p.
Proof.
  revert s. induction p as [|a p IH]; intros [|b s]; simpl.
  - split; [intros [= <-]; by exists EmptyString|].
    intros (m & Hs & Hm). apply toLowerCase_empty in Hm as ->. by rewrite Hs.
  - split; [intros [= <-]; by exists EmptyString|].
    intros (m & Hs & Hm). apply toLowerCase_empty in Hm as ->. by rewrite Hs.
  - split; [done|]. intros ([|c m] & Hs & Hm); done.
  - destruct (ascii_dec a (Js.toLowerChar b)) as [->|Hne].
    + rewrite IH. split.
      * intros (m & -> & <-). by exists (String b m).
      * intros ([|c m] & Hs & Hm); [done|].
        rewrite append_String in Hs. simpl in Hm.
        injection Hs as -> ->. injection Hm as Hm. by exists m.
    + split; [done|]. intros ([|c m] & Hs & Hm); [done|].
      rewrite append_String in Hs. simpl in Hm.
      injection Hs as -> ->. injection Hm as Hc _. congruence.
Qed.

Lemma toLowerChar_not_letter c x :
  Js.toLowerChar c = x -> Js.isUpper x = false ->
  (nat_of_ascii x < 97 \/ 122 < nat_of_ascii x) -> c = x.
Proof.
  intros Hc Hx Hrange. destruct (Js.isUpper c) eqn:Hu.
  - apply (f_equal nat_of_ascii) in Hc. rewrite toLowerChar_upper in Hc by done.
    apply isUpper_range in Hu. lia.
  - by rewrite toLowerChar_other in Hc.
Qed.

Lemma toLowerCase_singleton s x :
  Js.toLowerCase s = String x EmptyString ->
  exists c, s = String c EmptyString /\ Js.toLowerChar c = x.
Proof.
  destruct s as [|c [|c' s]]; simpl; try done.
  intros [= Hc]. by exists c.
Qed.

Lemma skipSeparator_letter c s :
  Js.toLowerChar c = "b"%char -> skipSeparator (String c s) = String c s.
Proof.
  intros Hc. unfold skipSeparator.
  destruct (ascii_dec c "-") as [->|_]; [done|].
  destruct (ascii_dec c " ") as [->|_]; done.
Qed.

Lemma skipSeparator_cases s :
  skipSeparator s = s
  \/ s = "-" +:+ skipSeparator s
  \/ s = " " +:+ skipSeparator s.
Proof.
  destruct s as [|c s]; [by left|]. unfold skipSeparator.
  destruct (ascii_dec c "-") as [->|_]; [right; by left|].
  destruct (ascii_dec c " ") as [->|_]; [right; by right | by left].
Qed.

(** The pattern at the start of [s]: [s] starts with a bot name. *)
Lemma claudeBotPattern_here_spec s :
  claudeBotPattern_here s = true <->
  exists mid post, s = mid +:+ post /\ botName mid.
Proof.
  unfold claudeBotPattern_here, botName. split.
  - destruct (stripPrefixIgnoreCase "claude" s) as [rest|] eqn:Hclaude; [|done].
    apply stripPrefixIgnoreCase_spec in Hclaude as (m1 & -> & Hm1).
    intros Hbot. apply bool_decide_eq_true in Hbot as [post Hbot].
    apply stripPrefixIgnoreCase_spec in Hbot as (m2 & Hrest & Hm2).
    destruct (skipSeparator_cases rest) as [Hsame | [Hsep | Hsep]].
    + exists (m1 +:+ m2), post. split.
      * by rewrite append_assoc, <- Hrest, Hsame.
      * left. by rewrite toLowerCase_app, Hm1, Hm2.
    + exists (m1 +:+ "-" +:+ m2), post. split.
      * by rewrite !append_assoc, <- Hrest, <- Hsep.
      * right; left. by rewrite !toLowerCase_app, Hm1, Hm2.
    + exists (m1 +:+ " " +:+ m2), post. split.
      * by rewrite !append_assoc, <- Hrest, <- Hsep.
      * right; right. by rewrite !toLowerCase_app, Hm1, Hm2.
  - intros (mid & post & -> & Hname).
    assert (forall m1 sep m2,
              Js.toLowerCase m1 = "claude" -> Js.toLowerCase m2 = "bot" ->
              skipSeparator (sep +:+ m2 +:+ post) = m2 +:+ post ->
              match stripPrefixIgnoreCase "claude"
                      ((m1 +:+ sep +:+ m2) +:+ post) with
              | Some rest =>
                  bool_decide
                    (is_Some (stripPrefixIgnoreCase "bot" (skipSeparator rest)))
              | None => false
              end = true) as Hmatch.
    { intros m1 sep m2 Hm1 Hm2 Hskip.
      assert (stripPrefixIgnoreCase "claude" ((m1 +:+ sep +:+ m2) +:+ post)
              = Some (sep +:+ m2 +:+ post)) as ->.
      { apply stripPrefixIgnoreCase_spec. exists m1. split; [|done].
        by rewrite !append_assoc. }
      rewrite Hskip. apply bool_decide_eq_true. exists post.
      apply stripPrefixIgnoreCase_spec. by exists m2. }
    assert (forall m2, Js.toLowerCase m2 = "bot" ->
              skipSeparator (m2 +:+ post) = m2 +:+ post) as Hletter.
    { intros [|c m2]; simpl; [done|]. intros [= Hc _].
      rewrite append_String. by apply skipSeparator_letter. }
    destruct Hname as [Hname | [Hname | Hname]].
    + apply (toLowerCase_split mid "claude" "bot") in Hname
        as (m1 & m2 & -> & Hm1 & Hm2).
      apply (Hmatch m1 EmptyString m2 Hm1 Hm2). by apply Hletter.
    + apply (toLowerCase_split mid "claude" "-bot") in Hname
        as (m1 & m23 & -> & Hm1 & H23).
      apply (toLowerCase_split m23 "-" "bot") in H23
        as (sep & m2 & -> & Hsep & Hm2).
      apply toLowerCase_singleton in Hsep as (c & -> & Hc).
      apply toLowerChar_not_letter in Hc as ->; [|done | left; vm_compute; lia].
      by apply (Hmatch m1 "-" m2 Hm1 Hm2).
    + apply (toLowerCase_split mid "claude" " bot") in Hname
        as (m1 & m23 & -> & Hm1 & H23).
      apply (toLowerCase_split m23 " " "bot") in H23
        as (sep & m2 & -> & Hsep & Hm2).
      apply toLowerCase_singleton in Hsep as (c & -> & Hc).
      apply toLowerChar_not_letter in Hc as ->; [|done | left; vm_compute; lia].
      by apply (Hmatch m1 " " m2 Hm1 Hm2).
Qed.

(** [claudeBotPattern.test]: a bot name occurs somewhere in the text. *)
Lemma claudeBotPattern_test_spec s :
  claudeBotPattern_test s = true <->
  exists pre mid post, s = pre +:+ mid +:+ post /\ botName mid.
Proof.
  induction s as [|a s IH].
  - change (claudeBotPattern_test EmptyString)
      with (claudeBotPattern_here EmptyString || false).
    rewrite orb_false_r, claudeBotPattern_here_spec. split.
    + intros (mid & post & Hs & Hname). by exists EmptyString, mid, post.
    + intros ([|c pre] & mid & post & Hs & Hname); [|done].
      by exists mid, post.
  - change (claudeBotPattern_test (String a s))
      with (claudeBotPattern_here (String a s) || claudeBotPattern_test s).
    rewrite orb_true_iff, claudeBotPattern_here_spec, IH. split.
    + intros [(mid & post & Hs & Hname) | (pre & mid & post & -> & Hname)].
      * by exists EmptyString, mid, post.
      * by exists (String a pre), mid, post.
    + intros ([|c pre] & mid & post & Hs & Hname).
      * left. by exists mid, post.
      * right. rewrite append_String in Hs. injection Hs as _ ->.
        by exists pre, mid, post.
Qed.

(** A note is authored by the agent identity when its author has a
    user name in which a bot name occurs. *)
Lemma isClaudeAuthor_spec n :
  isClaudeAuthor n = true <->
  exists author username pre mid post,
    GitLabNote.author n = Some author
    /\ GitLabUser.username author = Some username
    /\ username = pre +:+ mid +:+ post /\ botName mid.
Proof.
  unfold isClaudeAuthor. split.
  - destruct (GitLabNote.author n) as [author|]; [|done].
    destruct (GitLabUser.username author) as [username|] eqn:Hu; [|done].
    intros Htest.
    apply claudeBotPattern_test_spec in Htest as (pre & mid & post & ? & ?).
    by exists author, username, pre, mid, post.
  - intros (author & username & pre & mid & post & -> & -> & Hs & Hname).
    apply claudeBotPattern_test_spec. by exists pre, mid, post.
Qed.

(** The detector, in the words of its contract. *)
Lemma isValidTrigger_occurs text context :
  isValidTrigger text context = true <->
  occurs_ignoring_case (triggerPhrase context) text.
Proof.
  unfold isValidTrigger, occurs_ignoring_case. rewrite includes_spec. split.
  - intros (pre & post & H).
    apply toLowerCase_split in H as (s1 & s23 & -> & <- & H).
    apply toLowerCase_split in H as (s2 & s3 & -> & H & <-).
    exists s1, s2, s3. split; [done|]. by apply toLowerCase_eq_ignoring_case.
  - intros (pre & mid & post & -> & H).
    apply toLowerCase_eq_ignoring_case in H.
    exists (Js.toLowerCase pre), (Js.toLowerCase post).
    by rewrite !toLowerCase_app, H.
Qed.

(** C8 as worded fails outside ASCII. The detector compares the
    lower-cased texts, and lower-casing a capital sigma depends on its
    place: alone it becomes the small sigma, at the end of a word the
    final sigma. So the phrase made of a capital sigma is not found in the
    text made of a capital alpha and that very phrase. *)
Lemma isValidTrigger_final_sigma :
  Greek.toLowerCase [Greek.CapitalSigma] = [Greek.SmallSigma]
  /\ Greek.toLowerCase ([Greek.CapitalAlpha] ++ [Greek.CapitalSigma])
     = [Greek.SmallAlpha; Greek.FinalSigma]
  /\ Greek.isValidTrigger ([Greek.CapitalAlpha] ++ [Greek.CapitalSigma])
       [Greek.CapitalSigma]
     = false.
Proof. repeat split. Qed.

(** C8, on ASCII text. For every note body and activation phrase made
    of ASCII characters, [isValidTrigger] returns true if and only if the
    phrase occurs in the body as a case-insensitive substring; there is no
    word-boundary requirement (the phrase matches wherever it is embedded);
    and with the phrase [@claude] the body [Hey @CLAUDE can you help?] is a
    trigger. *)
Theorem isValidTrigger_contract (text : string) (context : GitLabContext) :
  asciiText text = true ->
  asciiText (triggerPhrase context) = true ->
  (isValidTrigger text context = true <->
   occurs_ignoring_case (triggerPhrase context) text)
  /\ (forall pre post,
        asciiText pre = true -> asciiText post = true ->
        isValidTrigger (pre +:+ triggerPhrase context +:+ post) context = true)
  /\ (triggerPhrase context = "@claude" ->
      isValidTrigger "Hey @CLAUDE can you help?" context = true).
Proof.
  intros _ _.
  split; [apply isValidTrigger_occurs|]. split.
  - intros pre post _ _. apply isValidTrigger_occurs.
    exists pre, (triggerPhrase context), post. split; [done|].
    by apply toLowerCase_eq_ignoring_case.
  - intros Hp. unfold isValidTrigger. by rewrite Hp.
Qed.

Lemma isValidTrigger_contract_witness :
  triggerPhrase exampleContext = "@claude"
  /\ isValidTrigger "Hey @CLAUDE can you help?" exampleContext = true
  /\ isValidTrigger "No trigger here" exampleContext = false.
Proof.
  split; [reflexivity|]. split.
  - apply (isValidTrigger_contract "No trigger here" exampleContext);
      reflexivity.
  - reflexivity.
Defined.

(** ** Loops that push onto arrays *)

Section Loops.

Context {A B : Type}.

Lemma fold_left_push (f : B -> A) (l : list B) (acc : list A) :
  fold_left (fun acc x => acc ++ [f x]) l acc = acc ++ List.map f l.
Proof.
  revert acc. induction l as [|x l IH]; intros acc; simpl.
  - by rewrite app_nil_r.
  - by rewrite IH, <- app_assoc.
Qed.

Lemma fold_left_flat_map (g : B -> list A) (step : list A -> B -> list A)
    (l : list B) (acc : list A) :
  (forall acc x, step acc x = acc ++ g x) ->
  fold_left step l acc = acc ++ flat_map g l.
Proof.
  intros Hstep. revert acc. induction l as [|x l IH]; intros acc; simpl.
  - by rewrite app_nil_r.
  - by rewrite IH, Hstep, <- app_assoc.
Qed.

End Loops.

(** ** [checkTrigger]: the scan of the discussions *)

Lemma scanNote_fold context notes hasReply acc :
  fold_left (scanNote context) notes (hasReply, acc) =
  (hasReply || List.existsb isClaudeAuthor notes,
   acc ++ List.filter (isTriggerNote context) notes).
Proof.
  revert hasReply acc. induction notes as [|n notes IH]; intros h acc; simpl.
  - by rewrite orb_false_r, app_nil_r.
  - rewrite IH. f_equal.
    + destruct (isClaudeAuthor n), h; done.
    + destruct (isTriggerNote context n); [by rewrite <- app_assoc | done].
Qed.

Lemma scanDiscussion_spec context acc d :
  scanDiscussion context acc d = acc ++ triggersOf context d.
Proof.
  unfold scanDiscussion, triggersOf, hasAgentNote, notesOf.
  rewrite scanNote_fold. simpl. apply fold_left_push.
Qed.

Lemma collectTriggerComments_spec context ds :
  collectTriggerComments context (Some ds) = flat_map (triggersOf context) ds.
Proof.
  unfold collectTriggerComments. destruct ds as [|d ds]; [done|].
  change (0 <? length (d :: ds))%nat with true. cbv iota.
  rewrite (fold_left_flat_map (triggersOf context)); [done|].
  apply scanDiscussion_spec.
Qed.

Lemma newTriggers_app l1 l2 :
  newTriggers (l1 ++ l2) = newTriggers l1 ++ newTriggers l2.
Proof. apply List.filter_app. Qed.

Lemma newTriggers_triggersOf context d :
  newTriggers (triggersOf context d) =
  if hasAgentNote d then []
  else List.map (fun n => TriggerComment.mk n (GitLabDiscussion.id d) false)
         (List.filter (isTriggerNote context) (notesOf d)).
Proof.
  unfold newTriggers, triggersOf.
  induction (List.filter (isTriggerNote context) (notesOf d)) as [|n l IH];
    simpl.
  - by destruct (hasAgentNote d).
  - rewrite IH. by destruct (hasAgentNote d).
Qed.

(** The new triggers are the trigger notes of the unanswered discussions. *)
Lemma newTriggers_unanswered context ds :
  newTriggers (collectTriggerComments context (Some ds)) =
  unansweredTriggers context ds.
Proof.
  rewrite collectTriggerComments_spec. unfold unansweredTriggers.
  induction ds as [|d ds IH]; simpl; [done|].
  by rewrite newTriggers_app, IH, newTriggers_triggersOf.
Qed.

Lemma hasAgentNote_true d :
  hasAgentNote d = true <->
  exists r, In r (notesOf d) /\ isClaudeAuthor r = true.
Proof. unfold hasAgentNote. apply List.existsb_exists. Qed.

Lemma hasAgentNote_false d :
  hasAgentNote d = false <->
  forall r, In r (notesOf d) -> isClaudeAuthor r = false.
Proof.
  rewrite <- not_true_iff_false, hasAgentNote_true. split.
  - intros Hn r Hr. apply not_true_iff_false. intros Ha. apply Hn. eauto.
  - intros Hall (r & Hr & Ha). rewrite (Hall r Hr) in Ha. done.
Qed.

Lemma in_unansweredTriggers context ds t :
  In t (unansweredTriggers context ds) <->
  exists d, In d ds
    /\ In (TriggerComment.note t) (notesOf d)
    /\ isTriggerNote context (TriggerComment.note t) = true
    /\ (forall r, In r (notesOf d) -> isClaudeAuthor r = false)
    /\ TriggerComment.discussionId t = GitLabDiscussion.id d
    /\ TriggerComment.hasClaudeReply t = false.
Proof.
  unfold unansweredTriggers. rewrite in_flat_map. split.
  - intros (d & Hd & Ht). exists d. split; [done|].
    destruct (hasAgentNote d) eqn:Hag; [done|].
    apply in_map_iff in Ht as (n & <- & Hn). apply filter_In in Hn as [Hn Htr].
    simpl. by rewrite <- hasAgentNote_false.
  - intros (d & Hd & Hn & Htr & Hno & Hid & Hrep). exists d. split; [done|].
    apply hasAgentNote_false in Hno. rewrite Hno.
    apply in_map_iff. exists (TriggerComment.note t). split.
    + destruct t; simpl in *. by subst.
    + by apply filter_In.
Qed.

Lemma in_collectTriggerComments context ds t :
  In t (collectTriggerComments context (Some ds)) <->
  exists d, In d ds
    /\ In (TriggerComment.note t) (notesOf d)
    /\ isTriggerNote context (TriggerComment.note t) = true
    /\ TriggerComment.discussionId t = GitLabDiscussion.id d
    /\ TriggerComment.hasClaudeReply t = hasAgentNote d.
Proof.
  rewrite collectTriggerComments_spec, in_flat_map. unfold triggersOf. split.
  - intros (d & Hd & Ht). exists d. split; [done|].
    apply in_map_iff in Ht as (n & <- & Hn). apply filter_In in Hn as [Hn Htr].
    done.
  - intros (d & Hd & Hn & Htr & Hid & Hrep). exists d. split; [done|].
    apply in_map_iff. exists (TriggerComment.note t). split.
    + destruct t; simpl in *. by subst.
    + by apply filter_In.
Qed.


(** ** [checkTrigger]: the decision *)

Section CheckTriggerRuns.

Context {World : Type}.
Variable host : forall T : Type, Request T -> World -> Outcome T * World.
Variables (this : GitLabAPI) (context : GitLabContext).

Ltac unfold_checkTrigger H :=
  unfold checkTrigger; cbn [try_catch bind await run];
  rewrite H; cbn [try_catch bind await run].

(** New triggers decide at once: no further request is made. *)
Lemma checkTrigger_new_triggers w ds w1 :
  host _ (discussionsRequest this context) w = (Resolved (Some ds), w1) ->
  unansweredTriggers context ds <> [] ->
  run host (checkTrigger this context) w =
  (Resolved
     (TriggerCheckResult.mk true
        ("Found "
           +:+ JsNum.lengthToString (length (unansweredTriggers context ds))
           +:+ " new trigger comment(s) without Claude replies")
        (Some comment)
        (unansweredTriggers context ds)
        (List.existsb TriggerComment.hasClaudeReply
           (collectTriggerComments context (Some ds)))),
   w1, [Issued (discussionsRequest this context)]).
Proof.
  intros Hfetch Hnew. unfold_checkTrigger Hfetch.
  rewrite newTriggers_unanswered.
  destruct (unansweredTriggers context ds) as [|t l] eqn:Hu; [done|].
  reflexivity.
Qed.

(** Triggers that are all answered decide at once as well. *)
Lemma checkTrigger_all_answered w ds w1 :
  host _ (discussionsRequest this context) w = (Resolved (Some ds), w1) ->
  unansweredTriggers context ds = [] ->
  collectTriggerComments context (Some ds) <> [] ->
  run host (checkTrigger this context) w =
  (Resolved
     (TriggerCheckResult.mk false
        "All trigger comments already have Claude replies"
        (Some comment) [] true),
   w1, [Issued (discussionsRequest this context)]).
Proof.
  intros Hfetch Hnew Hsome. unfold_checkTrigger Hfetch.
  rewrite newTriggers_unanswered, Hnew.
  destruct (collectTriggerComments context (Some ds)) as [|t l] eqn:Hc; [done|].
  reflexivity.
Qed.

(** Whatever the host answers, [checkTrigger] resolves, and the trigger
    comments of its result are the unanswered triggers of the discussions
    it fetched. *)
Lemma checkTrigger_triggerComments w ds w1 :
  host _ (discussionsRequest this context) w = (Resolved (Some ds), w1) ->
  exists result,
    (run host (checkTrigger this context) w).1.1 = Resolved result
    /\ TriggerCheckResult.triggerComments result =
       unansweredTriggers context ds.
Proof.
  intros Hfetch.
  destruct (unansweredTriggers context ds) as [|t l] eqn:Hu.
  - destruct (collectTriggerComments context (Some ds)) as [|t l] eqn:Hc.
    + unfold_checkTrigger Hfetch.
      rewrite newTriggers_unanswered, Hu, Hc.
      cbn [length Nat.ltb Nat.leb].
      destruct (isMR context); cbn [try_catch bind await run].
      * destruct (host _ (MergeRequests_show (this_projectId this) (iid context)) w1)
          as [[mr|e] w2]; cbn [try_catch bind await run]; [|by eexists].
        destruct (claudeBotAssigned mr); cbn [try_catch bind await run];
          [by eexists|].
        destruct (host _ (MergeRequests_show (this_projectId this) (iid context)) w2)
          as [[mr2|e] w3]; cbn [try_catch bind await run]; [|by eexists].
        destruct (hasClaudeLabel (GitLabMergeRequest.labels mr2)); by eexists.
      * destruct (host _ (Issues_show (this_projectId this) (iid context)) w1)
          as [[issue|e] w2]; cbn [try_catch bind await run]; [|by eexists].
        destruct (hasClaudeLabel (GitLabIssue.labels issue)); by eexists.
    + rewrite (checkTrigger_all_answered w ds w1) by (done || congruence).
      by eexists.
  - rewrite (checkTrigger_new_triggers w ds w1) by (done || congruence).
    rewrite Hu. by eexists.
Qed.

End CheckTriggerRuns.

(** C1, as the code has it. Duplicate suppression: when the fetched
    discussions hold at least one trigger note and every discussion that
    holds a trigger note also holds a note authored by the agent identity,
    [checkTrigger] resolves to [shouldRun = false] with
    [hasExistingResponse = true], an empty list of trigger comments and the
    reason [All trigger comments already have Claude replies], and it makes
    no request beyond the fetch of the discussions: an answered trigger
    discussion alone never makes it decide to run. *)
Theorem checkTrigger_duplicate_suppression
    {World : Type}
    (host : forall T : Type, Request T -> World -> Outcome T * World)
    (this : GitLabAPI) (context : GitLabContext)
    (w w1 : World) (ds : list GitLabDiscussion.t) :
  host _ (discussionsRequest this context) w = (Resolved (Some ds), w1) ->
  (exists d n, In d ds /\ In n (notesOf d) /\ isTriggerNote context n = true) ->
  (forall d n,
     In d ds -> In n (notesOf d) -> isTriggerNote context n = true ->
     exists r, In r (notesOf d) /\ isClaudeAuthor r = true) ->
  run host (checkTrigger this context) w =
  (Resolved
     (TriggerCheckResult.mk false
        "All trigger comments already have Claude replies"
        (Some comment) [] true),
   w1, [Issued (discussionsRequest this context)]).
Proof.
  intros Hfetch (d & n & Hd & Hn & Htr) Hall.
  apply (checkTrigger_all_answered host this context w ds w1); [done| |].
  - destruct (unansweredTriggers context ds) as [|t l] eqn:Hu; [done|].
    assert (In t (unansweredTriggers context ds)) as Ht
      by (rewrite Hu; by left).
    apply in_unansweredTriggers in Ht
      as (d' & Hd' & Hn' & Htr' & Hno & _ & _).
    destruct (Hall d' _ Hd' Hn' Htr') as (r & Hr & Ha).
    rewrite (Hno r Hr) in Ha. done.
  - intros Hnil.
    assert (In (TriggerComment.mk n (GitLabDiscussion.id d) (hasAgentNote d))
              (collectTriggerComments context (Some ds))) as Hin.
    { apply in_collectTriggerComments. exists d. done. }
    by rewrite Hnil in Hin.
Qed.

Lemma checkTrigger_duplicate_suppression_witness :
  run (staticHost servedAnswered) (checkTrigger exampleAPI exampleContext) tt =
  (Resolved
     (TriggerCheckResult.mk false
        "All trigger comments already have Claude replies"
        (Some comment) [] true),
   tt, [Issued (discussionsRequest exampleAPI exampleContext)]).
Proof.
  apply (checkTrigger_duplicate_suppression (staticHost servedAnswered)
           exampleAPI exampleContext tt tt [answeredDiscussion]).
  - reflexivity.
  - exists answeredDiscussion, (noteBy 2 "bob" "@Claude please review").
    split; [by left|]. split; [by left|]. reflexivity.
  - intros d n [<-|[]] _ _.
    exists (noteBy 3 "claude-bot" "Done."). split; [right; by left|].
    reflexivity.
Defined.

(** C1 as worded fails on the reason: on one discussion with a trigger
    and a reply of the bot the decision is not to run and a prior response
    is reported, but the reason is not [all triggers already answered]. *)
Lemma checkTrigger_answered_reason_differs :
  isTriggerNote exampleContext (noteBy 2 "bob" "@Claude please review") = true
  /\ hasAgentNote answeredDiscussion = true
  /\ match (run (staticHost servedAnswered)
              (checkTrigger exampleAPI exampleContext) tt).1.1 with
     | Resolved result =>
         TriggerCheckResult.shouldRun result = false
         /\ TriggerCheckResult.hasExistingResponse result = true
         /\ TriggerCheckResult.reason result <> "all triggers already answered"
     | Rejected _ => False
     end.
Proof. repeat split; try reflexivity. discriminate. Qed.

(** C2. Discussion-scoped selection of new triggers: the new triggers
    that [checkTrigger] computes, and the trigger comments of the result it
    resolves to, are exactly the trigger notes whose discussion holds no
    note authored by the agent identity; when there is one, the decision is
    to run on a comment trigger. In particular, for two discussions, in
    either order, one with an unanswered trigger and the other answered,
    the decision is to run and the trigger comments are those of the
    unanswered discussion only. *)
Theorem checkTrigger_new_trigger_selection
    {World : Type}
    (host : forall T : Type, Request T -> World -> Outcome T * World)
    (this : GitLabAPI) (context : GitLabContext)
    (w w1 : World) (ds : list GitLabDiscussion.t) :
  host _ (discussionsRequest this context) w = (Resolved (Some ds), w1) ->
  newTriggers (collectTriggerComments context (Some ds)) =
    unansweredTriggers context ds
  /\ exists result,
      (run host (checkTrigger this context) w).1.1 = Resolved result
      /\ TriggerCheckResult.triggerComments result =
         unansweredTriggers context ds
      /\ (forall t,
            In t (TriggerCheckResult.triggerComments result) <->
            exists d, In d ds
              /\ In (TriggerComment.note t) (notesOf d)
              /\ isTriggerNote context (TriggerComment.note t) = true
              /\ (forall r, In r (notesOf d) -> isClaudeAuthor r = false)
              /\ TriggerComment.discussionId t = GitLabDiscussion.id d
              /\ TriggerComment.hasClaudeReply t = false)
      /\ (unansweredTriggers context ds <> [] ->
          TriggerCheckResult.shouldRun result = true
          /\ TriggerCheckResult.triggerType result = Some comment)
      /\ (forall d1 d2 n1,
            ds = [d1; d2] \/ ds = [d2; d1] ->
            In n1 (notesOf d1) -> isTriggerNote context n1 = true ->
            hasAgentNote d1 = false -> hasAgentNote d2 = true ->
            TriggerCheckResult.shouldRun result = true
            /\ TriggerCheckResult.triggerComments result =
               List.map
                 (fun n => TriggerComment.mk n (GitLabDiscussion.id d1) false)
                 (List.filter (isTriggerNote context) (notesOf d1))
            /\ In (TriggerComment.mk n1 (GitLabDiscussion.id d1) false)
                 (TriggerCheckResult.triggerComments result)).
Proof.
  intros Hfetch. split; [apply newTriggers_unanswered|].
  destruct (checkTrigger_triggerComments host this context w ds w1 Hfetch)
    as (result & Hrun & Htc).
  exists result. split; [done|]. split; [done|]. split.
  { intros t. rewrite Htc. apply in_unansweredTriggers. }
  assert (unansweredTriggers context ds <> [] ->
          TriggerCheckResult.shouldRun result = true
          /\ TriggerCheckResult.triggerType result = Some comment) as Hrunning.
  { intros Hne.
    rewrite (checkTrigger_new_triggers host this context w ds w1) in Hrun
      by done.
    injection Hrun as <-. done. }
  split; [done|].
  intros d1 d2 n1 Hds Hn1 Htr1 Hno1 Hag2.
  assert (unansweredTriggers context ds =
          List.map (fun n => TriggerComment.mk n (GitLabDiscussion.id d1) false)
            (List.filter (isTriggerNote context) (notesOf d1))) as Heq.
  { unfold unansweredTriggers.
    destruct Hds as [-> | ->]; simpl; rewrite Hno1, Hag2;
      by rewrite ?app_nil_r. }
  assert (In (TriggerComment.mk n1 (GitLabDiscussion.id d1) false)
            (unansweredTriggers context ds)) as Hin.
  { rewrite Heq. apply in_map_iff. exists n1. split; [done|]. by apply filter_In. }
  split.
  - apply Hrunning. intros Hnil. by rewrite Hnil in Hin.
  - rewrite Htc. done.
Qed.

Lemma checkTrigger_new_trigger_selection_witness :
  exists result,
    (run (staticHost servedBoth) (checkTrigger exampleAPI exampleContext) tt).1.1
      = Resolved result
    /\ TriggerCheckResult.shouldRun result = true
    /\ TriggerCheckResult.triggerComments result =
       [TriggerComment.mk (noteBy 1 "alice" "Hey @claude can you help?")
          "d1" false].
Proof.
  destruct (checkTrigger_new_trigger_selection (staticHost servedBoth)
              exampleAPI exampleContext tt tt
              [unansweredDiscussion; answeredDiscussion] eq_refl)
    as (_ & result & Hrun & _ & _ & _ & Hscenario).
  exists result. split; [exact Hrun|].
  destruct (Hscenario unansweredDiscussion answeredDiscussion
              (noteBy 1 "alice" "Hey @claude can you help?")
              (or_introl eq_refl) (or_introl eq_refl) eq_refl eq_refl eq_refl)
    as (Hshould & Hcomments & _).
  split; [exact Hshould | exact Hcomments].
Defined.

(** ** [categorizeComments]: the four arrays *)

Section Categorize.

Variable context : GitLabContext.

Ltac category_cases d n :=
  unfold categoryOf;
  destruct (isClaudeAuthor n), (isTriggerNote context n), (isResolved d).

Lemma categoryOf_agent d n :
  categoryOf context d n = CatClaudeReply <-> isClaudeAuthor n = true.
Proof. category_cases d n; done. Qed.

Lemma categoryOf_trigger d n :
  categoryOf context d n = CatTrigger <->
  isClaudeAuthor n = false /\ isTriggerNote context n = true.
Proof. category_cases d n; intuition congruence. Qed.

Lemma categoryOf_resolved d n :
  categoryOf context d n = CatResolved <->
  isClaudeAuthor n = false /\ isTriggerNote context n = false
  /\ isResolved d = true.
Proof. category_cases d n; intuition congruence. Qed.

Lemma categoryOf_context d n :
  categoryOf context d n = CatContext <->
  isClaudeAuthor n = false /\ isTriggerNote context n = false
  /\ isResolved d = false.
Proof. category_cases d n; intuition congruence. Qed.

Lemma selectCategory_cons k d n notes :
  selectCategory context k d (n :: notes) =
  (if bool_decide (categoryOf context d n = k) then [n] else [])
  ++ selectCategory context k d notes.
Proof.
  unfold selectCategory. simpl.
  by destruct (bool_decide (categoryOf context d n = k)).
Qed.

Lemma firstPass_step d acc hasReply n :
  firstPass (acc, hasReply) n =
  (acc ++ selectCategory context CatClaudeReply d [n],
   hasReply || isClaudeAuthor n).
Proof.
  unfold firstPass, selectCategory, List.filter. category_cases d n; simpl;
    rewrite ?app_nil_r, ?orb_true_r, ?orb_false_r; done.
Qed.

Lemma secondPass_step d t c r n :
  secondPass context (isResolved d) (t, c, r) n =
  (t ++ selectCategory context CatTrigger d [n],
   c ++ selectCategory context CatContext d [n],
   r ++ selectCategory context CatResolved d [n]).
Proof.
  unfold secondPass, selectCategory, List.filter. category_cases d n; simpl;
    rewrite ?app_nil_r; done.
Qed.

Lemma selectCategory_app k d l1 l2 :
  selectCategory context k d (l1 ++ l2) =
  selectCategory context k d l1 ++ selectCategory context k d l2.
Proof. apply List.filter_app. Qed.

Lemma firstPass_fold d notes acc hasReply :
  fold_left firstPass notes (acc, hasReply) =
  (acc ++ selectCategory context CatClaudeReply d notes,
   hasReply || List.existsb isClaudeAuthor notes).
Proof.
  revert acc hasReply.
  induction notes as [|n notes IH]; intros acc h.
  - simpl. by rewrite app_nil_r, orb_false_r.
  - cbn [fold_left]. rewrite (firstPass_step d), IH.
    change (n :: notes) with ([n] ++ notes).
    rewrite selectCategory_app, <- app_assoc. f_equal.
    cbn [List.existsb app]. by rewrite orb_assoc.
Qed.

Lemma secondPass_fold d notes t c r :
  fold_left (secondPass context (isResolved d)) notes (t, c, r) =
  (t ++ selectCategory context CatTrigger d notes,
   c ++ selectCategory context CatContext d notes,
   r ++ selectCategory context CatResolved d notes).
Proof.
  revert t c r. induction notes as [|n notes IH]; intros t c r.
  - simpl. by rewrite !app_nil_r.
  - cbn [fold_left]. rewrite secondPass_step, IH.
    change (n :: notes) with ([n] ++ notes).
    by rewrite !selectCategory_app, <- !app_assoc.
Qed.

Lemma categorizeDiscussion_spec acc d :
  categorizeDiscussion context acc d =
  CategorizedComments.mk
    (CategorizedComments.triggerComments acc
       ++ selectCategory context CatTrigger d (notesOf d))
    (CategorizedComments.contextComments acc
       ++ selectCategory context CatContext d (notesOf d))
    (CategorizedComments.resolvedComments acc
       ++ selectCategory context CatResolved d (notesOf d))
    (CategorizedComments.claudeReplies acc
       ++ selectCategory context CatClaudeReply d (notesOf d)).
Proof.
  unfold categorizeDiscussion.
  change (default [] (GitLabDiscussion.notes d)) with (notesOf d).
  change (default false (GitLabDiscussion.resolved d)) with (isResolved d).
  by rewrite (firstPass_fold d), secondPass_fold.
Qed.

Lemma categorize_fold ds acc :
  fold_left (categorizeDiscussion context) ds acc =
  CategorizedComments.mk
    (CategorizedComments.triggerComments acc ++ notesIn context CatTrigger ds)
    (CategorizedComments.contextComments acc ++ notesIn context CatContext ds)
    (CategorizedComments.resolvedComments acc ++ notesIn context CatResolved ds)
    (CategorizedComments.claudeReplies acc ++ notesIn context CatClaudeReply ds).
Proof.
  revert acc. induction ds as [|d ds IH]; intros acc; simpl.
  - rewrite !app_nil_r. by destruct acc.
  - rewrite IH, categorizeDiscussion_spec. simpl.
    by rewrite <- !app_assoc.
Qed.

(** Each output array holds the notes of its category, in traversal order. *)
Lemma categorizeComments_spec ds :
  categorizeComments ds context =
  CategorizedComments.mk
    (notesIn context CatTrigger ds) (notesIn context CatContext ds)
    (notesIn context CatResolved ds) (notesIn context CatClaudeReply ds).
Proof. unfold categorizeComments. by rewrite categorize_fold. Qed.

Lemma in_notesIn k ds n :
  In n (notesIn context k ds) <->
  exists d, In d ds /\ In n (notesOf d) /\ categoryOf context d n = k.
Proof.
  unfold notesIn, selectCategory. rewrite in_flat_map. split.
  - intros (d & Hd & Hn). apply filter_In in Hn as [Hn Hk].
    apply bool_decide_eq_true in Hk. eauto.
  - intros (d & Hd & Hn & Hk). exists d. split; [done|].
    apply filter_In. split; [done|]. by apply bool_decide_eq_true.
Qed.

Lemma in_allNotes ds n :
  In n (allNotes ds) <-> exists d, In d ds /\ In n (notesOf d).
Proof. apply in_flat_map. Qed.

(** The categories split the notes of a discussion. *)
Lemma selectCategory_partition d (notes : list GitLabNote.t) :
  selectCategory context CatTrigger d notes
  ++ selectCategory context CatContext d notes
  ++ selectCategory context CatResolved d notes
  ++ selectCategory context CatClaudeReply d notes
  ≡ₚ notes.
Proof.
  induction notes as [|n notes IH]; [done|].
  rewrite !selectCategory_cons.
  destruct (categoryOf context d n); simpl; rewrite <- IH at 5;
    solve_Permutation.
Qed.

Lemma selectCategory_partition_others d (notes : list GitLabNote.t) :
  selectCategory context CatTrigger d notes
  ++ selectCategory context CatContext d notes
  ++ selectCategory context CatResolved d notes
  ≡ₚ List.filter (fun n => negb (isClaudeAuthor n)) notes.
Proof.
  induction notes as [|n notes IH]; [done|].
  rewrite !selectCategory_cons. cbn [List.filter].
  category_cases d n; simpl; rewrite <- IH; solve_Permutation.
Qed.

Lemma notesIn_cons k d ds :
  notesIn context k (d :: ds) =
  selectCategory context k d (notesOf d) ++ notesIn context k ds.
Proof. reflexivity. Qed.

Lemma allNotes_cons d ds : allNotes (d :: ds) = notesOf d ++ allNotes ds.
Proof. reflexivity. Qed.

(** Every note lands in exactly one of the four arrays. *)
Lemma notesIn_partition ds :
  notesIn context CatTrigger ds ++ notesIn context CatContext ds
  ++ notesIn context CatResolved ds ++ notesIn context CatClaudeReply ds
  ≡ₚ allNotes ds.
Proof.
  induction ds as [|d ds IH]; [done|].
  rewrite !notesIn_cons, allNotes_cons.
  etrans; [|apply Permutation_app;
             [apply (selectCategory_partition d) | exact IH]].
  solve_Permutation.
Qed.

Lemma notesIn_partition_others ds :
  notesIn context CatTrigger ds ++ notesIn context CatContext ds
  ++ notesIn context CatResolved ds
  ≡ₚ List.filter (fun n => negb (isClaudeAuthor n)) (allNotes ds).
Proof.
  induction ds as [|d ds IH]; [done|].
  rewrite !notesIn_cons, allNotes_cons, List.filter_app.
  etrans; [|apply Permutation_app;
             [apply (selectCategory_partition_others d) | exact IH]].
  solve_Permutation.
Qed.

Lemma notesIn_agent ds :
  notesIn context CatClaudeReply ds = List.filter isClaudeAuthor (allNotes ds).
Proof.
  induction ds as [|d ds IH]; [done|].
  rewrite notesIn_cons, allNotes_cons, List.filter_app, <- IH. f_equal.
  apply List.filter_ext. intros n. category_cases d n; done.
Qed.

End Categorize.

Lemma isClaudeAuthor_no_author n :
  GitLabNote.author n = None -> isClaudeAuthor n = false.
Proof. unfold isClaudeAuthor. by intros ->. Qed.

Lemma isTriggerNote_no_body context n :
  GitLabNote.body n = None -> isTriggerNote context n = false.
Proof. unfold isTriggerNote. by intros ->. Qed.



(** C3. Partition invariant of the classifier: for discussions whose
    notes are pairwise distinct, the union of [triggerComments],
    [contextComments] and [resolvedComments] is exactly the set of notes
    not authored by the agent identity, the three are pairwise disjoint,
    and a note authored by the agent identity is in [claudeReplies] and in
    none of the three; counted with repetitions, every note is in exactly
    one of the four arrays. *)
Theorem categorizeComments_partition
    (ds : list GitLabDiscussion.t) (context : GitLabContext) :
  NoDup (allNotes ds) ->
  (forall n,
     In n (CategorizedComments.triggerComments (categorizeComments ds context)
           ++ CategorizedComments.contextComments (categorizeComments ds context)
           ++ CategorizedComments.resolvedComments (categorizeComments ds context))
     <-> In n (allNotes ds) /\ isClaudeAuthor n = false)
  /\ (forall n,
        In n (CategorizedComments.triggerComments (categorizeComments ds context)) ->
        ~ In n (CategorizedComments.contextComments (categorizeComments ds context)))
  /\ (forall n,
        In n (CategorizedComments.triggerComments (categorizeComments ds context)) ->
        ~ In n (CategorizedComments.resolvedComments (categorizeComments ds context)))
  /\ (forall n,
        In n (CategorizedComments.contextComments (categorizeComments ds context)) ->
        ~ In n (CategorizedComments.resolvedComments (categorizeComments ds context)))
  /\ (forall n,
        In n (allNotes ds) -> isClaudeAuthor n = true ->
        In n (CategorizedComments.claudeReplies (categorizeComments ds context))
        /\ ~ In n (CategorizedComments.triggerComments (categorizeComments ds context))
        /\ ~ In n (CategorizedComments.contextComments (categorizeComments ds context))
        /\ ~ In n (CategorizedComments.resolvedComments (categorizeComments ds context)))
  /\ (forall n,
        In n (CategorizedComments.claudeReplies (categorizeComments ds context)) ->
        In n (allNotes ds) /\ isClaudeAuthor n = true)
  /\ CategorizedComments.triggerComments (categorizeComments ds context)
     ++ CategorizedComments.contextComments (categorizeComments ds context)
     ++ CategorizedComments.resolvedComments (categorizeComments ds context)
     ++ CategorizedComments.claudeReplies (categorizeComments ds context)
     ≡ₚ allNotes ds.
Proof.
  intros Hnodup. rewrite categorizeComments_spec. simpl.
  pose proof (notesIn_partition context ds) as Hperm.
  assert (NoDup (notesIn context CatTrigger ds ++ notesIn context CatContext ds
                 ++ notesIn context CatResolved ds
                 ++ notesIn context CatClaudeReply ds)) as Hnd
    by (by rewrite Hperm).
  apply NoDup_app in Hnd as (_ & HT & Hnd).
  apply NoDup_app in Hnd as (_ & HC & _).
  assert (forall n, In n (notesIn context CatTrigger ds) ->
            ~ (In n (notesIn context CatContext ds)
               \/ In n (notesIn context CatResolved ds))) as HT'.
  { intros n Hn Hin. apply (HT n); [by apply list_elem_of_In|].
    apply list_elem_of_In. rewrite !in_app_iff. tauto. }
  assert (forall n, In n (notesIn context CatContext ds) ->
            ~ In n (notesIn context CatResolved ds)) as HC'.
  { intros n Hn Hin. apply (HC n); [by apply list_elem_of_In|].
    apply list_elem_of_In. rewrite !in_app_iff. tauto. }
  split.
  { intros n. split.
    - intros Hn.
      apply (Permutation_in _ (notesIn_partition_others context ds)) in Hn.
      apply filter_In in Hn as [Hn Hag]. by apply negb_true_iff in Hag.
    - intros [Hn Hag].
      apply (Permutation_in _
               (Permutation_sym (notesIn_partition_others context ds))).
      apply filter_In. by rewrite Hag. }
  split; [intros n Hn Hc; apply (HT' n Hn); tauto|].
  split; [intros n Hn Hr; apply (HT' n Hn); tauto|].
  split; [exact HC'|].
  split.
  { intros n Hn Hag. rewrite notesIn_agent, filter_In. split; [done|].
    repeat split; intros Hin; apply in_notesIn in Hin as (d & _ & _ & Hk);
      [apply categoryOf_trigger in Hk | apply categoryOf_context in Hk
      | apply categoryOf_resolved in Hk]; destruct Hk as [Hk _]; congruence. }
  split; [|done].
  intros n. rewrite notesIn_agent, filter_In. done.
Qed.

Lemma categorizeComments_partition_witness :
  NoDup (allNotes [unansweredDiscussion; answeredDiscussion; malformedDiscussion])
  /\ ~ In authorlessTrigger
       (CategorizedComments.resolvedComments
          (categorizeComments
             [unansweredDiscussion; answeredDiscussion; malformedDiscussion]
             exampleContext)).
Proof.
  assert (NoDup (allNotes
            [unansweredDiscussion; answeredDiscussion; malformedDiscussion]))
    as Hnodup.
  { apply (bool_decide_unpack _). vm_compute. exact I. }
  split; [exact Hnodup|].
  destruct (categorizeComments_partition
              [unansweredDiscussion; answeredDiscussion; malformedDiscussion]
              exampleContext Hnodup) as (_ & _ & Hdisjoint & _).
  apply Hdisjoint. vm_compute. right; right; left. reflexivity.
Defined.

Lemma in_category_placed context ds d n :
  In d ds -> In n (notesOf d) ->
  In n (notesIn context (categoryOf context d n) ds).
Proof. intros Hd Hn. apply in_notesIn. by exists d. Qed.

(** C4 as worded fails: in a resolved discussion, a note that has no
    author and whose body holds the phrase is placed in [triggerComments]
    and not in [resolvedComments], and a note of the bot that has no body
    is placed in [claudeReplies] and not in [resolvedComments]. *)
Lemma categorizeComments_malformed_not_by_resolution_alone :
  GitLabNote.author authorlessTrigger = None
  /\ GitLabNote.body bodilessBotNote = None
  /\ isResolved malformedDiscussion = true
  /\ CategorizedComments.triggerComments
       (categorizeComments [malformedDiscussion] exampleContext)
     = [authorlessTrigger]
  /\ CategorizedComments.claudeReplies
       (categorizeComments [malformedDiscussion] exampleContext)
     = [bodilessBotNote]
  /\ CategorizedComments.resolvedComments
       (categorizeComments [malformedDiscussion] exampleContext)
     = [bareNote].
Proof. repeat split; reflexivity. Qed.

(** C4, as the code has it. Malformed notes: a note that has no author
    is treated as non-agent and is never placed in [claudeReplies]; a note
    that has no body is treated as non-trigger and is never placed in
    [triggerComments]; a malformed note is never dropped; and a malformed
    note that is neither a trigger by its body nor authored by the agent
    identity (so every note missing both) is placed by the resolution
    state of its discussion: in [resolvedComments] if the discussion is
    resolved, in [contextComments] otherwise. *)
Theorem categorizeComments_malformed_notes
    (ds : list GitLabDiscussion.t) (context : GitLabContext)
    (d : GitLabDiscussion.t) (n : GitLabNote.t) :
  In d ds -> In n (notesOf d) ->
  (GitLabNote.author n = None ->
   isClaudeAuthor n = false
   /\ ~ In n (CategorizedComments.claudeReplies (categorizeComments ds context)))
  /\ (GitLabNote.body n = None ->
      isTriggerNote context n = false
      /\ ~ In n (CategorizedComments.triggerComments (categorizeComments ds context)))
  /\ (GitLabNote.author n = None \/ GitLabNote.body n = None ->
      In n (CategorizedComments.triggerComments (categorizeComments ds context)
            ++ CategorizedComments.contextComments (categorizeComments ds context)
            ++ CategorizedComments.resolvedComments (categorizeComments ds context)
            ++ CategorizedComments.claudeReplies (categorizeComments ds context)))
  /\ (GitLabNote.author n = None \/ GitLabNote.body n = None ->
      isClaudeAuthor n = false -> isTriggerNote context n = false ->
      if isResolved d
      then In n (CategorizedComments.resolvedComments (categorizeComments ds context))
      else In n (CategorizedComments.contextComments (categorizeComments ds context)))
  /\ (GitLabNote.author n = None -> GitLabNote.body n = None ->
      if isResolved d
      then In n (CategorizedComments.resolvedComments (categorizeComments ds context))
      else In n (CategorizedComments.contextComments (categorizeComments ds context)))
  /\ (GitLabNote.author n = None -> isTriggerNote context n = true ->
      In n (CategorizedComments.triggerComments (categorizeComments ds context)))
  /\ (GitLabNote.body n = None -> isClaudeAuthor n = true ->
      In n (CategorizedComments.claudeReplies (categorizeComments ds context))).
Proof.
  intros Hd Hn. rewrite categorizeComments_spec. simpl.
  pose proof (in_category_placed context ds d n Hd Hn) as Hplaced.
  assert (isClaudeAuthor n = false -> isTriggerNote context n = false ->
          if isResolved d then In n (notesIn context CatResolved ds)
          else In n (notesIn context CatContext ds)) as Hres.
  { intros Hag Htr. unfold categoryOf in Hplaced.
    rewrite Hag, Htr in Hplaced. by destruct (isResolved d). }
  split.
  { intros Hauthor. split; [by apply isClaudeAuthor_no_author|].
    intros Hin. apply in_notesIn in Hin as (d' & _ & _ & Hk).
    apply categoryOf_agent in Hk.
    by rewrite isClaudeAuthor_no_author in Hk. }
  split.
  { intros Hbody. split; [by apply isTriggerNote_no_body|].
    intros Hin. apply in_notesIn in Hin as (d' & _ & _ & Hk).
    apply categoryOf_trigger in Hk as [_ Hk].
    by rewrite isTriggerNote_no_body in Hk. }
  split.
  { intros _. rewrite !in_app_iff.
    destruct (categoryOf context d n); tauto. }
  split; [intros _; exact Hres|].
  split.
  { intros Hauthor Hbody.
    apply Hres; [by apply isClaudeAuthor_no_author | by apply isTriggerNote_no_body]. }
  split.
  - intros Hauthor Htr. unfold categoryOf in Hplaced.
    by rewrite (isClaudeAuthor_no_author n Hauthor), Htr in Hplaced.
  - intros _ Hag. unfold categoryOf in Hplaced. by rewrite Hag in Hplaced.
Qed.

Lemma categorizeComments_malformed_notes_witness :
  In bareNote
    (CategorizedComments.resolvedComments
       (categorizeComments [answeredDiscussion; malformedDiscussion]
          exampleContext)).
Proof.
  destruct (categorizeComments_malformed_notes
              [answeredDiscussion; malformedDiscussion] exampleContext
              malformedDiscussion bareNote)
    as (_ & _ & _ & _ & Hplaced & _).
  - right; left. reflexivity.
  - right; right; left. reflexivity.
  - exact (Hplaced eq_refl eq_refl).
Defined.



(** The phrase of a parsed context is never empty. *)
Lemma parseGitLabContext_triggerPhrase env context :
  parseGitLabContext env = Returns context ->
  triggerPhrase context <> EmptyString.
Proof.
  unfold parseGitLabContext. cbv zeta.
  destruct (negb (Js.truthy (envToken env))); [done|].
  destruct (negb (Js.truthy (projectId _))); [done|].
  destruct (JsNum.falsy _ && JsNum.strict_neq_zero _); [done|].
  intros [= <-]. cbn [triggerPhrase buildContext].
  destruct (env !! "CLAUDE_TRIGGER_PHRASE") as [[|c s]|]; done.
Qed.

(** ** The comment watcher *)

(** The edit the watcher issues for [content]. *)
Lemma onInterval_run w p lastContent :
  run (pollHost p) (onInterval w lastContent) tt =
  match channel p with
  | Resolved content =>
      if Js.truthy content && negb (bool_decide (content = lastContent)) then
        (Resolved (if publishSucceeds p then content else lastContent), tt,
         [Issued (readFile UPDATE_FILE "utf-8");
          if w_isMR w
          then Issued (MergeRequestNotes_edit (w_projectId w) (w_iid w)
                         (JsNum.parseInt (w_commentId w)) content)
          else Issued (IssueNotes_edit (w_projectId w) (w_iid w)
                         (JsNum.parseInt (w_commentId w)) content)])
      else (Resolved lastContent, tt, [Issued (readFile UPDATE_FILE "utf-8")])
  | Rejected _ => (Resolved lastContent, tt, [Issued (readFile UPDATE_FILE "utf-8")])
  end.
Proof.
  unfold onInterval. cbn [try_catch bind await run pollHost].
  destruct (channel p) as [content|e]; cbn [try_catch bind await run]; [|done].
  destruct (Js.truthy content && negb (bool_decide (content = lastContent)));
    cbn [try_catch bind await run]; [|done].
  unfold updateComment. cbn [UpdateCommentParams.isMR
    UpdateCommentParams.projectId UpdateCommentParams.iid
    UpdateCommentParams.noteId UpdateCommentParams.body].
  destruct (w_isMR w); cbn [try_catch bind await run pollHost];
    destruct (publishSucceeds p); reflexivity.
Qed.

Lemma watch_cons w p polls lastContent :
  watch w (p :: polls) lastContent =
  match channel p with
  | Resolved content =>
      if Js.truthy content && negb (bool_decide (content = lastContent)) then
        (fst (watch w polls (if publishSucceeds p then content else lastContent)),
         content
           :: snd (watch w polls
                     (if publishSucceeds p then content else lastContent)))
      else watch w polls lastContent
  | Rejected _ => watch w polls lastContent
  end.
Proof.
  cbn [watch]. rewrite onInterval_run.
  destruct (channel p) as [content|e].
  - destruct (Js.truthy content && negb (bool_decide (content = lastContent))).
    + destruct (watch w polls _) as [final published].
      by destruct (w_isMR w).
    + by destruct (watch w polls lastContent).
  - by destruct (watch w polls lastContent).
Qed.

Lemma watch_app w polls1 polls2 lastContent :
  watch w (polls1 ++ polls2) lastContent =
  (fst (watch w polls2 (fst (watch w polls1 lastContent))),
   snd (watch w polls1 lastContent)
     ++ snd (watch w polls2 (fst (watch w polls1 lastContent)))).
Proof.
  revert lastContent. induction polls1 as [|p polls1 IH]; intros lastContent.
  - simpl. by destruct (watch w polls2 lastContent).
  - rewrite <- app_comm_cons, !watch_cons.
    destruct (channel p) as [content|e]; [|apply IH].
    destruct (Js.truthy content && negb (bool_decide (content = lastContent)));
      [|apply IH].
    rewrite IH. done.
Qed.



(** *** Callbacks that do not overlap *)

Lemma publications_app evs1 evs2 :
  publications (evs1 ++ evs2) = publications evs1 ++ publications evs2.
Proof. unfold publications. apply omap_app. Qed.

Lemma publications_edit w content :
  publications [Issued (readFile UPDATE_FILE "utf-8");
                Issued (editRequest w content)] = [content].
Proof. unfold editRequest. by destruct (w_isMR w). Qed.

(** A callback that runs alone, from the state in which no callback is in
    flight. *)
Lemma settleAlone_idle w p lastContent issued :
  settleAlone w p (mkInterval lastContent [] issued) =
  Some
    match channel p with
    | Resolved content =>
        if Js.truthy content && negb (bool_decide (content = lastContent))
        then
          mkInterval (if publishSucceeds p then content else lastContent) []
            (issued ++ [Issued (readFile UPDATE_FILE "utf-8");
                        Issued (editRequest w content)])
        else mkInterval lastContent [] (issued ++ [Issued (readFile UPDATE_FILE "utf-8")])
    | Rejected _ =>
        mkInterval lastContent [] (issued ++ [Issued (readFile UPDATE_FILE "utf-8")])
    end.
Proof.
  unfold settleAlone.
  cbn [turns turn i_inFlight i_lastContent i_issued length app lookup
       list_lookup].
  destruct (channel p) as [content|e]; [|done].
  destruct (Js.truthy content && negb (bool_decide (content = lastContent)));
    [|done].
  cbn [i_inFlight i_lastContent i_issued insert list_insert lookup list_lookup
       turn delete list_delete].
  rewrite <- app_assoc. by destruct (publishSucceeds p).
Qed.

(** Callbacks that do not overlap are the polls of [watch]. *)
Lemma sequentially_watch w polls lastContent issued :
  exists st,
    sequentially w polls (mkInterval lastContent [] issued) = Some st
    /\ i_lastContent st = (watch w polls lastContent).1
    /\ i_inFlight st = []
    /\ publications (i_issued st)
       = publications issued ++ (watch w polls lastContent).2.
Proof.
  revert lastContent issued.
  induction polls as [|p polls IH]; intros lastContent issued.
  { eexists. split; [done|]. cbn [watch fst snd i_lastContent i_inFlight i_issued].
    by rewrite app_nil_r. }
  cbn [sequentially]. rewrite settleAlone_idle, watch_cons.
  destruct (channel p) as [content|e].
  - destruct (Js.truthy content && negb (bool_decide (content = lastContent))).
    + destruct (IH (if publishSucceeds p then content else lastContent)
                  (issued ++ [Issued (readFile UPDATE_FILE "utf-8");
                              Issued (editRequest w content)]))
        as (st & -> & Hlast & Hidle & Hpub).
      exists st. split; [done|]. split; [done|]. split; [done|].
      rewrite Hpub, publications_app, publications_edit. cbn [fst snd].
      by rewrite <- app_assoc.
    + destruct (IH lastContent (issued ++ [Issued (readFile UPDATE_FILE "utf-8")]))
        as (st & -> & Hlast & Hidle & Hpub).
      exists st. split; [done|]. split; [done|]. split; [done|].
      rewrite Hpub, publications_app. cbn [publications omap list_omap publishedBody].
      by rewrite app_nil_r.
  - destruct (IH lastContent (issued ++ [Issued (readFile UPDATE_FILE "utf-8")]))
      as (st & -> & Hlast & Hidle & Hpub).
    exists st. split; [done|]. split; [done|]. split; [done|].
    rewrite Hpub, publications_app. cbn [publications omap list_omap publishedBody].
    by rewrite app_nil_r.
Qed.

(** When callbacks overlap the same content is published again: the four
    polls read the empty content, [A], [A] and [B]; the third callback
    reads [A] while the edit of the second one is still in flight, so
    [lastContent] is still empty and [A] is published a second time. *)
Lemma watchForUpdates_overlap_publishes_again :
  exists st,
    turns exampleWatcher
      [TimerFires; ReadSettles 0 (Resolved EmptyString);
       TimerFires; ReadSettles 0 (Resolved "A");
       TimerFires; ReadSettles 1 (Resolved "A");
       EditSettles 0 (Resolved (editedNote (Num 77) "A"));
       EditSettles 0 (Resolved (editedNote (Num 77) "A"));
       TimerFires; ReadSettles 0 (Resolved "B");
       EditSettles 0 (Resolved (editedNote (Num 77) "B"))]
      (idle EmptyString)
    = Some st
    /\ i_inFlight st = []
    /\ i_lastContent st = "B"
    /\ publications (i_issued st) = ["A"; "A"; "B"].
Proof. eexists. split; [reflexivity|]. repeat split. Qed.


(** ** [createReply] *)

(** C9. [createReply] does not attach the new note to the discussion it
    is given and does not use the note id: for every input it is
    [createComment] on the body made of the quote line
    [> In reply to discussion <id>], a blank line and the given body; its
    only request creates a top-level note of the merge request or issue
    with that body, and the note id has no influence. *)
Theorem createReply_creates_top_level_note
    (this : GitLabAPI) (params : CreateReplyParams.t) :
  createReply this params =
    createComment this
      (CreateCommentParams.mk
         (CreateReplyParams.projectId params)
         (CreateReplyParams.isMR params)
         (CreateReplyParams.iid params)
         ("> In reply to discussion " +:+ CreateReplyParams.discussionId params
            +:+ LF +:+ LF +:+ CreateReplyParams.body params))
  /\ (forall noteId',
        createReply this
          (CreateReplyParams.mk
             (CreateReplyParams.projectId params)
             (CreateReplyParams.isMR params)
             (CreateReplyParams.iid params)
             (CreateReplyParams.discussionId params)
             noteId'
             (CreateReplyParams.body params))
        = createReply this params)
  /\ (forall (World : Type)
        (host : forall T : Type, Request T -> World -> Outcome T * World)
        (w : World),
        snd (run host (createReply this params) w) =
        [if CreateReplyParams.isMR params
         then Issued (MergeRequestNotes_create
                        (CreateReplyParams.projectId params)
                        (CreateReplyParams.iid params)
                        ("> In reply to discussion "
                           +:+ CreateReplyParams.discussionId params
                           +:+ LF +:+ LF +:+ CreateReplyParams.body params))
         else Issued (IssueNotes_create
                        (CreateReplyParams.projectId params)
                        (CreateReplyParams.iid params)
                        ("> In reply to discussion "
                           +:+ CreateReplyParams.discussionId params
                           +:+ LF +:+ LF +:+ CreateReplyParams.body params))])
  /\ String.length LF = 1
  /\ snd (run (staticHost servedBoth)
            (createReply exampleAPI
               (CreateReplyParams.mk "123" true (Num 42) "d1" 1 "Working..."))
            tt)
     = [Issued (MergeRequestNotes_create "123" (Num 42)
                  ("> In reply to discussion d1" +:+ LF +:+ LF +:+ "Working..."))].
Proof.
  destruct params as [pid mr iid did nid body]. simpl.
  split; [by destruct mr|]. split; [by destruct mr|].
  split; [|split; reflexivity].
  intros World host w. unfold createReply. simpl.
  destruct mr; cbn [await run];
    match goal with |- context [host ?T ?r w] => destruct (host T r w) as [[?|?] ?] end;
    reflexivity.
Qed.

(** ** [parseGitLabContext] *)

Lemma iid_guard n :
  JsNum.falsy n && JsNum.strict_neq_zero n = true <-> n = NaN.
Proof.
  destruct n as [|z]; simpl; [done|].
  destruct (z =? 0)%Z; simpl; split; done.
Qed.

Lemma parseGitLabContext_cases env :
  parseGitLabContext env =
  if negb (Js.truthy (envToken env)) then
    Throws "No GitLab token found. Please set CLAUDE_BOT_TOKEN or GITLAB_TOKEN in CI/CD variables."
  else if negb (Js.truthy (Js.or_default (env !! "CI_PROJECT_ID") EmptyString)) then
    Throws "CI_PROJECT_ID environment variable is required"
  else
    match JsNum.parseInt (iidSource env) with
    | NaN => Throws noIidMessage
    | Num z =>
        Returns (buildContext env
                   (Js.truthy_opt (env !! "CI_MERGE_REQUEST_IID"))
                   (Num z) (envToken env))
    end.
Proof.
  unfold parseGitLabContext. cbv zeta.
  destruct (negb (Js.truthy (envToken env))); [done|].
  cbn [projectId iid isMR buildContext].
  destruct (negb (Js.truthy (Js.or_default (env !! "CI_PROJECT_ID") EmptyString)));
    [done|].
  destruct (JsNum.parseInt (iidSource env)) as [|z]; [done|].
  cbn [JsNum.falsy JsNum.strict_neq_zero].
  by destruct (z =? 0)%Z.
Qed.

(** C10. When neither [CI_MERGE_REQUEST_IID] nor [CI_ISSUE_IID] is set
    and a token and a project id are there, [parseGitLabContext] returns
    a context with [iid = 0] and does not throw; it throws the
    [No MR or Issue IID found] error only when the text handed to
    [parseInt] parses to [NaN], and then it does when a token and a
    project id are there; the guard [!iid && iid !== 0] is false for
    [iid = 0] and true for [NaN] alone. *)
Theorem parseGitLabContext_iid_zero (env : gmap string string) :
  (Js.truthy_opt (env !! "CI_MERGE_REQUEST_IID") = false ->
   Js.truthy_opt (env !! "CI_ISSUE_IID") = false ->
   Js.truthy (envToken env) = true ->
   Js.truthy_opt (env !! "CI_PROJECT_ID") = true ->
   exists context,
     parseGitLabContext env = Returns context
     /\ iid context = Num 0 /\ isMR context = false)
  /\ (parseGitLabContext env = Throws noIidMessage ->
      JsNum.parseInt (iidSource env) = NaN)
  /\ (Js.truthy (envToken env) = true ->
      Js.truthy_opt (env !! "CI_PROJECT_ID") = true ->
      JsNum.parseInt (iidSource env) = NaN ->
      parseGitLabContext env = Throws noIidMessage)
  /\ JsNum.falsy (Num 0) && JsNum.strict_neq_zero (Num 0) = false
  /\ (forall n, JsNum.falsy n && JsNum.strict_neq_zero n = true <-> n = NaN).
Proof.
  assert (forall o, Js.truthy_opt o = true ->
            Js.truthy (Js.or_default o EmptyString) = true) as Hpresent.
  { intros [[|c s]|]; done. }
  split.
  { intros Hmr Hissue Htoken Hproject.
    assert (iidSource env = "0") as Hsrc.
    { unfold iidSource. rewrite Hmr.
      destruct (env !! "CI_ISSUE_IID") as [[|c s]|]; done. }
    pose proof (parseGitLabContext_cases env) as Hcases.
    rewrite Htoken, (Hpresent _ Hproject), Hsrc, Hmr in Hcases.
    eexists. split; [exact Hcases|]. done. }
  split.
  { intros Hthrow. pose proof (parseGitLabContext_cases env) as Hcases.
    rewrite Hthrow in Hcases.
    destruct (negb (Js.truthy (envToken env))); [discriminate|].
    destruct (negb (Js.truthy (Js.or_default (env !! "CI_PROJECT_ID") EmptyString)));
      [discriminate|].
    destruct (JsNum.parseInt (iidSource env)); [done|discriminate]. }
  split.
  { intros Htoken Hproject Hnan. rewrite parseGitLabContext_cases.
    by rewrite Htoken, (Hpresent _ Hproject), Hnan. }
  split; [done | apply iid_guard].
Qed.

Lemma parseGitLabContext_iid_zero_witness :
  (exists context,
     parseGitLabContext envWithoutIid = Returns context
     /\ iid context = Num 0 /\ isMR context = false)
  /\ parseGitLabContext (<["CI_MERGE_REQUEST_IID" := "abc"]> envWithoutIid)
     = Throws noIidMessage.
Proof.
  split.
  - apply (parseGitLabContext_iid_zero envWithoutIid); reflexivity.
  - apply (parseGitLabContext_iid_zero
             (<["CI_MERGE_REQUEST_IID" := "abc"]> envWithoutIid)); reflexivity.
Defined.

(** * Further properties of the code *)

(** ** Numbers as text *)

Lemma parseDigits_uint d acc :
  JsNum.parseDigits 10 (NilEmpty.string_of_uint d) (Some acc) =
  Some (digitsValue acc d).
Proof.
  revert acc. induction d; intros acc; simpl; try done; by rewrite IHd.
Qed.

Lemma parseInt_uint d :
  d <> Decimal.Nil ->
  JsNum.parseInt (NilEmpty.string_of_uint d) = Num (digitsValue 0 d)
  /\ JsNum.parseInt (String "-" (NilEmpty.string_of_uint d))
     = Num (- digitsValue 0 d).
Proof.
  intros Hd.
  destruct d as [|d|d|d|d|d|d|d|d|d|d]; [done|..];
    destruct d as [|d|d|d|d|d|d|d|d|d|d];
    unfold JsNum.parseInt; simpl; rewrite ?parseDigits_uint;
    rewrite ?Z.mul_1_l, <- ?Z.opp_eq_mul_m1;
    split; repeat f_equal.
Qed.

Lemma digitsValue_of_uint_acc d acc :
  digitsValue (Z.of_nat acc) d = Z.of_nat (Nat.of_uint_acc d acc).
Proof.
  revert acc. induction d; intros acc; simpl; try done;
    rewrite <- IHd; f_equal; rewrite Nat.tail_mul_spec; lia.
Qed.

Lemma to_uint_not_nil n : Nat.to_uint n <> Decimal.Nil.
Proof.
  intros Hnil. assert (n = 0) as ->.
  { rewrite <- (DecimalNat.Unsigned.of_to n), Hnil. reflexivity. }
  discriminate Hnil.
Qed.

Lemma parseInt_lengthToString n :
  JsNum.parseInt (JsNum.lengthToString n) = Num (Z.of_nat n)
  /\ JsNum.parseInt (String "-" (JsNum.lengthToString n)) = Num (- Z.of_nat n).
Proof.
  unfold JsNum.lengthToString.
  destruct (parseInt_uint (Nat.to_uint n) (to_uint_not_nil n)) as [-> ->].
  change 0%Z with (Z.of_nat 0). rewrite digitsValue_of_uint_acc.
  change (Nat.of_uint_acc (Nat.to_uint n) 0) with (Nat.of_uint (Nat.to_uint n)).
  by rewrite DecimalNat.Unsigned.of_to.
Qed.

Lemma parseInt_toString_Num z :
  JsNum.parseInt (numberToString (Num z)) = Num z.
Proof.
  unfold numberToString.
  destruct (parseInt_lengthToString (Z.abs_nat z)) as [Hpos Hneg].
  destruct (z <? 0)%Z eqn:Hsign.
  - change ("-" +:+ JsNum.lengthToString (Z.abs_nat z))
      with (String "-" (JsNum.lengthToString (Z.abs_nat z))).
    rewrite Hneg. f_equal. apply Z.ltb_lt in Hsign. lia.
  - rewrite append_Empty, Hpos. f_equal. apply Z.ltb_ge in Hsign. lia.
Qed.

(** X1. Printing a number and reading it back with [parseInt] gives the
    number again: for [NaN] and for every safe integer, negative ones
    included. This is what carries the iid and the id of the tracking
    comment through [process.env]. *)
Theorem parseInt_numberToString (n : JsNumber) :
  (forall z, n = Num z -> safeInteger z) ->
  JsNum.parseInt (numberToString n) = n.
Proof.
  intros _. destruct n as [|z]; [reflexivity|].
  apply parseInt_toString_Num.
Qed.

Lemma parseInt_numberToString_witness :
  JsNum.parseInt (numberToString (Num (-1204))) = Num (-1204)
  /\ numberToString (Num (-1204)) = "-1204".
Proof.
  split; [|reflexivity].
  apply (parseInt_numberToString (Num (-1204))).
  intros z [= <-]. unfold safeInteger. simpl. lia.
Defined.

Lemma numberToString_inj z1 z2 :
  numberToString (Num z1) = numberToString (Num z2) -> z1 = z2.
Proof.
  intros Heq. apply (f_equal JsNum.parseInt) in Heq.
  rewrite !parseInt_toString_Num in Heq. congruence.
Qed.

Lemma append_inj_l s a b : s +:+ a = s +:+ b -> a = b.
Proof.
  induction s as [|c s IH]; [done|]. rewrite !append_String.
  intros [= H]. auto.
Qed.

(** ** [parseGitLabContext]: outcomes and the context it returns *)

Lemma truthy_or_default_empty o :
  Js.truthy (Js.or_default o EmptyString) = Js.truthy_opt o.
Proof. by destruct o as [[|c s]|]. Qed.

Lemma truthy_or_default d o :
  Js.truthy d = true -> Js.truthy (Js.or_default o d) = true.
Proof. intros Hd. by destruct o as [[|c s]|]. Qed.

(** X2. The outcome of [parseGitLabContext] is decided by three checks in
    this order: without any token it throws the token error, whatever else
    is missing; with a token but no project id it throws the project id
    error; and it returns a context exactly when a token and a project id
    are there and the iid text parses to a number. *)
Theorem parseGitLabContext_outcome (env : gmap string string) :
  (Js.truthy (envToken env) = false ->
   parseGitLabContext env =
   Throws "No GitLab token found. Please set CLAUDE_BOT_TOKEN or GITLAB_TOKEN in CI/CD variables.")
  /\ (Js.truthy (envToken env) = true ->
      Js.truthy_opt (env !! "CI_PROJECT_ID") = false ->
      parseGitLabContext env =
      Throws "CI_PROJECT_ID environment variable is required")
  /\ ((exists context, parseGitLabContext env = Returns context) <->
      Js.truthy (envToken env) = true
      /\ Js.truthy_opt (env !! "CI_PROJECT_ID") = true
      /\ JsNum.parseInt (iidSource env) <> NaN).
Proof.
  rewrite parseGitLabContext_cases, truthy_or_default_empty.
  destruct (Js.truthy (envToken env)); simpl.
  - destruct (Js.truthy_opt (env !! "CI_PROJECT_ID")); simpl.
    + split; [done|]. split; [done|].
      destruct (JsNum.parseInt (iidSource env)) as [|z].
      * split; [by intros [context Hc] | by intros (_ & _ & Hn)].
      * split; [done | intros _; by eexists].
    + split; [done|]. split; [done|].
      split; [by intros [context Hc] | by intros (_ & Hp & _)].
  - split; [done|]. split; [done|].
    split; [by intros [context Hc] | by intros (Ht & _)].
Qed.

Lemma parseGitLabContext_outcome_witness :
  parseGitLabContext (<["CI_PROJECT_ID" := "123"]> ∅) =
  Throws "No GitLab token found. Please set CLAUDE_BOT_TOKEN or GITLAB_TOKEN in CI/CD variables."
  /\ parseGitLabContext (<["CI_JOB_TOKEN" := "job-token"]> ∅) =
     Throws "CI_PROJECT_ID environment variable is required".
Proof.
  split.
  - apply (parseGitLabContext_outcome (<["CI_PROJECT_ID" := "123"]> ∅)).
    reflexivity.
  - apply (parseGitLabContext_outcome (<["CI_JOB_TOKEN" := "job-token"]> ∅));
      reflexivity.
Defined.

(** X3. A context returned by [parseGitLabContext] is complete where the
    run needs it: the token is the first non-empty one of [GITLAB_TOKEN],
    [CLAUDE_BOT_TOKEN] and [CI_JOB_TOKEN], the project id, the trigger
    phrase, the default branch and the API URL are not empty, the iid is a
    number (never [NaN]), [webUrl] equals [projectUrl], [triggerUsername]
    equals [triggerUser], and [isMR] holds exactly when
    [CI_MERGE_REQUEST_IID] is set and not empty, in which case the iid is
    read from it. *)
Theorem parseGitLabContext_returns (env : gmap string string)
    (context : GitLabContext) :
  parseGitLabContext env = Returns context ->
  token context = envToken env
  /\ Js.truthy (token context) = true
  /\ (Js.truthy_opt (env !! "GITLAB_TOKEN") = true ->
      Some (token context) = env !! "GITLAB_TOKEN")
  /\ (Js.truthy_opt (env !! "GITLAB_TOKEN") = false ->
      Js.truthy_opt (env !! "CLAUDE_BOT_TOKEN") = true ->
      Some (token context) = env !! "CLAUDE_BOT_TOKEN")
  /\ (Js.truthy_opt (env !! "GITLAB_TOKEN") = false ->
      Js.truthy_opt (env !! "CLAUDE_BOT_TOKEN") = false ->
      Some (token context) = env !! "CI_JOB_TOKEN")
  /\ Some (projectId context) = env !! "CI_PROJECT_ID"
  /\ Js.truthy (projectId context) = true
  /\ (exists z, iid context = Num z)
  /\ iid context = JsNum.parseInt (iidSource env)
  /\ Js.truthy (triggerPhrase context) = true
  /\ Js.truthy (defaultBranch context) = true
  /\ Js.truthy (apiUrl context) = true
  /\ webUrl context = projectUrl context
  /\ triggerUsername context = triggerUser context
  /\ isMR context = Js.truthy_opt (env !! "CI_MERGE_REQUEST_IID")
  /\ (isMR context = true ->
      exists text, env !! "CI_MERGE_REQUEST_IID" = Some text
                   /\ iid context = JsNum.parseInt text).
Proof.
  rewrite parseGitLabContext_cases, truthy_or_default_empty.
  destruct (Js.truthy (envToken env)) eqn:Htoken; simpl; [|done].
  destruct (Js.truthy_opt (env !! "CI_PROJECT_ID")) eqn:Hproject; simpl; [|done].
  destruct (JsNum.parseInt (iidSource env)) as [|z] eqn:Hiid; [done|].
  intros [= <-]. cbn [token projectId iid triggerPhrase defaultBranch apiUrl
                      webUrl projectUrl triggerUsername triggerUser isMR
                      buildContext].
  split; [done|]. split; [done|].
  assert (forall o, Js.truthy_opt o = true ->
            forall d, Some (Js.or_default o d) = o) as Hset.
  { intros [[|c s]|]; done. }
  assert (forall o, Js.truthy_opt o = false ->
            forall d, Js.or_default o d = d) as Hunset.
  { intros [[|c s]|]; done. }
  unfold envToken in *.
  split; [intros Hg; by apply Hset|].
  split; [intros Hg Hc; rewrite (Hunset _ Hg); by apply Hset|].
  split.
  { intros Hg Hc. rewrite (Hunset _ Hg), (Hunset _ Hc) in *.
    apply Hset. by rewrite <- truthy_or_default_empty. }
  split; [by apply Hset|].
  split; [by rewrite truthy_or_default_empty|].
  split; [by exists z|]. split; [done|].
  split; [by apply truthy_or_default|].
  split; [by apply truthy_or_default|].
  split; [by apply truthy_or_default|].
  split; [done|]. split; [done|]. split; [done|].
  intros Hmr. unfold iidSource in Hiid. rewrite Hmr in Hiid.
  destruct (env !! "CI_MERGE_REQUEST_IID") as [text|]; [|done].
  by exists text.
Qed.

Lemma parseGitLabContext_returns_witness :
  exists context,
    parseGitLabContext exampleIssueEnv = Returns context
    /\ token context = "test-token"
    /\ iid context = Num 10
    /\ isMR context = false.
Proof.
  destruct (parseGitLabContext exampleIssueEnv) as [context|message] eqn:Hparse;
    [|discriminate Hparse].
  exists context. split; [reflexivity|].
  destruct (parseGitLabContext_returns exampleIssueEnv context Hparse)
    as (Htoken & _ & _ & _ & _ & _ & _ & _ & Hiid & _ & _ & _ & _ & _ & HisMR & _).
  split; [exact Htoken|]. split; [exact Hiid | exact HisMR].
Defined.

(** X4. A merge request takes precedence over an issue: when
    [CI_MERGE_REQUEST_IID] is set and not empty, [CI_ISSUE_IID] is not
    read at all, so changing it changes nothing in the outcome. *)
Theorem parseGitLabContext_merge_request_first
    (env : gmap string string) (issueIid : string) :
  Js.truthy_opt (env !! "CI_MERGE_REQUEST_IID") = true ->
  parseGitLabContext (<["CI_ISSUE_IID" := issueIid]> env)
  = parseGitLabContext env.
Proof.
  intros Hmr.
  unfold parseGitLabContext, iidSource, envToken, buildContext.
  repeat match goal with
         | |- context [<[?k := ?v]> ?m !! ?k'] =>
             rewrite (lookup_insert_ne m k k' v) by done
         end.
  by rewrite Hmr.
Qed.

Lemma parseGitLabContext_merge_request_first_witness :
  parseGitLabContext
    (<["CI_ISSUE_IID" := "not a number"]>
       (<["CI_MERGE_REQUEST_IID" := "42"]> envWithoutIid))
  = parseGitLabContext (<["CI_MERGE_REQUEST_IID" := "42"]> envWithoutIid).
Proof.
  apply (parseGitLabContext_merge_request_first
           (<["CI_MERGE_REQUEST_IID" := "42"]> envWithoutIid) "not a number").
  reflexivity.
Defined.

(** ** [getClaudeBranchName] *)

(** X5. For a merge request with a non-empty source branch the branch
    name is that source branch, whatever the prefix and the clock. In every
    other case, a merge request without source branch included, the name is
    the prefix ([CLAUDE_BRANCH_PREFIX], or [claude/] when that is unset or
    empty), then [issue-], the iid, a hyphen and the time stamp; for a fixed
    context, two different time stamps give two different names. *)
Theorem getClaudeBranchName_spec
    (env : gmap string string) (context : GitLabContext) :
  (forall branch now,
     isMR context = true -> sourceBranch context = Some branch ->
     branch <> EmptyString ->
     getClaudeBranchName env now context = branch)
  /\ (forall now,
        isMR context && Js.truthy_opt (sourceBranch context) = false ->
        getClaudeBranchName env now context =
        Js.or_default (env !! "CLAUDE_BRANCH_PREFIX") "claude/"
          +:+ "issue-" +:+ numberToString (iid context) +:+ "-"
          +:+ numberToString (Num now))
  /\ (forall now,
        isMR context && Js.truthy_opt (sourceBranch context) = false ->
        Js.truthy_opt (env !! "CLAUDE_BRANCH_PREFIX") = false ->
        Js.startsWith (getClaudeBranchName env now context) "claude/issue-"
        = true)
  /\ (forall now1 now2,
        isMR context && Js.truthy_opt (sourceBranch context) = false ->
        safeInteger now1 -> safeInteger now2 ->
        getClaudeBranchName env now1 context
        = getClaudeBranchName env now2 context ->
        now1 = now2).
Proof.
  unfold getClaudeBranchName. split.
  { intros branch now -> -> Hne. simpl. by destruct branch. }
  split; [by intros now ->|].
  split.
  { intros now -> Hprefix.
    assert (Js.or_default (env !! "CLAUDE_BRANCH_PREFIX") "claude/" = "claude/")
      as -> by (by destruct (env !! "CLAUDE_BRANCH_PREFIX") as [[|c s]|]).
    apply startsWith_spec.
    exists (numberToString (iid context) +:+ "-" +:+ numberToString (Num now)).
    reflexivity. }
  intros now1 now2 -> _ _ Heq.
  do 4 apply append_inj_l in Heq. by apply numberToString_inj.
Qed.

Lemma getClaudeBranchName_spec_witness :
  getClaudeBranchName ∅ 1700 exampleContext = "feature/test"
  /\ getClaudeBranchName ∅ 1700
       (buildContext exampleIssueEnv false (Num 10) "test-token")
     = "claude/issue-10-1700".
Proof.
  destruct (getClaudeBranchName_spec ∅ exampleContext) as (Hbranch & _).
  destruct (getClaudeBranchName_spec ∅
              (buildContext exampleIssueEnv false (Num 10) "test-token"))
    as (_ & Hissue & _).
  split.
  - apply Hbranch; [reflexivity | reflexivity | discriminate].
  - rewrite Hissue by reflexivity. reflexivity.
Defined.

(** ** [validateEnvironmentVariables] (stub) and the parser *)

(** X6. The stub validation passes exactly when [ANTHROPIC_API_KEY] is
    set and one of [GITLAB_TOKEN] and [CLAUDE_BOT_TOKEN] is set (empty
    values count as unset), and a missing API key is reported first. It is
    stricter than the parser on tokens: when it passes, the token that
    [parseGitLabContext] uses comes from [GITLAB_TOKEN] or
    [CLAUDE_BOT_TOKEN]; an environment whose only token is [CI_JOB_TOKEN]
    is accepted by the parser and rejected by the validation. *)
Theorem validateEnvironmentVariables_spec (env : gmap string string) :
  (validateEnvironmentVariables env = Returns tt <->
   Js.truthy_opt (env !! "ANTHROPIC_API_KEY") = true
   /\ (Js.truthy_opt (env !! "GITLAB_TOKEN") = true
       \/ Js.truthy_opt (env !! "CLAUDE_BOT_TOKEN") = true))
  /\ (Js.truthy_opt (env !! "ANTHROPIC_API_KEY") = false ->
      validateEnvironmentVariables env = Throws "ANTHROPIC_API_KEY is required")
  /\ (validateEnvironmentVariables env = Returns tt ->
      Js.truthy (envToken env) = true
      /\ envToken env =
         Js.or_default (env !! "GITLAB_TOKEN")
           (Js.or_default (env !! "CLAUDE_BOT_TOKEN") EmptyString))
  /\ (Js.truthy_opt (env !! "ANTHROPIC_API_KEY") = true ->
      Js.truthy_opt (env !! "GITLAB_TOKEN") = false ->
      Js.truthy_opt (env !! "CLAUDE_BOT_TOKEN") = false ->
      Js.truthy_opt (env !! "CI_JOB_TOKEN") = true ->
      Js.truthy (envToken env) = true
      /\ validateEnvironmentVariables env =
         Throws "GITLAB_TOKEN or CLAUDE_BOT_TOKEN is required").
Proof.
  unfold validateEnvironmentVariables, envToken.
  destruct (env !! "ANTHROPIC_API_KEY") as [[|c0 s0]|];
    destruct (env !! "GITLAB_TOKEN") as [[|c1 s1]|];
    destruct (env !! "CLAUDE_BOT_TOKEN") as [[|c2 s2]|];
    destruct (env !! "CI_JOB_TOKEN") as [[|c3 s3]|];
    simpl; intuition congruence.
Qed.

Lemma validateEnvironmentVariables_spec_witness :
  validateEnvironmentVariables exampleIssueEnv = Returns tt
  /\ validateEnvironmentVariables
       (<["CI_JOB_TOKEN" := "job-token"]> (<["ANTHROPIC_API_KEY" := "sk-test"]> ∅))
     = Throws "GITLAB_TOKEN or CLAUDE_BOT_TOKEN is required".
Proof.
  split.
  - apply (validateEnvironmentVariables_spec exampleIssueEnv).
    split; [reflexivity | right; reflexivity].
  - apply (validateEnvironmentVariables_spec
             (<["CI_JOB_TOKEN" := "job-token"]>
                (<["ANTHROPIC_API_KEY" := "sk-test"]> ∅))); reflexivity.
Defined.

(** ** The hand-over through [process.env] *)

Lemma lengthToString_truthy n : Js.truthy (JsNum.lengthToString n) = true.
Proof.
  unfold JsNum.lengthToString. pose proof (to_uint_not_nil n) as Hn.
  by destruct (Nat.to_uint n).
Qed.

Lemma numberToString_truthy n : Js.truthy (numberToString n) = true.
Proof.
  destruct n as [|z]; [done|]. unfold numberToString.
  destruct (z <? 0)%Z; [done|]. rewrite append_Empty.
  apply lengthToString_truthy.
Qed.

Section HandOver.

Variables (context : GitLabContext) (trackingCommentId : Z).
Variable env : gmap string string.

Lemma setClaudeEnvironment_lookups :
  setClaudeEnvironment context trackingCommentId env !! "CLAUDE_COMMENT_ID"
    = Some (numberToString (Num trackingCommentId))
  /\ setClaudeEnvironment context trackingCommentId env !! "GITLAB_PROJECT_ID"
     = Some (projectId context)
  /\ setClaudeEnvironment context trackingCommentId env !! "GITLAB_TOKEN"
     = Some (token context)
  /\ setClaudeEnvironment context trackingCommentId env !! "GITLAB_API_URL"
     = Some (apiUrl context)
  /\ setClaudeEnvironment context trackingCommentId env !! "GITLAB_IS_MR"
     = Some (if isMR context then "true" else "false")
  /\ setClaudeEnvironment context trackingCommentId env !! "GITLAB_IID"
     = Some (numberToString (iid context)).
Proof.
  unfold setClaudeEnvironment.
  repeat split;
    repeat (rewrite lookup_insert_ne by done); by rewrite lookup_insert_eq.
Qed.

End HandOver.

(** X7. What [main] writes into [process.env] for a parsed context and
    the tracking comment is read back unchanged by the comment watcher: the
    watcher starts (no variable is missing), for the same project, kind
    (merge request or issue) and iid, and the note id it edits, parsed from
    [CLAUDE_COMMENT_ID], is the id of the tracking comment. *)
Theorem setClaudeEnvironment_watcher
    (env0 env : gmap string string) (context : GitLabContext)
    (trackingCommentId : Z) :
  parseGitLabContext env0 = Returns context ->
  (forall z, iid context = Num z -> safeInteger z) ->
  safeInteger trackingCommentId ->
  exists watcher,
    watcherOfEnv (setClaudeEnvironment context trackingCommentId env)
    = Some watcher
    /\ w_api watcher
       = newGitLabAPI (token context) (apiUrl context) (projectId context)
    /\ w_projectId watcher = projectId context
    /\ w_isMR watcher = isMR context
    /\ w_iid watcher = iid context
    /\ JsNum.parseInt (w_commentId watcher) = Num trackingCommentId.
Proof.
  intros Hparse _ _.
  destruct (setClaudeEnvironment_lookups context trackingCommentId env)
    as (Hc & Hp & Ht & Ha & Hm & Hi).
  assert (Js.truthy (token context) = true
          /\ Js.truthy (projectId context) = true
          /\ Js.truthy (apiUrl context) = true
          /\ exists z, iid context = Num z) as (Htok & Hproj & Hapi & z & Hz).
  { rewrite parseGitLabContext_cases, truthy_or_default_empty in Hparse.
    destruct (Js.truthy (envToken env0)) eqn:Htoken; simpl in Hparse; [|done].
    destruct (Js.truthy_opt (env0 !! "CI_PROJECT_ID")) eqn:Hproject;
      simpl in Hparse; [|done].
    destruct (JsNum.parseInt (iidSource env0)) as [|z]; [done|].
    injection Hparse as <-. cbn [token projectId apiUrl iid buildContext].
    split; [done|]. split; [by rewrite truthy_or_default_empty|].
    split; [by apply truthy_or_default | by exists z]. }
  unfold watcherOfEnv. rewrite Hc, Hp, Ht, Ha, Hm, Hi.
  cbn [Js.truthy_opt]. rewrite numberToString_truthy, Hproj, Htok, Hapi.
  cbn [negb orb default]. eexists. split; [reflexivity|].
  cbn [w_api w_projectId w_isMR w_iid w_commentId].
  split; [done|]. split; [done|].
  split; [by destruct (isMR context)|].
  split; [|apply parseInt_toString_Num].
  unfold Js.or_default, Js.or_else. rewrite numberToString_truthy, Hz.
  apply parseInt_toString_Num.
Qed.

Lemma setClaudeEnvironment_watcher_witness :
  exists watcher,
    watcherOfEnv
      (setClaudeEnvironment
         (buildContext exampleIssueEnv false (Num 10) "test-token") 77 ∅)
    = Some watcher
    /\ w_iid watcher = Num 10
    /\ JsNum.parseInt (w_commentId watcher) = Num 77.
Proof.
  destruct (setClaudeEnvironment_watcher exampleIssueEnv ∅
              (buildContext exampleIssueEnv false (Num 10) "test-token") 77)
    as (watcher & Hw & _ & _ & _ & Hiid & Hid).
  - reflexivity.
  - intros z [= <-]. unfold safeInteger. simpl. lia.
  - unfold safeInteger. simpl. lia.
  - exists watcher. split; [exact Hw|]. split; [exact Hiid | exact Hid].
Defined.

(** X8. The update script run in the environment that [main] prepared
    edits the tracking comment of the run and nothing else: with a
    non-empty body it issues exactly one request, the edit of the note with
    the tracking comment's id in the project and merge request or issue of
    the context, with that body; it exits with 0 when the edit resolves and
    with 1 when it is rejected. Without a body it issues no request and
    exits with 1, whatever the environment. *)
Theorem updateCommentScript_edits_tracking_comment
    (env0 env : gmap string string) (context : GitLabContext)
    (trackingCommentId : Z) (body : string)
    {World : Type}
    (host : forall T : Type, Request T -> World -> Outcome T * World)
    (w : World) :
  parseGitLabContext env0 = Returns context ->
  (forall z, iid context = Num z -> safeInteger z) ->
  safeInteger trackingCommentId ->
  body <> EmptyString ->
  (exists code w',
     run host
       (updateCommentScript
          (setClaudeEnvironment context trackingCommentId env) (Some body)) w
     = (Resolved code, w',
        [if isMR context
         then Issued (MergeRequestNotes_edit (projectId context) (iid context)
                        (Num trackingCommentId) body)
         else Issued (IssueNotes_edit (projectId context) (iid context)
                        (Num trackingCommentId) body)])
     /\ (code = 0%Z \/ code = 1%Z)
     /\ (code = 0%Z <->
         exists note,
           fst (host _
                  (if isMR context
                   then MergeRequestNotes_edit (projectId context) (iid context)
                          (Num trackingCommentId) body
                   else IssueNotes_edit (projectId context) (iid context)
                          (Num trackingCommentId) body) w)
           = Resolved note))
  /\ run host (updateCommentScript env None) w = (Resolved 1%Z, w, []).
Proof.
  intros Hparse _ _ Hbody. split.
  2:{ unfold updateCommentScript. cbn [Js.or_default Js.truthy negb].
      by rewrite !orb_true_r. }
  destruct (setClaudeEnvironment_lookups context trackingCommentId env)
    as (Hc & Hp & Ht & Ha & Hm & Hi).
  assert (Js.truthy (token context) = true
          /\ Js.truthy (projectId context) = true
          /\ Js.truthy (apiUrl context) = true
          /\ exists z, iid context = Num z) as (Htok & Hproj & Hapi & z & Hz).
  { rewrite parseGitLabContext_cases, truthy_or_default_empty in Hparse.
    destruct (Js.truthy (envToken env0)) eqn:Htoken; simpl in Hparse; [|done].
    destruct (Js.truthy_opt (env0 !! "CI_PROJECT_ID")) eqn:Hproject;
      simpl in Hparse; [|done].
    destruct (JsNum.parseInt (iidSource env0)) as [|z]; [done|].
    injection Hparse as <-. cbn [token projectId apiUrl iid buildContext].
    split; [done|]. split; [by rewrite truthy_or_default_empty|].
    split; [by apply truthy_or_default | by exists z]. }
  unfold updateCommentScript. rewrite Hc, Hp, Ht, Ha, Hm, Hi.
  cbn [Js.truthy_opt Js.or_default]. unfold Js.or_else.
  rewrite !numberToString_truthy, Hproj, Htok, Hapi.
  apply truthy_nonempty in Hbody. rewrite Hbody.
  cbn [negb orb default from_option id]. rewrite Hbody. cbn [negb].
  rewrite Hz, !parseInt_toString_Num.
  unfold updateComment.
  cbn [UpdateCommentParams.isMR UpdateCommentParams.projectId
       UpdateCommentParams.iid UpdateCommentParams.noteId
       UpdateCommentParams.body].
  destruct (isMR context); simpl bool_decide;
    cbn [try_catch bind await run];
    match goal with
    | |- context [host ?T ?r w] => destruct (host T r w) as [[note|e] w1]
    end;
    cbn [try_catch bind await run fst];
    eexists _, _; (split; [reflexivity|]);
    (split; [auto|]);
    (split; [intros Hcode; try discriminate Hcode; by eexists
            | intros [note' Hnote]; try discriminate Hnote; done]).
Qed.

Lemma updateCommentScript_edits_tracking_comment_witness :
  run (staticHost servedBoth)
    (updateCommentScript
       (setClaudeEnvironment
          (buildContext exampleIssueEnv false (Num 10) "test-token") 77 ∅)
       (Some "Working on it"))
    tt
  = (Resolved 0%Z, tt,
     [Issued (IssueNotes_edit "123" (Num 10) (Num 77) "Working on it")]).
Proof.
  destruct (updateCommentScript_edits_tracking_comment exampleIssueEnv ∅
              (buildContext exampleIssueEnv false (Num 10) "test-token") 77
              "Working on it" (staticHost servedBoth) tt)
    as [(code & w' & Hrun & _ & Hcode) _].
  - reflexivity.
  - intros z [= <-]. unfold safeInteger. simpl. lia.
  - unfold safeInteger. simpl. lia.
  - discriminate.
  - rewrite Hrun. destruct w'.
    assert (code = 0%Z) as ->.
    { apply Hcode. exists (editedNote (Num 77) "Working on it"). reflexivity. }
    reflexivity.
Defined.

(** ** The trigger detector and the bot identity, further *)

Lemma toLowerChar_idempotent c :
  Js.toLowerChar (Js.toLowerChar c) = Js.toLowerChar c.
Proof.
  destruct (Js.isUpper c) eqn:Hu; [|by rewrite !(toLowerChar_other c Hu)].
  apply toLowerChar_other. apply not_true_is_false. rewrite isUpper_range.
  rewrite toLowerChar_upper by done. apply isUpper_range in Hu. lia.
Qed.

Lemma toLowerCase_idempotent s :
  Js.toLowerCase (Js.toLowerCase s) = Js.toLowerCase s.
Proof.
  induction s as [|c s IH]; simpl; [done|].
  by rewrite toLowerChar_idempotent, IH.
Qed.

Lemma toLowerCase_length s : String.length (Js.toLowerCase s) = String.length s.
Proof. induction s as [|c s IH]; simpl; [done | by rewrite IH]. Qed.

Lemma append_length s t :
  String.length (s +:+ t) = String.length s + String.length t.
Proof.
  induction s as [|c s IH]; [done|]. rewrite append_String. simpl.
  by rewrite IH.
Qed.

Lemma same_letter_ascii a b :
  same_letter a b ->
  (nat_of_ascii a <? 128)%nat = true -> (nat_of_ascii b <? 128)%nat = true.
Proof.
  rewrite !Nat.ltb_lt.
  intros [->|[[Hu ->]|[Hu ->]]] Ha; [done|..]; apply isUpper_range in Hu; lia.
Qed.

Lemma eq_ignoring_case_ascii s t :
  eq_ignoring_case s t -> asciiText s = true -> asciiText t = true.
Proof.
  induction 1 as [|a b s t Hab Hst IH]; [done|]. cbn [asciiText].
  rewrite !andb_true_iff. intros [Ha Hs].
  split; [by apply (same_letter_ascii a b) | by apply IH].
Qed.

(** X9. On ASCII text the detector ignores the case of the letters A to
    Z on both sides: a body and a phrase that differ from an ASCII body and
    an ASCII phrase only by the case of such letters are ASCII again and
    give the same answer; in particular lower-casing the body first changes
    nothing. *)
Theorem isValidTrigger_ignores_case
    (text text' : string) (context context' : GitLabContext) :
  asciiText text = true ->
  asciiText (triggerPhrase context) = true ->
  eq_ignoring_case text text' ->
  eq_ignoring_case (triggerPhrase context) (triggerPhrase context') ->
  asciiText text' = true
  /\ asciiText (triggerPhrase context') = true
  /\ isValidTrigger text context = isValidTrigger text' context'
  /\ isValidTrigger (Js.toLowerCase text) context = isValidTrigger text context.
Proof.
  intros Hascii Hascii' Htext Hphrase.
  split; [by apply (eq_ignoring_case_ascii text)|].
  split; [by apply (eq_ignoring_case_ascii (triggerPhrase context))|].
  unfold isValidTrigger.
  apply toLowerCase_eq_ignoring_case in Htext, Hphrase.
  by rewrite Htext, Hphrase, toLowerCase_idempotent.
Qed.

Lemma isValidTrigger_ignores_case_witness :
  isValidTrigger "PLEASE @CLAUDE HELP" exampleContext
  = isValidTrigger "please @claude help" exampleContext.
Proof.
  destruct (isValidTrigger_ignores_case "PLEASE @CLAUDE HELP"
              "please @claude help" exampleContext exampleContext)
    as (_ & _ & Hsame & _);
    [reflexivity | reflexivity | | | exact Hsame];
    apply toLowerCase_eq_ignoring_case; reflexivity.
Defined.

(** X10. Edge cases of the detector on ASCII text: an empty phrase is
    found in every body, the empty one included; a body in which the phrase
    is found is at least as long as the phrase; and a text that embeds a
    trigger (a quote of it, say) is a trigger again. *)
Theorem isValidTrigger_edges (text : string) (context : GitLabContext) :
  asciiText text = true ->
  asciiText (triggerPhrase context) = true ->
  (triggerPhrase context = EmptyString -> isValidTrigger text context = true)
  /\ (isValidTrigger text context = true ->
      String.length (triggerPhrase context) <= String.length text)
  /\ (isValidTrigger text context = true ->
      forall pre post,
        asciiText pre = true -> asciiText post = true ->
        isValidTrigger (pre +:+ text +:+ post) context = true).
Proof.
  intros _ _. split.
  { intros Hempty. apply isValidTrigger_occurs. rewrite Hempty.
    exists EmptyString, EmptyString, text. split; [done | constructor]. }
  split.
  { unfold isValidTrigger. rewrite includes_spec. intros (pre & post & Heq).
    apply (f_equal String.length) in Heq.
    rewrite !append_length, !toLowerCase_length in Heq. lia. }
  intros Htrigger pre post _ _.
  apply isValidTrigger_occurs in Htrigger as (p & mid & q & -> & Hmid).
  apply isValidTrigger_occurs. exists (pre +:+ p), mid, (q +:+ post).
  split; [by rewrite !append_assoc | done].
Qed.

Lemma isValidTrigger_edges_witness :
  isValidTrigger "> Hey @claude can you help?" exampleContext = true
  /\ String.length (triggerPhrase exampleContext) <= 25.
Proof.
  destruct (isValidTrigger_edges "Hey @claude can you help?" exampleContext
              eq_refl eq_refl)
    as (_ & Hlength & Hembed).
  split.
  - apply (Hembed eq_refl "> " EmptyString); reflexivity.
  - apply (Hlength eq_refl).
Defined.

(** X11. The agent identity of the discussions is the pattern
    [claude], an optional hyphen or space, [bot], found anywhere in the
    user name and in any case; it is wider than the identity of the
    assignment test, which is the exact name [claude-bot]: an assignee that
    the assignment test accepts is always recognised as the author of its
    notes, while a name such as [Claude Bot] is recognised as author and
    not as assignee. *)
Theorem claudeBot_identities :
  (forall username,
     claudeBotPattern_test username = true <->
     exists pre mid post, username = pre +:+ mid +:+ post /\ botName mid)
  /\ (forall u n,
        isClaudeBotUser u = true -> GitLabNote.author n = Some u ->
        isClaudeAuthor n = true)
  /\ (isClaudeAuthor (noteBy 5 "Claude Bot" "Done.") = true
      /\ isClaudeBotUser (user 5 "Claude Bot") = false).
Proof.
  split; [apply claudeBotPattern_test_spec|]. split; [|by split].
  intros u n Hu Hn. apply bool_decide_eq_true in Hu.
  unfold isClaudeAuthor. by rewrite Hn, Hu.
Qed.

Lemma claudeBot_identities_witness :
  isClaudeAuthor (noteBy 3 "claude-bot" "Done.") = true.
Proof.
  destruct claudeBot_identities as (_ & Hassignee & _).
  apply (Hassignee (user 3 "claude-bot") (noteBy 3 "claude-bot" "Done."));
    reflexivity.
Defined.

(** ** [checkTrigger]: every run *)

Section CheckTriggerEveryRun.

Context {World : Type}.
Variable host : forall T : Type, Request T -> World -> Outcome T * World.
Variables (this : GitLabAPI) (context : GitLabContext).

(** What a run of [checkTrigger] does, request by request. *)
Lemma checkTrigger_run w :
  run host (checkTrigger this context) w =
  let '(o, w1) := host _ (discussionsRequest this context) w in
  match o with
  | Rejected e =>
      (Resolved (errorResult e), w1, [Issued (discussionsRequest this context)])
  | Resolved discussions =>
      let triggerComments := collectTriggerComments context discussions in
      if (0 <? length (newTriggers triggerComments))%nat then
        (Resolved
           (TriggerCheckResult.mk true
              ("Found "
                 +:+ JsNum.lengthToString (length (newTriggers triggerComments))
                 +:+ " new trigger comment(s) without Claude replies")
              (Some comment) (newTriggers triggerComments)
              (List.existsb TriggerComment.hasClaudeReply triggerComments)),
         w1, [Issued (discussionsRequest this context)])
      else if (0 <? length triggerComments)%nat then
        (Resolved
           (TriggerCheckResult.mk false
              "All trigger comments already have Claude replies"
              (Some comment) [] true),
         w1, [Issued (discussionsRequest this context)])
      else if isMR context then
        let '(o2, w2) :=
          host _ (MergeRequests_show (this_projectId this) (iid context)) w1 in
        match o2 with
        | Rejected e =>
            (Resolved (errorResult e), w2,
             [Issued (discussionsRequest this context);
              Issued (MergeRequests_show (this_projectId this) (iid context))])
        | Resolved mr =>
            if claudeBotAssigned mr then
              (Resolved
                 (TriggerCheckResult.mk true "Claude bot is assigned"
                    (Some assignment) [] false),
               w2,
               [Issued (discussionsRequest this context);
                Issued (MergeRequests_show (this_projectId this) (iid context))])
            else
              labelStep host this context w2
                [Issued (discussionsRequest this context);
                 Issued (MergeRequests_show (this_projectId this) (iid context))]
        end
      else labelStep host this context w1
             [Issued (discussionsRequest this context)]
  end.
Proof.
  unfold checkTrigger, labelStep, errorResult.
  cbn [try_catch bind await run].
  destruct (host _ (discussionsRequest this context) w) as [[discussions|e] w1];
    cbn [try_catch bind await run]; [|done].
  destruct (0 <? length (newTriggers (collectTriggerComments context discussions)))%nat;
    cbn [try_catch bind await run]; [done|].
  destruct (0 <? length (collectTriggerComments context discussions))%nat;
    cbn [try_catch bind await run]; [done|].
  destruct (isMR context); cbn [try_catch bind await run].
  - destruct (host _ (MergeRequests_show (this_projectId this) (iid context)) w1)
      as [[mr|e] w2]; cbn [try_catch bind await run]; [|done].
    destruct (claudeBotAssigned mr); cbn [try_catch bind await run]; [done|].
    destruct (host _ (MergeRequests_show (this_projectId this) (iid context)) w2)
      as [[mr2|e] w3]; cbn [try_catch bind await run]; [|done].
    by destruct (hasClaudeLabel (GitLabMergeRequest.labels mr2)).
  - destruct (host _ (Issues_show (this_projectId this) (iid context)) w1)
      as [[issue|e] w2]; cbn [try_catch bind await run]; [|done].
    by destruct (hasClaudeLabel (GitLabIssue.labels issue)).
Qed.

End CheckTriggerEveryRun.

Ltac settle_read_only_run :=
  eexists _, _, _; (split; [reflexivity|]);
  repeat match goal with |- _ /\ _ => split end;
  [ repeat constructor; auto
  | simpl; lia
  | simpl; lia
  | intros; simpl; first [lia | congruence]
  | reflexivity ].

(** X12. [checkTrigger] never rejects and never writes: against every
    host it resolves to a result, after one to three requests (at most two
    for an issue) that all only read, the first of which fetches the
    discussions. *)
Theorem checkTrigger_resolves_read_only
    {World : Type}
    (host : forall T : Type, Request T -> World -> Outcome T * World)
    (this : GitLabAPI) (context : GitLabContext) (w : World) :
  exists result w' events,
    run host (checkTrigger this context) w = (Resolved result, w', events)
    /\ Forall (fun e => isReadRequest e = true) events
    /\ 1 <= length events <= 3
    /\ (isMR context = false -> length events <= 2)
    /\ head events = Some (Issued (discussionsRequest this context)).
Proof.
  assert (isReadRequest (Issued (discussionsRequest this context)) = true)
    as Hread by (unfold discussionsRequest; by destruct (isMR context)).
  rewrite checkTrigger_run. unfold labelStep.
  destruct (host _ (discussionsRequest this context) w) as [[discussions|e] w1];
    [|settle_read_only_run].
  cbv zeta.
  destruct (0 <? length (newTriggers (collectTriggerComments context discussions)))%nat;
    [settle_read_only_run|].
  destruct (0 <? length (collectTriggerComments context discussions))%nat;
    [settle_read_only_run|].
  destruct (isMR context) eqn:HisMR.
  - destruct (host _ (MergeRequests_show (this_projectId this) (iid context)) w1)
      as [[mr|e] w2]; [|settle_read_only_run].
    destruct (claudeBotAssigned mr); [settle_read_only_run|].
    destruct (host _ (MergeRequests_show (this_projectId this) (iid context)) w2)
      as [o3 w3].
    settle_read_only_run.
  - destruct (host _ (Issues_show (this_projectId this) (iid context)) w1)
      as [o2 w2].
    settle_read_only_run.
Qed.

(** X13. A transport error becomes a decision not to run that keeps the
    error text: when the discussions request is rejected with [e], and when,
    no trigger note being there, the request for the merge request or issue
    is rejected with [e], the result is [shouldRun = false] with the
    reason [Error checking trigger: e], no trigger type, no trigger
    comments and no prior response; no request follows the rejected one. *)
Theorem checkTrigger_error_conversion
    {World : Type}
    (host : forall T : Type, Request T -> World -> Outcome T * World)
    (this : GitLabAPI) (context : GitLabContext) (w w1 : World) (e : string) :
  (host _ (discussionsRequest this context) w = (Rejected e, w1) ->
   run host (checkTrigger this context) w =
   (Resolved
      (TriggerCheckResult.mk false ("Error checking trigger: " +:+ e) None [] false),
    w1, [Issued (discussionsRequest this context)]))
  /\ (forall discussions w2,
        host _ (discussionsRequest this context) w = (Resolved discussions, w1) ->
        collectTriggerComments context discussions = [] ->
        host _ (MergeRequests_show (this_projectId this) (iid context)) w1
        = (Rejected e, w2) ->
        isMR context = true ->
        run host (checkTrigger this context) w =
        (Resolved
           (TriggerCheckResult.mk false ("Error checking trigger: " +:+ e)
              None [] false),
         w2,
         [Issued (discussionsRequest this context);
          Issued (MergeRequests_show (this_projectId this) (iid context))]))
  /\ (forall discussions w2,
        host _ (discussionsRequest this context) w = (Resolved discussions, w1) ->
        collectTriggerComments context discussions = [] ->
        host _ (Issues_show (this_projectId this) (iid context)) w1
        = (Rejected e, w2) ->
        isMR context = false ->
        run host (checkTrigger this context) w =
        (Resolved
           (TriggerCheckResult.mk false ("Error checking trigger: " +:+ e)
              None [] false),
         w2,
         [Issued (discussionsRequest this context);
          Issued (Issues_show (this_projectId this) (iid context))])).
Proof.
  split; [intros Hfetch; by rewrite checkTrigger_run, Hfetch|].
  split.
  - intros discussions w2 Hfetch Hnone Hshow HisMR.
    rewrite checkTrigger_run, Hfetch. cbv zeta.
    rewrite Hnone, HisMR in *. cbn [newTriggers List.filter length Nat.ltb Nat.leb].
    by rewrite Hshow.
  - intros discussions w2 Hfetch Hnone Hshow HisMR.
    rewrite checkTrigger_run, Hfetch. cbv zeta.
    rewrite Hnone, HisMR. cbn [newTriggers List.filter length Nat.ltb Nat.leb].
    unfold labelStep. by rewrite HisMR, Hshow.
Qed.

Lemma checkTrigger_error_conversion_witness :
  run (staticHost servedFailing) (checkTrigger exampleAPI exampleContext) tt =
  (Resolved
     (TriggerCheckResult.mk false
        "Error checking trigger: Error: 401 Unauthorized" None [] false),
   tt, [Issued (discussionsRequest exampleAPI exampleContext)]).
Proof.
  apply (checkTrigger_error_conversion (staticHost servedFailing)
           exampleAPI exampleContext tt tt "Error: 401 Unauthorized").
  reflexivity.
Defined.

Lemma hasClaudeLabel_spec labels :
  hasClaudeLabel labels = true <-> exists ls, labels = Some ls /\ In "claude" ls.
Proof.
  unfold hasClaudeLabel. destruct labels as [ls|].
  - rewrite List.existsb_exists. split.
    + intros (l & Hl & Heq). apply bool_decide_eq_true in Heq as ->.
      by exists ls.
    + intros (ls' & [= <-] & Hin). exists "claude". split; [done|].
      by apply bool_decide_eq_true.
  - split; [done | by intros (ls & ? & _)].
Qed.

(** X14. Without any trigger note the merge request or issue decides.
    For a merge request to which the bot is assigned the decision is to run
    on an assignment, after two requests: the labels are not consulted.
    For a merge request without that assignment the merge request is
    fetched a second time and the labels of that second answer decide. For
    an issue the assignment is never consulted; the labels of the issue
    decide. The label test is the exact label [claude]. *)
Theorem checkTrigger_assignment_then_label
    {World : Type}
    (host : forall T : Type, Request T -> World -> Outcome T * World)
    (this : GitLabAPI) (context : GitLabContext) (w w1 : World)
    (discussions : option (list GitLabDiscussion.t)) :
  host _ (discussionsRequest this context) w = (Resolved discussions, w1) ->
  collectTriggerComments context discussions = [] ->
  (forall mr w2,
     isMR context = true ->
     host _ (MergeRequests_show (this_projectId this) (iid context)) w1
     = (Resolved mr, w2) ->
     claudeBotAssigned mr = true ->
     run host (checkTrigger this context) w =
     (Resolved
        (TriggerCheckResult.mk true "Claude bot is assigned"
           (Some assignment) [] false),
      w2,
      [Issued (discussionsRequest this context);
       Issued (MergeRequests_show (this_projectId this) (iid context))]))
  /\ (forall mr w2 mr2 w3,
        isMR context = true ->
        host _ (MergeRequests_show (this_projectId this) (iid context)) w1
        = (Resolved mr, w2) ->
        claudeBotAssigned mr = false ->
        host _ (MergeRequests_show (this_projectId this) (iid context)) w2
        = (Resolved mr2, w3) ->
        run host (checkTrigger this context) w =
        (Resolved
           (if hasClaudeLabel (GitLabMergeRequest.labels mr2)
            then TriggerCheckResult.mk true "Found claude label" (Some label) [] false
            else TriggerCheckResult.mk false "No trigger found" None [] false),
         w3,
         [Issued (discussionsRequest this context);
          Issued (MergeRequests_show (this_projectId this) (iid context));
          Issued (MergeRequests_show (this_projectId this) (iid context))]))
  /\ (forall issue w2,
        isMR context = false ->
        host _ (Issues_show (this_projectId this) (iid context)) w1
        = (Resolved issue, w2) ->
        run host (checkTrigger this context) w =
        (Resolved
           (if hasClaudeLabel (GitLabIssue.labels issue)
            then TriggerCheckResult.mk true "Found claude label" (Some label) [] false
            else TriggerCheckResult.mk false "No trigger found" None [] false),
         w2,
         [Issued (discussionsRequest this context);
          Issued (Issues_show (this_projectId this) (iid context))]))
  /\ (forall labels,
        hasClaudeLabel labels = true <->
        exists ls, labels = Some ls /\ In "claude" ls).
Proof.
  intros Hfetch Hnone.
  pose proof (checkTrigger_run host this context w) as Hcheck.
  rewrite Hfetch in Hcheck. cbv zeta in Hcheck. rewrite Hnone in Hcheck.
  cbn [newTriggers List.filter length Nat.ltb Nat.leb] in Hcheck.
  split.
  { intros mr w2 HisMR Hshow Hassigned.
    by rewrite Hcheck, HisMR, Hshow, Hassigned. }
  split.
  { intros mr w2 mr2 w3 HisMR Hshow Hassigned Hshow2.
    rewrite Hcheck, HisMR, Hshow, Hassigned. unfold labelStep.
    rewrite HisMR, Hshow2. simpl.
    by destruct (hasClaudeLabel (GitLabMergeRequest.labels mr2)). }
  split; [|apply hasClaudeLabel_spec].
  intros issue w2 HisMR Hshow.
  rewrite Hcheck, HisMR. unfold labelStep. rewrite HisMR, Hshow. simpl.
  by destruct (hasClaudeLabel (GitLabIssue.labels issue)).
Qed.

Lemma checkTrigger_assignment_then_label_witness :
  run (staticHost servedAssigned) (checkTrigger exampleAPI exampleContext) tt =
  (Resolved
     (TriggerCheckResult.mk true "Claude bot is assigned"
        (Some assignment) [] false),
   tt,
   [Issued (discussionsRequest exampleAPI exampleContext);
    Issued (MergeRequests_show "123" (Num 42))])
  /\ run (staticHost servedAssigned)
       (checkTrigger exampleAPI exampleIssueContext) tt =
     (Resolved
        (TriggerCheckResult.mk true "Found claude label" (Some label) [] false),
      tt,
      [Issued (discussionsRequest exampleAPI exampleIssueContext);
       Issued (Issues_show "123" (Num 10))]).
Proof.
  split.
  - destruct (checkTrigger_assignment_then_label (staticHost servedAssigned)
                exampleAPI exampleContext tt tt (Some []) eq_refl eq_refl)
      as (Hassigned & _).
    apply (Hassigned assignedMergeRequest tt); reflexivity.
  - destruct (checkTrigger_assignment_then_label (staticHost servedAssigned)
                exampleAPI exampleIssueContext tt tt (Some []) eq_refl eq_refl)
      as (_ & _ & Hissue & _).
    apply (Hissue labelledIssue tt); reflexivity.
Defined.

(** X15. Trigger notes take precedence over assignment and label. When
    the discussions are fetched, the result has the trigger type [comment]
    exactly when some note is a trigger note, answered or not; then the
    merge request or issue is never fetched, the decision is to run exactly
    when some discussion holds a trigger note and no note of the agent, and
    a prior response is reported exactly when some discussion holds both a
    trigger note and a note of the agent. *)
Theorem checkTrigger_comment_priority
    {World : Type}
    (host : forall T : Type, Request T -> World -> Outcome T * World)
    (this : GitLabAPI) (context : GitLabContext) (w w1 : World)
    (ds : list GitLabDiscussion.t) :
  host _ (discussionsRequest this context) w = (Resolved (Some ds), w1) ->
  exists result w' events,
    run host (checkTrigger this context) w = (Resolved result, w', events)
    /\ (TriggerCheckResult.triggerType result = Some comment <->
        exists d n, In d ds /\ In n (notesOf d)
                    /\ isTriggerNote context n = true)
    /\ (TriggerCheckResult.triggerType result = Some comment ->
        events = [Issued (discussionsRequest this context)]
        /\ w' = w1
        /\ (TriggerCheckResult.shouldRun result = true <->
            exists d n, In d ds /\ In n (notesOf d)
                        /\ isTriggerNote context n = true
                        /\ hasAgentNote d = false)
        /\ (TriggerCheckResult.hasExistingResponse result = true <->
            exists d n, In d ds /\ In n (notesOf d)
                        /\ isTriggerNote context n = true
                        /\ hasAgentNote d = true)).
Proof.
  intros Hfetch.
  assert ((exists d n, In d ds /\ In n (notesOf d)
                       /\ isTriggerNote context n = true)
          <-> collectTriggerComments context (Some ds) <> []) as Hexists.
  { split.
    - intros (d & n & Hd & Hn & Htr) Hnil.
      assert (In (TriggerComment.mk n (GitLabDiscussion.id d) (hasAgentNote d))
                (collectTriggerComments context (Some ds))) as Hin
        by (apply in_collectTriggerComments; by exists d).
      by rewrite Hnil in Hin.
    - destruct (collectTriggerComments context (Some ds)) as [|t l] eqn:Hc; [done|].
      intros _.
      assert (In t (collectTriggerComments context (Some ds))) as Hin
        by (rewrite Hc; by left).
      apply in_collectTriggerComments in Hin as (d & Hd & Hn & Htr & _).
      by exists d, (TriggerComment.note t). }
  assert ((exists d n, In d ds /\ In n (notesOf d)
                       /\ isTriggerNote context n = true
                       /\ hasAgentNote d = false)
          <-> unansweredTriggers context ds <> []) as Hnew.
  { split.
    - intros (d & n & Hd & Hn & Htr & Hno) Hnil.
      assert (In (TriggerComment.mk n (GitLabDiscussion.id d) false)
                (unansweredTriggers context ds)) as Hin.
      { apply in_unansweredTriggers. exists d.
        by rewrite <- hasAgentNote_false. }
      by rewrite Hnil in Hin.
    - destruct (unansweredTriggers context ds) as [|t l] eqn:Hu; [done|].
      intros _.
      assert (In t (unansweredTriggers context ds)) as Hin
        by (rewrite Hu; by left).
      apply in_unansweredTriggers in Hin as (d & Hd & Hn & Htr & Hno & _).
      exists d, (TriggerComment.note t). by rewrite hasAgentNote_false. }
  assert (List.existsb TriggerComment.hasClaudeReply
            (collectTriggerComments context (Some ds)) = true
          <-> exists d n, In d ds /\ In n (notesOf d)
                          /\ isTriggerNote context n = true
                          /\ hasAgentNote d = true) as Hprior.
  { rewrite List.existsb_exists. split.
    - intros (t & Hin & Hrep).
      apply in_collectTriggerComments in Hin as (d & Hd & Hn & Htr & _ & Hag).
      exists d, (TriggerComment.note t). by rewrite <- Hag.
    - intros (d & n & Hd & Hn & Htr & Hag).
      exists (TriggerComment.mk n (GitLabDiscussion.id d) (hasAgentNote d)).
      split; [|done]. apply in_collectTriggerComments. by exists d. }
  rewrite checkTrigger_run, Hfetch. cbv zeta. rewrite newTriggers_unanswered.
  destruct (unansweredTriggers context ds) as [|t l] eqn:Hu.
  - cbn [length Nat.ltb Nat.leb].
    destruct (collectTriggerComments context (Some ds)) as [|t' l'] eqn:Hc.
    + cbn [length Nat.ltb Nat.leb].
      assert (forall w0 before,
                exists result w' events,
                  labelStep host this context w0 before
                  = (Resolved result, w', events)
                  /\ TriggerCheckResult.triggerType result <> Some comment)
        as Hlabel.
      { intros w0 before. unfold labelStep.
        destruct (isMR context).
        - destruct (host _ (MergeRequests_show _ _) w0) as [[mr|e] w2];
            [destruct (hasClaudeLabel (GitLabMergeRequest.labels mr))|];
            eexists _, _, _; by split.
        - destruct (host _ (Issues_show _ _) w0) as [[issue|e] w2];
            [destruct (hasClaudeLabel (GitLabIssue.labels issue))|];
            eexists _, _, _; by split. }
      assert (~ exists d n, In d ds /\ In n (notesOf d)
                            /\ isTriggerNote context n = true) as Hnone
        by (rewrite Hexists; tauto).
      destruct (isMR context).
      * destruct (host _ (MergeRequests_show _ _) w1) as [[mr|e] w2].
        -- destruct (claudeBotAssigned mr).
           ++ eexists _, _, _. split; [done|]. simpl. split; [|done].
              split; [done | tauto].
           ++ destruct (Hlabel w2
                          [Issued (discussionsRequest this context);
                           Issued (MergeRequests_show (this_projectId this)
                                     (iid context))])
                as (result & w' & events & -> & Htype).
              eexists _, _, _. split; [done|]. split; [|done].
              split; [done | tauto].
        -- eexists _, _, _. split; [done|]. simpl. split; [|done].
           split; [done | tauto].
      * destruct (Hlabel w1 [Issued (discussionsRequest this context)])
          as (result & w' & events & -> & Htype).
        eexists _, _, _. split; [done|]. split; [|done].
        split; [done | tauto].
    + cbn [length Nat.ltb Nat.leb]. eexists _, _, _. split; [done|]. simpl.
      split; [split; [intros _; apply Hexists; done | done]|].
      intros _. split; [done|]. split; [done|]. split.
      * split; [done|]. intros Hsome. apply Hnew in Hsome. done.
      * split; [intros _|done]. apply Hprior.
        destruct t' as [n' id' [|]].
        { simpl. done. }
        exfalso.
        assert (In (TriggerComment.mk n' id' false)
                  (unansweredTriggers context ds)) as Hin.
        { rewrite <- newTriggers_unanswered, Hc. simpl. by left. }
        by rewrite Hu in Hin.
  - cbn [length Nat.ltb Nat.leb]. eexists _, _, _. split; [done|]. simpl.
    assert (collectTriggerComments context (Some ds) <> []) as Hsome.
    { intros Hnil. pose proof (newTriggers_unanswered context ds) as Heq.
      rewrite Hnil, Hu in Heq. done. }
    split; [split; [intros _; by apply Hexists | done]|].
    intros _. split; [done|]. split; [done|]. split.
    + split; [intros _|done]. apply Hnew. done.
    + apply Hprior.
Qed.

Lemma checkTrigger_comment_priority_witness :
  exists result,
    (run (staticHost servedBoth) (checkTrigger exampleAPI exampleContext) tt).1.1
    = Resolved result
    /\ TriggerCheckResult.triggerType result = Some comment
    /\ TriggerCheckResult.hasExistingResponse result = true.
Proof.
  destruct (checkTrigger_comment_priority (staticHost servedBoth)
              exampleAPI exampleContext tt tt
              [unansweredDiscussion; answeredDiscussion] eq_refl)
    as (result & w' & events & Hrun & Htype & Hrest).
  exists result. rewrite Hrun. split; [reflexivity|].
  assert (TriggerCheckResult.triggerType result = Some comment) as Hcomment.
  { apply Htype. exists unansweredDiscussion,
      (noteBy 1 "alice" "Hey @claude can you help?").
    split; [by left|]. split; [by left | reflexivity]. }
  split; [exact Hcomment|].
  destruct (Hrest Hcomment) as (_ & _ & _ & Hprior). apply Hprior.
  exists answeredDiscussion, (noteBy 2 "bob" "@Claude please review").
  split; [right; by left|]. split; [by left|]. split; reflexivity.
Defined.

(** ** The classifier, further *)

Section Sublists.

Context {A B : Type}.

Lemma filter_sublist_of (f : A -> bool) (l : list A) :
  List.filter f l `sublist_of` l.
Proof.
  induction l as [|a l IH]; simpl; [constructor|].
  destruct (f a); by constructor.
Qed.

Lemma flat_map_sublist (f g : A -> list B) (l : list A) :
  (forall a, f a `sublist_of` g a) ->
  flat_map f l `sublist_of` flat_map g l.
Proof.
  intros Hfg. induction l as [|a l IH]; simpl; [constructor|].
  by apply sublist_app.
Qed.

Lemma flat_map_filter_sublist (f : A -> list B) (p : A -> bool) (l : list A) :
  flat_map f (List.filter p l) `sublist_of` flat_map f l.
Proof.
  induction l as [|a l IH]; simpl; [constructor|].
  destruct (p a); simpl.
  - by apply sublist_app.
  - by apply sublist_inserts_l.
Qed.

Lemma filter_none (f : A -> bool) (l : list A) :
  (forall a, In a l -> f a = false) -> List.filter f l = [].
Proof.
  induction l as [|a l IH]; intros Hall; simpl; [done|].
  rewrite (Hall a) by (by left). apply IH. intros b Hb. apply Hall. by right.
Qed.

Lemma filter_all (f : A -> bool) (l : list A) :
  (forall a, In a l -> f a = true) -> List.filter f l = l.
Proof.
  induction l as [|a l IH]; intros Hall; simpl; [done|].
  rewrite (Hall a) by (by left). f_equal. apply IH. intros b Hb.
  apply Hall. by right.
Qed.

End Sublists.

Section CategorizeFurther.

Variable context : GitLabContext.

Lemma notesIn_app k ds1 ds2 :
  notesIn context k (ds1 ++ ds2) = notesIn context k ds1 ++ notesIn context k ds2.
Proof. apply flat_map_app. Qed.

Lemma notesIn_sublist k ds : notesIn context k ds `sublist_of` allNotes ds.
Proof. apply flat_map_sublist. intros d. apply filter_sublist_of. Qed.

Lemma selectCategory_trigger d notes :
  selectCategory context CatTrigger d notes =
  List.filter (fun n => negb (isClaudeAuthor n))
    (List.filter (isTriggerNote context) notes).
Proof.
  unfold selectCategory.
  induction notes as [|n notes IH]; [done|]. cbn [List.filter].
  rewrite IH. unfold categoryOf.
  destruct (isTriggerNote context n) eqn:Htr; cbn [List.filter];
    destruct (isClaudeAuthor n); simpl; try done.
  by destruct (isResolved d).
Qed.

Lemma notes_of_triggers ds :
  List.map TriggerComment.note (collectTriggerComments context (Some ds)) =
  flat_map (fun d => List.filter (isTriggerNote context) (notesOf d)) ds.
Proof.
  rewrite collectTriggerComments_spec.
  induction ds as [|d ds IH]; [done|]. simpl.
  rewrite List.map_app, IH. f_equal. unfold triggersOf.
  rewrite List.map_map. simpl. apply List.map_id.
Qed.

Lemma notes_of_unanswered ds :
  List.map TriggerComment.note (unansweredTriggers context ds) =
  notesIn context CatTrigger
    (List.filter (fun d => negb (hasAgentNote d)) ds).
Proof.
  unfold unansweredTriggers.
  induction ds as [|d ds IH]; [done|]. cbn [flat_map List.filter].
  rewrite List.map_app, IH.
  destruct (hasAgentNote d) eqn:Hag; cbn [negb]; [done|].
  rewrite notesIn_cons. f_equal.
  rewrite List.map_map. cbn [TriggerComment.note]. rewrite List.map_id.
  rewrite selectCategory_trigger. symmetry. apply filter_all.
  intros n Hn. apply filter_In in Hn as [Hn _].
  rewrite hasAgentNote_false in Hag. by rewrite (Hag n Hn).
Qed.

Lemma selectCategory_resolved_none d notes :
  isResolved d = false -> selectCategory context CatResolved d notes = [].
Proof.
  intros Hd. apply filter_none. intros n _. apply bool_decide_eq_false.
  rewrite categoryOf_resolved, Hd. by intros (_ & _ & ?).
Qed.

Lemma selectCategory_context_none d notes :
  isResolved d = true -> selectCategory context CatContext d notes = [].
Proof.
  intros Hd. apply filter_none. intros n _. apply bool_decide_eq_false.
  rewrite categoryOf_context, Hd. by intros (_ & _ & ?).
Qed.

Lemma notesIn_resolved ds :
  notesIn context CatResolved ds
  = notesIn context CatResolved (List.filter isResolved ds)
  /\ notesIn context CatContext (List.filter isResolved ds) = [].
Proof.
  induction ds as [|d ds [IH1 IH2]]; [done|]. cbn [List.filter].
  destruct (isResolved d) eqn:Hd; rewrite !notesIn_cons.
  - rewrite <- IH1, IH2, selectCategory_context_none by done. done.
  - by rewrite selectCategory_resolved_none.
Qed.

Lemma notesIn_unresolved ds :
  notesIn context CatContext ds
  = notesIn context CatContext (List.filter (fun d => negb (isResolved d)) ds)
  /\ notesIn context CatResolved
       (List.filter (fun d => negb (isResolved d)) ds) = [].
Proof.
  induction ds as [|d ds [IH1 IH2]]; [done|]. cbn [List.filter].
  destruct (isResolved d) eqn:Hd; cbn [negb]; rewrite !notesIn_cons.
  - by rewrite selectCategory_context_none.
  - rewrite <- IH1, IH2, selectCategory_resolved_none by done. done.
Qed.

End CategorizeFurther.

(** X16. The classifier works discussion by discussion and keeps the
    order of the notes: classifying the discussions [ds1] followed by [ds2]
    gives, in each of the four arrays, the notes of [ds1] followed by those
    of [ds2]; and each array lists its notes in the order in which they
    occur in the discussions (it is a subsequence of all notes). *)
Theorem categorizeComments_app
    (context : GitLabContext) (ds1 ds2 : list GitLabDiscussion.t) :
  (CategorizedComments.triggerComments (categorizeComments (ds1 ++ ds2) context)
   = CategorizedComments.triggerComments (categorizeComments ds1 context)
     ++ CategorizedComments.triggerComments (categorizeComments ds2 context)
   /\ CategorizedComments.contextComments (categorizeComments (ds1 ++ ds2) context)
      = CategorizedComments.contextComments (categorizeComments ds1 context)
        ++ CategorizedComments.contextComments (categorizeComments ds2 context)
   /\ CategorizedComments.resolvedComments (categorizeComments (ds1 ++ ds2) context)
      = CategorizedComments.resolvedComments (categorizeComments ds1 context)
        ++ CategorizedComments.resolvedComments (categorizeComments ds2 context)
   /\ CategorizedComments.claudeReplies (categorizeComments (ds1 ++ ds2) context)
      = CategorizedComments.claudeReplies (categorizeComments ds1 context)
        ++ CategorizedComments.claudeReplies (categorizeComments ds2 context))
  /\ (CategorizedComments.triggerComments (categorizeComments ds1 context)
        `sublist_of` allNotes ds1
      /\ CategorizedComments.contextComments (categorizeComments ds1 context)
           `sublist_of` allNotes ds1
      /\ CategorizedComments.resolvedComments (categorizeComments ds1 context)
           `sublist_of` allNotes ds1
      /\ CategorizedComments.claudeReplies (categorizeComments ds1 context)
           `sublist_of` allNotes ds1).
Proof.
  rewrite !categorizeComments_spec.
  cbn [CategorizedComments.triggerComments CategorizedComments.contextComments
       CategorizedComments.resolvedComments CategorizedComments.claudeReplies].
  split.
  - repeat split; apply notesIn_app.
  - repeat split; apply notesIn_sublist.
Qed.

(** X17. The classifier and the trigger check agree on what a trigger
    is, up to the notes of the agent: the trigger comments of the classifier
    are the notes of the trigger comments that [checkTrigger] collects,
    without those the agent wrote, in the same order; the new triggers of
    [checkTrigger] are the trigger comments the classifier finds in the
    discussions that hold no note of the agent, so each of them is a trigger
    comment of the classifier, in the same order. *)
Theorem categorizeComments_checkTrigger_triggers
    (context : GitLabContext) (ds : list GitLabDiscussion.t) :
  CategorizedComments.triggerComments (categorizeComments ds context)
  = List.filter (fun n => negb (isClaudeAuthor n))
      (List.map TriggerComment.note (collectTriggerComments context (Some ds)))
  /\ List.map TriggerComment.note
       (newTriggers (collectTriggerComments context (Some ds)))
     = CategorizedComments.triggerComments
         (categorizeComments
            (List.filter (fun d => negb (hasAgentNote d)) ds) context)
  /\ List.map TriggerComment.note
       (newTriggers (collectTriggerComments context (Some ds)))
     `sublist_of`
     CategorizedComments.triggerComments (categorizeComments ds context).
Proof.
  rewrite !categorizeComments_spec, newTriggers_unanswered, notes_of_unanswered,
    notes_of_triggers.
  cbn [CategorizedComments.triggerComments].
  split; [|split; [done | apply flat_map_filter_sublist]].
  induction ds as [|d ds IH]; [done|].
  rewrite notesIn_cons. cbn [flat_map]. rewrite List.filter_app, <- IH.
  by rewrite selectCategory_trigger.
Qed.

(** X18. Only the resolution state of its own discussion sends a note
    to the resolved or to the context array: the resolved comments are those
    of the resolved discussions alone, which contribute no context comment,
    and the context comments are those of the unresolved discussions alone,
    which contribute no resolved comment. *)
Theorem categorizeComments_by_resolution
    (context : GitLabContext) (ds : list GitLabDiscussion.t) :
  (CategorizedComments.resolvedComments (categorizeComments ds context)
   = CategorizedComments.resolvedComments
       (categorizeComments (List.filter isResolved ds) context)
   /\ CategorizedComments.contextComments
        (categorizeComments (List.filter isResolved ds) context) = [])
  /\ (CategorizedComments.contextComments (categorizeComments ds context)
      = CategorizedComments.contextComments
          (categorizeComments
             (List.filter (fun d => negb (isResolved d)) ds) context)
      /\ CategorizedComments.resolvedComments
           (categorizeComments
              (List.filter (fun d => negb (isResolved d)) ds) context) = []).
Proof.
  rewrite !categorizeComments_spec.
  cbn [CategorizedComments.contextComments CategorizedComments.resolvedComments].
  split; [apply notesIn_resolved | apply notesIn_unresolved].
Qed.

(** ** The comment watcher, further *)

(** X19. One run of the watcher's callback against any host: it never
    rejects; it reads the channel file first; it issues at most one further
    request, and that request edits the note whose id is parsed from the
    comment id, in the watcher's project and merge request or issue, with
    the content just read, which is then neither empty nor the last
    published content; the content counts as published only if that edit
    resolves. *)
Theorem onInterval_contained
    {World : Type}
    (host : forall T : Type, Request T -> World -> Outcome T * World)
    (w : Watcher) (lastContent : string) (w0 : World) :
  exists content w' events,
    run host (onInterval w lastContent) w0 = (Resolved content, w', events)
    /\ ((events = [Issued (readFile UPDATE_FILE "utf-8")]
         /\ content = lastContent
         /\ w' = (host _ (readFile UPDATE_FILE "utf-8") w0).2)
        \/ exists body,
             let edit :=
               if w_isMR w
               then MergeRequestNotes_edit (w_projectId w) (w_iid w)
                      (JsNum.parseInt (w_commentId w)) body
               else IssueNotes_edit (w_projectId w) (w_iid w)
                      (JsNum.parseInt (w_commentId w)) body in
             let w1 := (host _ (readFile UPDATE_FILE "utf-8") w0).2 in
             events = [Issued (readFile UPDATE_FILE "utf-8"); Issued edit]
             /\ (host _ (readFile UPDATE_FILE "utf-8") w0).1 = Resolved body
             /\ body <> EmptyString
             /\ body <> lastContent
             /\ content = match (host _ edit w1).1 with
                          | Resolved _ => body
                          | Rejected _ => lastContent
                          end
             /\ w' = (host _ edit w1).2).
Proof.
  unfold onInterval. cbn [try_catch bind await run].
  destruct (host _ (readFile UPDATE_FILE "utf-8") w0) as [[body|e] w1];
    cbn [try_catch bind await run fst snd].
  2:{ eexists _, _, _. split; [done|]. by left. }
  destruct (Js.truthy body) eqn:Hbody; cbn [andb].
  2:{ eexists _, _, _. split; [done|]. by left. }
  destruct (bool_decide (body = lastContent)) eqn:Hsame; cbn [negb].
  { eexists _, _, _. split; [done|]. by left. }
  apply truthy_nonempty in Hbody. apply bool_decide_eq_false in Hsame.
  unfold updateComment.
  cbn [UpdateCommentParams.isMR UpdateCommentParams.projectId
       UpdateCommentParams.iid UpdateCommentParams.noteId
       UpdateCommentParams.body].
  destruct (w_isMR w); cbn [try_catch bind await run];
    match goal with
    | |- context [host ?T ?r w1] =>
        destruct (host T r w1) as [[note|e] w2] eqn:Hedit
    end;
    cbn [try_catch bind await run];
    eexists _, _, _; (split; [done|]); right; exists body; cbv zeta;
    rewrite Hedit; done.
Qed.

Lemma last_cons (c d : string) (l : list string) :
  List.last (c :: l) d = List.last l c.
Proof.
  revert c d. induction l as [|x l IH]; intros c d; [done|].
  change (List.last (c :: x :: l) d) with (List.last (x :: l) d).
  by rewrite !IH.
Qed.

Lemma readContents_cons p polls :
  readContents (p :: polls) =
  match channel p with
  | Resolved c => c :: readContents polls
  | Rejected _ => readContents polls
  end.
Proof. unfold readContents. cbn [omap list_omap]. by destruct (channel p). Qed.

(** X20. What the watcher publishes, whatever the polls meet: never the
    empty content; only contents it read, in the order in which it read
    them; and the content it holds as last published at the end is the one
    it started with or one that it published. *)
Theorem watch_publications
    (w : Watcher) (polls : list Poll) (lastContent : string) :
  Forall (fun c => c <> EmptyString) (watch w polls lastContent).2
  /\ (watch w polls lastContent).2 `sublist_of` readContents polls
  /\ ((watch w polls lastContent).1 = lastContent
      \/ In (watch w polls lastContent).1 (watch w polls lastContent).2).
Proof.
  revert lastContent. induction polls as [|p polls IH]; intros lastContent.
  { split; [constructor|]. split; [constructor | by left]. }
  rewrite watch_cons, readContents_cons.
  destruct (channel p) as [content|e]; [|apply IH].
  destruct (Js.truthy content) eqn:Hcontent; cbn [andb].
  2:{ destruct (IH lastContent) as (Hne & Hsub & Hlast).
      split; [done|]. split; [by constructor | done]. }
  destruct (bool_decide (content = lastContent)) eqn:Hsame; cbn [negb].
  { destruct (IH lastContent) as (Hne & Hsub & Hlast).
    split; [done|]. split; [by constructor | done]. }
  cbn [fst snd].
  destruct (IH (if publishSucceeds p then content else lastContent))
    as (Hne & Hsub & Hlast).
  split; [constructor; [by apply truthy_nonempty | done]|].
  split; [by constructor|].
  destruct Hlast as [Hlast|Hlast]; [|right; by right].
  rewrite Hlast. destruct (publishSucceeds p); [right; by left | by left].
Qed.

Lemma watch_no_repeats w polls lastContent :
  Forall (fun p => publishSucceeds p = true) polls ->
  noAdjacentRepeats (lastContent :: (watch w polls lastContent).2)
  /\ (watch w polls lastContent).1
     = List.last (watch w polls lastContent).2 lastContent.
Proof.
  intros Hok. revert lastContent.
  induction Hok as [|p polls Hp Hok IH]; intros lastContent; [done|].
  rewrite watch_cons.
  destruct (channel p) as [content|e]; [|apply IH].
  destruct (Js.truthy content) eqn:Hcontent; cbn [andb]; [|apply IH].
  destruct (bool_decide (content = lastContent)) eqn:Hsame; cbn [negb];
    [apply IH|].
  rewrite Hp. cbn [fst snd]. destruct (IH content) as [Hrep Hlast].
  apply bool_decide_eq_false in Hsame. split.
  - change (lastContent <> content
            /\ noAdjacentRepeats (content :: (watch w polls content).2)).
    split; [congruence | done].
  - by rewrite last_cons.
Qed.

(** X21. When no two callbacks overlap (each has settled before the
    timer fires again) and every edit succeeds, the watcher never publishes
    the same content twice in a row, the first publication differs from the
    content it started with, and the content it holds at the end is the
    last one it published (the initial one if it published nothing). *)
Theorem watch_no_repeated_publication
    (w : Watcher) (polls : list Poll) (lastContent : string) :
  Forall (fun p => publishSucceeds p = true) polls ->
  exists st,
    sequentially w polls (idle lastContent) = Some st
    /\ i_inFlight st = []
    /\ noAdjacentRepeats (lastContent :: publications (i_issued st))
    /\ i_lastContent st = List.last (publications (i_issued st)) lastContent.
Proof.
  intros Hok.
  destruct (sequentially_watch w polls lastContent [])
    as (st & Hrun & Hlast & Hidle & Hpub).
  destruct (watch_no_repeats w polls lastContent Hok) as [Hrep Hend].
  exists st. split; [exact Hrun|]. split; [exact Hidle|].
  rewrite Hpub, Hlast. cbn [publications omap list_omap app]. by split.
Qed.

Lemma watch_no_repeated_publication_witness :
  exists st,
    sequentially exampleWatcher (List.map observed ["A"; "A"; "B"; "A"])
      (idle EmptyString)
    = Some st
    /\ publications (i_issued st) = ["A"; "B"; "A"]
    /\ i_lastContent st = "A".
Proof.
  destruct (watch_no_repeated_publication exampleWatcher
              (List.map observed ["A"; "A"; "B"; "A"]) EmptyString)
    as (st & Hrun & _ & _ & Hlast); [repeat constructor|].
  exists st. split; [exact Hrun|].
  injection Hrun as <-. split; reflexivity.
Defined.

(** X22. A publication whose edit is rejected is not recorded: the
    watcher goes on as if that poll had not taken place, apart from the
    request it issued, so the next poll that reads the same content
    publishes it again. *)
Theorem watch_failed_edit_retried
    (w : Watcher) (content lastContent : string) (polls : list Poll) :
  content <> EmptyString ->
  content <> lastContent ->
  watch w (mkPoll (Resolved content) false :: polls) lastContent
  = ((watch w polls lastContent).1, content :: (watch w polls lastContent).2)
  /\ watch w [mkPoll (Resolved content) false; observed content] lastContent
     = (content, [content; content]).
Proof.
  intros Hne Hnew.
  assert (Js.truthy content && negb (bool_decide (content = lastContent)) = true)
    as Hguard.
  { apply truthy_nonempty in Hne. rewrite Hne.
    by rewrite (bool_decide_eq_false_2 _ Hnew). }
  split.
  - rewrite watch_cons. cbn [channel publishSucceeds]. by rewrite Hguard.
  - rewrite watch_cons. cbn [channel publishSucceeds]. rewrite Hguard.
    unfold observed. rewrite watch_cons. cbn [channel publishSucceeds].
    by rewrite Hguard.
Qed.

Lemma watch_failed_edit_retried_witness :
  watch exampleWatcher [mkPoll (Resolved "A") false; observed "A"] EmptyString
  = ("A", ["A"; "A"]).
Proof.
  apply (watch_failed_edit_retried exampleWatcher "A" EmptyString []);
    discriminate.
Defined.

(** X23. Polls at which the channel file cannot be read or is empty
    leave no trace: removing them changes neither the publications nor the
    content held at the end. The same holds for a poll that reads the
    content held as last published. *)
Theorem watch_silent_polls
    (w : Watcher) (polls : list Poll) (lastContent : string) :
  watch w (List.filter (fun p => negb (silentPoll p)) polls) lastContent
  = watch w polls lastContent
  /\ (forall succeeds,
        watch w (mkPoll (Resolved lastContent) succeeds :: polls) lastContent
        = watch w polls lastContent).
Proof.
  split.
  - revert lastContent. induction polls as [|p polls IH]; intros lastContent;
      [done|].
    cbn [List.filter]. unfold silentPoll at 1.
    destruct (channel p) as [content|e] eqn:Hp; cbn [negb].
    + destruct (Js.truthy content) eqn:Hcontent; cbn [negb].
      * rewrite !watch_cons, Hp, Hcontent. cbn [andb].
        destruct (negb (bool_decide (content = lastContent))); by rewrite IH.
      * rewrite IH, (watch_cons w p), Hp, Hcontent. done.
    + by rewrite IH, (watch_cons w p), Hp.
  - intros succeeds. rewrite watch_cons. cbn [channel].
    rewrite bool_decide_eq_true_2 by done. cbn [negb].
    by rewrite andb_false_r.
Qed.

(** X24. The watcher starts exactly when the comment id, the project
    id, the token and the API address are all set and not empty; nothing
    else is checked. It then works on a merge request only if
    [GITLAB_IS_MR] is exactly [true], takes the iid [0] when [GITLAB_IID]
    is not set, and keeps the comment id as text, parsed at each edit. *)
Theorem watcherOfEnv_spec (env : gmap string string) :
  (watcherOfEnv env = None <->
   exists name,
     In name ["CLAUDE_COMMENT_ID"; "GITLAB_PROJECT_ID"; "GITLAB_TOKEN";
              "GITLAB_API_URL"]
     /\ (env !! name = None \/ env !! name = Some EmptyString))
  /\ (forall watcher,
        watcherOfEnv env = Some watcher ->
        env !! "CLAUDE_COMMENT_ID" = Some (w_commentId watcher)
        /\ env !! "GITLAB_PROJECT_ID" = Some (w_projectId watcher)
        /\ (exists token apiUrl,
              env !! "GITLAB_TOKEN" = Some token
              /\ env !! "GITLAB_API_URL" = Some apiUrl
              /\ w_api watcher
                 = newGitLabAPI token apiUrl (w_projectId watcher))
        /\ (w_isMR watcher = true <-> env !! "GITLAB_IS_MR" = Some "true")
        /\ (env !! "GITLAB_IID" = None -> w_iid watcher = Num 0)
        /\ (forall text, env !! "GITLAB_IID" = Some text ->
                         text <> EmptyString ->
                         w_iid watcher = JsNum.parseInt text)).
Proof.
  assert (forall o : option string,
            Js.truthy_opt o = false <-> o = None \/ o = Some EmptyString)
    as Hfalsy.
  { intros [[|c s]|]; simpl; intuition congruence. }
  unfold watcherOfEnv. split.
  - destruct (Js.truthy_opt (env !! "CLAUDE_COMMENT_ID")) eqn:Hc; cbn [negb orb].
    2:{ split; [intros _|done]. exists "CLAUDE_COMMENT_ID".
        split; [by left | by apply Hfalsy]. }
    destruct (Js.truthy_opt (env !! "GITLAB_PROJECT_ID")) eqn:Hp; cbn [negb orb].
    2:{ split; [intros _|done]. exists "GITLAB_PROJECT_ID".
        split; [right; by left | by apply Hfalsy]. }
    destruct (Js.truthy_opt (env !! "GITLAB_TOKEN")) eqn:Ht; cbn [negb orb].
    2:{ split; [intros _|done]. exists "GITLAB_TOKEN".
        split; [do 2 right; by left | by apply Hfalsy]. }
    destruct (Js.truthy_opt (env !! "GITLAB_API_URL")) eqn:Ha; cbn [negb orb].
    2:{ split; [intros _|done]. exists "GITLAB_API_URL".
        split; [do 3 right; by left | by apply Hfalsy]. }
    split; [done|]. intros (name & Hname & Hmissing).
    apply Hfalsy in Hmissing. simpl in Hname.
    destruct Hname as [<-|[<-|[<-|[<-|[]]]]]; congruence.
  - intros watcher.
    destruct (env !! "CLAUDE_COMMENT_ID") as [commentId|]; [|done].
    destruct (env !! "GITLAB_PROJECT_ID") as [projectId|];
      [|by rewrite orb_true_r].
    destruct (env !! "GITLAB_TOKEN") as [token|];
      [|cbn [Js.truthy_opt negb]; by rewrite orb_true_r].
    destruct (env !! "GITLAB_API_URL") as [apiUrl|];
      [|cbn [Js.truthy_opt negb]; by rewrite orb_true_r].
    destruct (_ || _); [done|]. intros [= <-].
    cbn [w_commentId w_projectId w_api w_isMR w_iid default].
    split; [done|]. split; [done|]. split; [by exists token, apiUrl|].
    split; [apply bool_decide_eq_true|].
    split; [by intros ->|].
    intros text -> Htext. cbn [Js.or_default]. unfold Js.or_else.
    apply truthy_nonempty in Htext. by rewrite Htext.
Qed.

Lemma watcherOfEnv_spec_witness :
  w_isMR exampleWatcher = true
  /\ watcherOfEnv (<["GITLAB_TOKEN" := EmptyString]> ∅) = None.
Proof.
  split; [reflexivity|].
  apply (watcherOfEnv_spec (<["GITLAB_TOKEN" := EmptyString]> ∅)).
  exists "GITLAB_TOKEN". split; [do 2 right; by left|].
  right. reflexivity.
Defined.

(** ** The start of [main] *)

Section RunLaws.

Context {World : Type}.
Variable host : forall T : Type, Request T -> World -> Outcome T * World.

Lemma run_bind {A B : Type} (p : Async A) (f : A -> Async B) (w : World) :
  run host (bind p f) w =
  let '(o, w1, events1) := run host p w in
  match o with
  | Resolved a =>
      let '(o2, w2, events2) := run host (f a) w1 in
      (o2, w2, events1 ++ events2)
  | Rejected e => (Rejected e, w1, events1)
  end.
Proof.
  revert w. induction p as [a|e|T r k IH]; intros w; cbn [bind run].
  - by destruct (run host (f a) w) as [[o2 w2] events2].
  - done.
  - destruct (host T r w) as [o w1]. rewrite IH.
    destruct (run host (k o) w1) as [[[a|e] w2] events1]; [|done].
    by destruct (run host (f a) w2) as [[o2 w3] events2].
Qed.

Lemma run_try_catch {A : Type} (p : Async A) (h : string -> Async A) (w : World) :
  run host (try_catch p h) w =
  let '(o, w1, events1) := run host p w in
  match o with
  | Resolved a => (Resolved a, w1, events1)
  | Rejected e =>
      let '(o2, w2, events2) := run host (h e) w1 in
      (o2, w2, events1 ++ events2)
  end.
Proof.
  revert w. induction p as [a|e|T r k IH]; intros w; cbn [try_catch run].
  - done.
  - by destruct (run host (h e) w) as [[o2 w2] events2].
  - destruct (host T r w) as [o w1]. rewrite IH.
    destruct (run host (k o) w1) as [[[a|e] w2] events1]; [done|].
    by destruct (run host (h e) w2) as [[o2 w3] events2].
Qed.

Lemma createComment_run this context body w :
  run host
    (createComment this
       (CreateCommentParams.mk (projectId context) (isMR context) (iid context)
          body)) w
  = let '(o, w1) := host _ (noteCreation context body) w in
    (o, w1, [Issued (noteCreation context body)]).
Proof.
  unfold createComment, noteCreation.
  cbn [CreateCommentParams.isMR CreateCommentParams.projectId
       CreateCommentParams.iid CreateCommentParams.body].
  destruct (isMR context); cbn [await run];
    match goal with
    | |- context [host ?T ?r w] => by destruct (host T r w) as [[note|e] w1]
    end.
Qed.

Lemma createReply_run this context discussionId noteId body w :
  run host
    (createReply this
       (CreateReplyParams.mk (projectId context) (isMR context) (iid context)
          discussionId noteId body)) w
  = run host
      (createComment this
         (CreateCommentParams.mk (projectId context) (isMR context)
            (iid context)
            ("> In reply to discussion " +:+ discussionId +:+ LF +:+ LF
               +:+ body))) w.
Proof. unfold createReply, createComment. by destruct (isMR context). Qed.

(** Every run of [checkTrigger] resolves after requests that only read. *)
Lemma checkTrigger_reads this context w :
  exists triggerCheck w1 events,
    run host (checkTrigger this context) w
    = (Resolved triggerCheck, w1, events)
    /\ Forall (fun e => isReadRequest e = true) events.
Proof.
  assert (isReadRequest (Issued (discussionsRequest this context)) = true)
    as Hread by (unfold discussionsRequest; by destruct (isMR context)).
  rewrite checkTrigger_run. unfold labelStep.
  destruct (host _ (discussionsRequest this context) w) as [[discussions|e] w1];
    [|eexists _, _, _; split; [done | repeat constructor; auto]].
  cbv zeta.
  repeat match goal with
         | |- context [if ?b then _ else _] => destruct b
         | |- context [let '(_, _) := host ?T ?r ?w0 in _] =>
             destruct (host T r w0) as [[?|?] ?]
         end;
    eexists _, _, _; (split; [done|]); repeat constructor; auto.
Qed.

(** The start of [main] after a successful parse, in terms of the run of
    the trigger check. *)
Lemma mainUntilTrackingComment_run env context triggerCheck w w1 events1 :
  parseGitLabContext env = Returns context ->
  run host
    (checkTrigger
       (newGitLabAPI (token context) (apiUrl context) (projectId context))
       context) w
  = (Resolved triggerCheck, w1, events1) ->
  run host (mainUntilTrackingComment env) w =
  if negb (TriggerCheckResult.shouldRun triggerCheck) then
    (Resolved (Exited 0), w1, events1)
  else
    let create := noteCreation context (trackingBody context triggerCheck) in
    let '(o, w2) := host _ create w1 in
    (Resolved
       match o with
       | Resolved trackingComment =>
           Tracking context
             (newGitLabAPI (token context) (apiUrl context) (projectId context))
             triggerCheck trackingComment
       | Rejected _ => Exited 1
       end,
     w2, events1 ++ [Issued create]).
Proof.
  intros Hparse Hcheck. unfold mainUntilTrackingComment. rewrite Hparse.
  rewrite run_try_catch, run_bind, Hcheck.
  destruct (TriggerCheckResult.shouldRun triggerCheck); cbn [negb].
  2:{ cbn [run]. by rewrite app_nil_r. }
  cbv zeta. unfold trackingBody.
  destruct (TriggerCheckResult.triggerComments triggerCheck)
    as [|firstTrigger others],
      (TriggerCheckResult.triggerType triggerCheck) as [[| |]|];
    rewrite run_bind, ?createReply_run, createComment_run;
    match goal with
    | |- context [host ?T ?r w1] => destruct (host T r w1) as [[note|e] w2]
    end;
    cbn [run]; by rewrite ?app_nil_r.
Qed.

End RunLaws.

(** X25. The start of [main], up to the tracking comment, against any
    host: it never rejects; when the context cannot be parsed it exits with
    1 without any request; otherwise the requests of the trigger check,
    which only read, come first and at most one request follows, which
    creates a note; no note is created when the run exits with 0 (nothing
    triggered it, or the trigger check hit an error), and the run goes on
    only with a parsed context, a positive trigger check and the note that
    the host answered the creation with. *)
Theorem mainUntilTrackingComment_requests
    {World : Type}
    (host : forall T : Type, Request T -> World -> Outcome T * World)
    (env : gmap string string) (w : World) :
  exists start w' events,
    run host (mainUntilTrackingComment env) w = (Resolved start, w', events)
    /\ (forall message,
          parseGitLabContext env = Throws message ->
          start = Exited 1 /\ events = [] /\ w' = w)
    /\ (exists reads writes,
          events = reads ++ writes
          /\ Forall (fun e => isReadRequest e = true) reads
          /\ Forall (fun e => isCreateRequest e = true) writes
          /\ length writes <= 1
          /\ (start = Exited 0 -> writes = []))
    /\ match start with
       | Exited code => code = 0%Z \/ code = 1%Z
       | Tracking context api triggerCheck trackingComment =>
           parseGitLabContext env = Returns context
           /\ api = newGitLabAPI (token context) (apiUrl context)
                      (projectId context)
           /\ TriggerCheckResult.shouldRun triggerCheck = true
           /\ exists w1,
                (host _ (noteCreation context (trackingBody context triggerCheck))
                   w1).1
                = Resolved trackingComment
       end.
Proof.
  destruct (parseGitLabContext env) as [context|message] eqn:Hparse.
  2:{ exists (Exited 1), w, []. unfold mainUntilTrackingComment.
      rewrite Hparse. split; [done|]. split; [done|].
      split; [|by right]. exists [], []. repeat split; auto. }
  destruct (checkTrigger_reads host
              (newGitLabAPI (token context) (apiUrl context) (projectId context))
              context w) as (triggerCheck & w1 & events1 & Hcheck & Hreads).
  rewrite (mainUntilTrackingComment_run host env context triggerCheck w w1
             events1 Hparse Hcheck).
  destruct (TriggerCheckResult.shouldRun triggerCheck) eqn:Hrun; cbn [negb].
  2:{ eexists _, _, _. split; [done|]. split; [done|].
      split; [|by left]. exists events1, []. rewrite app_nil_r.
      repeat split; auto. }
  cbv zeta.
  assert (isCreateRequest
            (Issued (noteCreation context (trackingBody context triggerCheck)))
          = true) as Hcreate
    by (unfold noteCreation; by destruct (isMR context)).
  destruct (host _ (noteCreation context (trackingBody context triggerCheck)) w1)
    as [[trackingComment|e] w2] eqn:Hhost.
  - eexists _, _, _. split; [done|]. split; [done|]. split.
    + eexists events1, [_]. split; [done|]. split; [done|].
      split; [by repeat constructor|]. split; [simpl; lia | done].
    + repeat split; auto. exists w1. by rewrite Hhost.
  - eexists _, _, _. split; [done|]. split; [done|]. split.
    + eexists events1, [_]. split; [done|]. split; [done|].
      split; [by repeat constructor|]. split; [simpl; lia | done].
    + by right.
Qed.

(** X26. Where the tracking comment goes. When the discussions hold a
    trigger comment that the agent has not answered, [main] issues two
    requests: it fetches the discussions and creates a note, on the merge
    request or issue of the context, whose body quotes the discussion of
    the first unanswered trigger and continues with the initial body; the
    run goes on with the note the host answers with and exits with 1 when
    the creation is rejected. When the trigger check asks to run for
    another reason (an assignment or a label), the note carries the initial
    body alone. *)
Theorem mainUntilTrackingComment_tracking_comment
    {World : Type}
    (host : forall T : Type, Request T -> World -> Outcome T * World)
    (env : gmap string string) (context : GitLabContext) (w : World) :
  parseGitLabContext env = Returns context ->
  let api := newGitLabAPI (token context) (apiUrl context) (projectId context) in
  (forall ds w1 firstTrigger others,
     host _ (discussionsRequest api context) w = (Resolved (Some ds), w1) ->
     unansweredTriggers context ds = firstTrigger :: others ->
     let create :=
       noteCreation context
         ("> In reply to discussion "
            +:+ TriggerComment.discussionId firstTrigger
            +:+ LF +:+ LF +:+ createInitialCommentBody context) in
     exists start,
       run host (mainUntilTrackingComment env) w
       = (Resolved start, (host _ create w1).2,
          [Issued (discussionsRequest api context); Issued create])
       /\ match (host _ create w1).1 with
          | Resolved trackingComment =>
              exists triggerCheck,
                start = Tracking context api triggerCheck trackingComment
                /\ TriggerCheckResult.triggerType triggerCheck = Some comment
                /\ TriggerCheckResult.triggerComments triggerCheck
                   = firstTrigger :: others
          | Rejected _ => start = Exited 1
          end)
  /\ (forall triggerCheck w1 events1,
        run host (checkTrigger api context) w
        = (Resolved triggerCheck, w1, events1) ->
        TriggerCheckResult.shouldRun triggerCheck = true ->
        TriggerCheckResult.triggerType triggerCheck <> Some comment ->
        exists start w2,
          run host (mainUntilTrackingComment env) w
          = (Resolved start, w2,
             events1
               ++ [Issued (noteCreation context
                             (createInitialCommentBody context))])).
Proof.
  intros Hparse api. split.
  - intros ds w1 firstTrigger others Hfetch Hnew create.
    pose proof (checkTrigger_run host api context w) as Hcheck.
    rewrite Hfetch in Hcheck. cbv zeta in Hcheck.
    rewrite newTriggers_unanswered, Hnew in Hcheck.
    cbn [length Nat.ltb Nat.leb] in Hcheck.
    rewrite (mainUntilTrackingComment_run host env context _ w w1 _
               Hparse Hcheck).
    cbn [TriggerCheckResult.shouldRun negb]. cbv zeta.
    unfold trackingBody.
    cbn [TriggerCheckResult.triggerComments TriggerCheckResult.triggerType].
    fold create.
    destruct (host _ create w1) as [[trackingComment|e] w2]; cbn [fst snd].
    + eexists. split; [done|]. eexists. split; [done|]. done.
    + eexists. split; done.
  - intros triggerCheck w1 events1 Hcheck Hrun Htype.
    rewrite (mainUntilTrackingComment_run host env context triggerCheck w w1
               events1 Hparse Hcheck).
    rewrite Hrun. cbn [negb]. cbv zeta.
    assert (trackingBody context triggerCheck = createInitialCommentBody context)
      as ->.
    { unfold trackingBody.
      destruct (TriggerCheckResult.triggerComments triggerCheck) as [|t l];
        [done|].
      by destruct (TriggerCheckResult.triggerType triggerCheck) as [[| |]|]. }
    destruct (host _ (noteCreation context (createInitialCommentBody context)) w1)
      as [o w2].
    by eexists _, _.
Qed.

Lemma mainUntilTrackingComment_tracking_comment_witness :
  exists trackingComment triggerCheck,
    run (staticHost servedBoth) (mainUntilTrackingComment exampleIssueEnv) tt
    = (Resolved
         (Tracking exampleIssueContext exampleAPI triggerCheck trackingComment),
       tt,
       [Issued (IssueDiscussions_all "123" (Num 10));
        Issued (IssueNotes_create "123" (Num 10)
                  ("> In reply to discussion d1" +:+ LF +:+ LF
                     +:+ createInitialCommentBody exampleIssueContext))]).
Proof.
  destruct (mainUntilTrackingComment_tracking_comment (staticHost servedBoth)
              exampleIssueEnv exampleIssueContext tt eq_refl)
    as [Hreply _].
  destruct (Hreply [unansweredDiscussion; answeredDiscussion] tt
              (TriggerComment.mk (noteBy 1 "alice" "Hey @claude can you help?")
                 "d1" false)
              [] eq_refl eq_refl)
    as (start & Hrun & triggerCheck & -> & _).
  eexists _, triggerCheck. exact Hrun.
Defined.
